(** * gcosmos: the consensus strategy of gserver/internal/gsi

    A shallow embedding of [consensusstrategy.go]: proposer selection,
    round entry, proposal consideration and the precommit decision.
    Go's unsigned and signed machine integers are integers of [Z] with the
    wrap-around written out; maps are [gmap]s; the collaborators the
    strategy holds behind interfaces are records of functions. *)

From Stdlib Require Import ZArith Lia Ascii String.
From stdpp Require Import base option list strings pretty gmap.

Local Open Scope Z_scope.

(** ** Go runtime: results, errors, machine integers *)

(** A Go call either returns or panics. *)
Inductive Res (A : Type) : Type :=
| Ret (a : A)
| Panic (msg : string).
Arguments Ret {A} a.
Arguments Panic {A} msg.

(** A Go [error] value; [None] is the nil error. *)
Definition error : Type := string.

(** A Go byte slice. *)
Definition bytes : Type := list Byte.byte.

Definition uint64_max : Z := 2 ^ 64 - 1.
Definition uint32_max : Z := 2 ^ 32 - 1.

Definition is_uint64 (z : Z) : Prop := 0 <= z <= uint64_max.
Definition is_uint32 (z : Z) : Prop := 0 <= z <= uint32_max.

(** Reduction of an integer to the 64-bit signed range (two's complement):
    what [int(x)] and [int] addition do on a 64-bit platform. *)
Definition wrap_int (z : Z) : Z := (z + 2 ^ 63) mod 2 ^ 64 - 2 ^ 63.

(** Go's [%] on signed integers truncates toward zero; a zero divisor
    panics. *)
Definition go_rem (a b : Z) : Res Z :=
  if b =? 0 then Panic "runtime error: integer divide by zero"
  else Ret (Z.rem a b).

(** Go's slice indexing with a signed index. *)
Definition go_index {A} (l : list A) (i : Z) : Res A :=
  if i <? 0 then Panic "runtime error: index out of range"
  else match l !! Z.to_nat i with
       | Some a => Ret a
       | None => Panic "runtime error: index out of range"
       end.

(** ** gcrypto and tmconsensus types *)

(** [gcrypto.PubKey] is an interface; the strategy only calls [Equal], whose
    argument may be the nil interface value. *)
Class PubKeyIface (K : Type) : Type := {
  pk_Equal : K -> option K -> bool
}.

(** The contract of [Equal]: it decides equality of keys, and no key equals
    nil. *)
Class PubKeyLawful (K : Type) `{PubKeyIface K} : Prop := {
  pk_Equal_nil : forall k, pk_Equal k None = false;
  pk_Equal_spec : forall a b, pk_Equal a (Some b) = true <-> a = b
}.

Section Validators.
Context {K : Type}.

(** [tmconsensus.Validator]. The key is an interface value in the engine; a
    validator of a validator set always has one. *)
Record Validator : Type := mkValidator {
  PubKey : K;
  Power : Z
}.

Record ValidatorSet : Type := mkValidatorSet {
  Validators : list Validator
}.

(** [ProposerSelectionFunc]: the context argument carries no data the
    selection reads. *)
Definition ProposerSelectionFunc : Type :=
  Z -> Z -> ValidatorSet -> Res Validator.

(** [DefaultProposerSelection]: [h] is a uint64 and [r] a uint32, both
    converted to [int] before the addition. *)
Definition DefaultProposerSelection : ProposerSelectionFunc :=
  fun h r valSet =>
    match go_rem (wrap_int (wrap_int h + wrap_int r))
                 (Z.of_nat (length (Validators valSet))) with
    | Panic m => Panic m
    | Ret proposerIdx => go_index (Validators valSet) proposerIdx
    end.

End Validators.
Arguments Validator K : clear implicits.
Arguments ValidatorSet K : clear implicits.
Arguments ProposerSelectionFunc K : clear implicits.

(** ** Precommit decision *)

Record VoteSummary : Type := mkVoteSummary {
  AvailablePower : Z;
  PrevoteBlockPower : gmap string Z;
  MostVotedPrevoteHash : string
}.

(** Modelled from the spec: [tmconsensus.ByzantineMajority] belongs to the
    engine and is not part of this repository's sources; the spec gives it as
    the minimum power that is strictly more than two-thirds of its
    argument. *)
Definition ByzantineMajority (n : Z) : Z := 2 * n / 3 + 1.

(** Reading a Go map at a missing key gives the zero value. *)
Definition map_get (m : gmap string Z) (k : string) : Z :=
  default 0 (m !! k).

Definition DecidePrecommit (vs : VoteSummary) : string * option error :=
  let maj := ByzantineMajority (AvailablePower vs) in
  let pow := map_get (PrevoteBlockPower vs) (MostVotedPrevoteHash vs) in
  if pow >=? maj then (MostVotedPrevoteHash vs, None)
  else (""%string, None).


(** ** gsbd: block-data identifiers and the request cache *)

(** What [ParseDataID] returns besides its error. *)
Record ParsedDataID : Type := mkParsedDataID {
  pid_height : Z;
  pid_round : Z;
  pid_nTxs : Z;
  pid_dataLen : Z;
  pid_txsHash : string
}.

Module gsbd.

(** The constant that [dataid_generate.go] writes into [dataid_zero.go]:
    the hex form of the 32-byte BLAKE2b hash of no input. *)
Definition zeroHash : string :=
  "0e5751c026e543b2e8ab2eb06099daa1d1e5df47778f7787faab45cdf12fe3a8".

Definition zeroHashSuffix : string := ":0:0:" +:+ zeroHash.

Definition dec (z : Z) : string := pretty (Z.to_N z).

(** Modelled from the spec: [DataID] lives in a file of package gsbd that is
    not among the sources. The identifier is the colon-delimited text
    height:round:nTxs:dataLen:hexHash, and the empty batch takes the fixed
    suffix. [txsHash] stands for the hex content hash of a non-empty
    batch. *)
Definition DataID {Tx : Type} (txsHash : list Tx -> string)
    (height round dataLen : Z) (txs : list Tx) : string :=
  match txs with
  | [] => dec height +:+ ":" +:+ dec round +:+ zeroHashSuffix
  | _ => dec height +:+ ":" +:+ dec round +:+ ":"
         +:+ dec (Z.of_nat (length txs)) +:+ ":" +:+ dec dataLen
         +:+ ":" +:+ txsHash txs
  end.

Fixpoint split_on (sep : ascii) (s : string) (cur : string)
    : list string :=
  match s with
  | EmptyString => [String.rev cur]
  | String a s' =>
      if Ascii.eqb a sep then String.rev cur :: split_on sep s' EmptyString
      else split_on sep s' (String a cur)
  end.

Definition digit_of (a : ascii) : option Z :=
  let n := Z.of_N (Ascii.N_of_ascii a) in
  if (48 <=? n) && (n <=? 57) then Some (n - 48) else None.

Fixpoint parse_dec_go (s : string) (acc : Z) : option Z :=
  match s with
  | EmptyString => Some acc
  | String a s' =>
      match digit_of a with
      | Some d => parse_dec_go s' (10 * acc + d)
      | None => None
      end
  end.

(** An unsigned decimal number of at most [max]. *)
Definition parse_dec (max : Z) (s : string) : option Z :=
  match s with
  | EmptyString => None
  | _ => match parse_dec_go s 0 with
         | Some z => if z <=? max then Some z else None
         | None => None
         end
  end.

Definition is_hex (a : ascii) : bool :=
  let n := Z.of_N (Ascii.N_of_ascii a) in
  ((48 <=? n) && (n <=? 57)) || ((97 <=? n) && (n <=? 102))
  || ((65 <=? n) && (n <=? 70)).

Fixpoint all_hex (s : string) : bool :=
  match s with
  | EmptyString => true
  | String a s' => is_hex a && all_hex s'
  end.

(** Modelled from the spec: [ParseDataID] is in the same missing file. It
    reads back the five colon-delimited fields and fails on malformed
    input; [None] is its non-nil error. *)
Definition ParseDataID (id : string) : option ParsedDataID :=
  match split_on ":" id EmptyString with
  | [sh; sr; sn; sl; sx] =>
      match parse_dec uint64_max sh, parse_dec uint32_max sr,
            parse_dec (2 ^ 63 - 1) sn, parse_dec uint32_max sl with
      | Some h, Some r, Some n, Some l =>
          if (String.length sx =? 64)%nat && all_hex sx
          then Some (mkParsedDataID h r n l sx)
          else None
      | _, _, _, _ => None
      end
  | _ => None
  end.

End gsbd.

(** ** The consensus strategy *)

(** [BlockAnnotation]: the proposer's claimed time, as text. *)
Record BlockAnnotation : Type := mkBlockAnnotation {
  TimeS : string
}.

(** [ProposalDriverAnnotation]: where the block data can be fetched. *)
Record ProposalDriverAnnotation : Type := mkProposalDriverAnnotation {
  Locations : list string
}.

(** [tmconsensus.Annotations]. *)
Record Annotations : Type := mkAnnotations {
  User : bytes;
  Driver : bytes
}.

Record Header : Type := mkHeader {
  hdr_Height : Z;
  hdr_DataID : bytes;
  hdr_Hash : bytes;
  hdr_Annotations : Annotations
}.

Record Proposal : Type := mkProposal {
  prop_DataID : string;
  prop_BlockAnnotations : Annotations;
  prop_ProposalAnnotations : Annotations
}.

(** A [context.Context] as far as the strategy observes it: the cause of
    its cancellation, if it is cancelled while a send is blocked. *)
Record Context : Type := mkContext {
  ctx_Cause : option error
}.

(** The sentinel [tmconsensus.ErrProposedBlockChoiceNotReady]. *)
Definition ErrProposedBlockChoiceNotReady : error :=
  "proposed block choice not ready".

Inductive Level : Type := Debug | Info | Warn.

(** [tmconsensus.ConsiderProposedBlocksReason], what the engine passes to
    say why it calls the consideration hook. *)
Record ConsiderProposedBlocksReason : Type :=
  mkConsiderProposedBlocksReason {
    NewProposedBlocks : list string;
    UpdatedBlockDataIDs : list string;
    MajorityVotingPowerPresent : bool
  }.

(** [string(b)] for a byte slice [b]. *)
Definition string_of_bytes (b : bytes) : string := string_of_list_byte b.

(** Functions of other packages that the strategy calls. [time_Now k] is the
    k-th reading of the wall clock; times are instants on an integer
    scale. A [None] result is a non-nil error. *)
Class Imports (Tx : Type) : Type := {
  ParseDataID : string -> option ParsedDataID;
  DataID : Z -> Z -> Z -> list Tx -> string;
  json_Marshal_BlockAnnotation : BlockAnnotation -> bytes * option error;
  json_Unmarshal_BlockAnnotation : bytes -> option BlockAnnotation;
  json_Marshal_ProposalDriverAnnotation :
    ProposalDriverAnnotation -> bytes * option error;
  time_Now : nat -> Z;
  time_Format_RFC3339 : Z -> string;
  time_Parse_RFC3339 : string -> option Z
}.

Section Strategy.
Context {K : Type} `{PubKeyIface K}.
Context {Tx SimState : Type} `{Imports Tx}.

Record ProposedHeader : Type := mkProposedHeader {
  ph_Header : Header;
  ph_Round : Z;
  ph_ProposerPubKey : option K;
  ph_Annotations : Annotations
}.

Record RoundView : Type := mkRoundView {
  rv_Height : Z;
  rv_Round : Z;
  rv_ValidatorSet : ValidatorSet K;
  rv_ProposedHeaders : list ProposedHeader
}.

(** [server.TxResult]: only its [Error] field is read. *)
Record TxResult : Type := mkTxResult {
  tr_Error : option error
}.

(** [appmanager.AppManager], the two speculative-execution entry points. *)
Record AppManager : Type := mkAppManager {
  Simulate : Tx -> TxResult * SimState * option error;
  SimulateWithState : SimState -> Tx -> TxResult * SimState * option error
}.

(** [SDKTxBuf]: the snapshot that [Buffered(ctx, nil)] returns. *)
Record SDKTxBuf : Type := mkSDKTxBuf {
  Buffered : list Tx
}.

(** [gsbd.ProvideResult]. *)
Record ProvideResult : Type := mkProvideResult {
  pr_DataID : string;
  pr_DataSize : Z;
  pr_Addrs : list string;
  pr_Encoded : bytes
}.

(** [gsbd.Provider]. *)
Record Provider : Type := mkProvider {
  Provide : Z -> Z -> list Tx -> ProvideResult * option error
}.

(** [gsbd.BlockDataRequest]: [Ready] holds once the Ready channel is
    closed. *)
Record BlockDataRequest : Type := mkBlockDataRequest {
  Ready : bool;
  Transactions : list Tx;
  EncodedTransactions : bytes
}.

(** The contents of a [gsbd.RequestCache], keyed by data identifier. *)
Definition RequestCache : Type := gmap string BlockDataRequest.

(** Modelled from the spec: the methods of [gsbd.RequestCache] are not among
    the sources. [Get] looks a record up. *)
Definition Get (rc : RequestCache) (id : string)
    : option BlockDataRequest :=
  rc !! id.

(** Modelled from the spec: [SetImmediatelyAvailable] stores a record that is
    ready at once, with the transactions and their encoded bytes. *)
Definition SetImmediatelyAvailable (rc : RequestCache) (id : string)
    (txs : list Tx) (encoded : bytes) : RequestCache :=
  <[id := mkBlockDataRequest true txs encoded]> rc.

(** [PBDRetriever]: [Retrieve] works on the request cache it shares with the
    strategy and reports whether the retrieval could be started. *)
Record PBDRetriever : Type := mkPBDRetriever {
  Retrieve : RequestCache -> string -> bytes
             -> option error * RequestCache
}.

Record ConsensusStrategy : Type := mkConsensusStrategy {
  am : AppManager;
  txBuf : SDKTxBuf;
  signerPubKey : option K;
  provider : Provider;
  curH : Z;
  curR : Z;
  pbdr : PBDRetriever;
  bdrCache : RequestCache;
  proposerSelection : ProposerSelectionFunc K
}.

Definition set_curH (h : Z) (c : ConsensusStrategy) : ConsensusStrategy :=
  mkConsensusStrategy (am c) (txBuf c) (signerPubKey c) (provider c)
    h (curR c) (pbdr c) (bdrCache c) (proposerSelection c).

Definition set_curR (r : Z) (c : ConsensusStrategy) : ConsensusStrategy :=
  mkConsensusStrategy (am c) (txBuf c) (signerPubKey c) (provider c)
    (curH c) r (pbdr c) (bdrCache c) (proposerSelection c).

Definition set_bdrCache (rc : RequestCache) (c : ConsensusStrategy)
    : ConsensusStrategy :=
  mkConsensusStrategy (am c) (txBuf c) (signerPubKey c) (provider c)
    (curH c) (curR c) (pbdr c) rc (proposerSelection c).

(** What a hook does to its collaborators, in order. *)
Inductive Event : Type :=
| EvLog (lvl : Level) (msg : string)
| EvRetrieve (dataID : string) (metadata : bytes)
| EvSimulate (tx : Tx)
| EvSimulateWithState (state : SimState) (tx : Tx)
| EvBuffered
| EvProvide (h r : Z) (txs : list Tx)
| EvSetImmediatelyAvailable (dataID : string) (txs : list Tx)
    (encoded : bytes)
| EvSendC (p : Proposal) (sent : bool).

(** The surroundings of the strategy: how often the clock was read, and the
    calls made so far. *)
Record World : Type := mkWorld {
  ticks : nat;
  trace : list Event
}.

(** A method of the strategy: it may update the strategy it is called on,
    acts on the world, and returns or panics. *)
Definition M (A : Type) : Type :=
  ConsensusStrategy -> World -> Res (A * ConsensusStrategy * World).

#[global] Instance M_ret : MRet M :=
  fun A a c w => Ret (a, c, w).

#[global] Instance M_bind : MBind M :=
  fun A B f m c w =>
    match m c w with
    | Panic msg => Panic msg
    | Ret (a, c', w') => f a c' w'
    end.

Definition self : M ConsensusStrategy := fun c w => Ret (c, c, w).

Definition update (f : ConsensusStrategy -> ConsensusStrategy) : M unit :=
  fun c w => Ret (tt, f c, w).

Definition emit (e : Event) : M unit :=
  fun c w => Ret (tt, c, mkWorld (ticks w) (trace w ++ [e])).

Definition log (lvl : Level) (msg : string) : M unit :=
  emit (EvLog lvl msg).

Definition panic {A} (msg : string) : M A := fun _ _ => Panic msg.

Definition call {A} (r : Res A) : M A :=
  fun c w => match r with
             | Ret a => Ret (a, c, w)
             | Panic msg => Panic msg
             end.

(** [time.Now()]. *)
Definition now : M Z :=
  fun c w => Ret (time_Now (ticks w), c, mkWorld (S (ticks w)) (trace w)).

(** [BlockAnnotation.Time]. *)
Definition BlockAnnotation_Time (ba : BlockAnnotation) : option Z :=
  time_Parse_RFC3339 (TimeS ba).

(** Modelled from the spec: [gchan.SendC] is in a package of this repository
    that is not among the sources. The handoff blocks until the engine takes
    the proposal or the context is cancelled, whichever comes first, and
    reports which; a cancellation is logged. *)
Definition SendC (ctx : Context) (p : Proposal) : M bool :=
  match ctx_Cause ctx with
  | None => emit (EvSendC p true);; mret true
  | Some _ =>
      emit (EvSendC p false);;
      log Info "Context cancelled while sending proposal to engine";;
      mret false
  end.

(** *** EnterRound *)

(** The two branches on [len(pendingTxs)]: either an error to return, or
    the data identifier and the proposal driver annotation. *)
Definition provide_block_data (pendingTxs : list Tx)
    : M (error + string * bytes) :=
  c ← self;
  if decide (length pendingTxs = 0%nat) then
    mret (inr (DataID (curH c) (curR c) 0 [], []))
  else
    emit (EvProvide (curH c) (curR c) pendingTxs);;
    let '(res, err) := Provide (provider c) (curH c) (curR c) pendingTxs in
    match err with
    | Some e => mret (inl ("failed to provide block data: " +:+ e))
    | None =>
        let '(pda, err) :=
          json_Marshal_ProposalDriverAnnotation
            (mkProposalDriverAnnotation (pr_Addrs res)) in
        match err with
        | Some e =>
            mret (inl ("failed to marshal proposal driver annotations: "
                       +:+ e))
        | None =>
            let blockDataID := pr_DataID res in
            update (fun c => set_bdrCache
                      (SetImmediatelyAvailable (bdrCache c) blockDataID
                         pendingTxs (pr_Encoded res)) c);;
            emit (EvSetImmediatelyAvailable blockDataID pendingTxs
                    (pr_Encoded res));;
            mret (inr (blockDataID, pda))
        end
    end.

(** [proposalOut] is [None] for a nil channel. The channel itself carries
    nothing the strategy inspects. *)
Definition EnterRound (ctx : Context) (rv : RoundView)
    (proposalOut : option unit) : M (option error) :=
  update (set_curH (rv_Height rv));;
  update (set_curR (rv_Round rv));;
  c ← self;
  (match signerPubKey c with
   | None => mret tt (* the branch body is empty in the source *)
   | Some _ => mret tt
   end);;
  proposingVal ← call (proposerSelection c (rv_Height rv) (rv_Round rv)
                         (rv_ValidatorSet rv));
  let weShouldPropose := pk_Equal (PubKey proposingVal) (signerPubKey c) in
  if negb weShouldPropose then mret None
  else
    match proposalOut with
    | None =>
        if existsb (fun ph => pk_Equal (PubKey proposingVal)
                                (ph_ProposerPubKey ph))
             (rv_ProposedHeaders rv)
        then mret None
        else panic
          "BUG: proposalOut channel was nil when we were supposed to propose"
    | Some _ =>
        t ← now;
        let '(ba, err) :=
          json_Marshal_BlockAnnotation
            (mkBlockAnnotation (time_Format_RFC3339 t)) in
        match err with
        | Some e =>
            mret (Some ("failed to marshal block driver annotations: "
                        +:+ e))
        | None =>
            emit EvBuffered;;
            let pendingTxs := Buffered (txBuf c) in
            built ← provide_block_data pendingTxs;
            match built with
            | inl e => mret (Some e)
            | inr (blockDataID, pda) =>
                sent ← SendC ctx
                  (mkProposal blockDataID (mkAnnotations [] ba)
                     (mkAnnotations [] pda));
                if (sent : bool) then mret None
                else mret (Some (default "context canceled" (ctx_Cause ctx)))
            end
        end
    end.

(** *** ConsiderProposedBlocks *)

(** What one turn of the loop over the proposed headers ends in. *)
Inductive Verdict : Type :=
| Continue
| Return (hash : string).

(** The loop over [txs[1:]]; [false] is [continue PH_LOOP]. *)
Fixpoint simulate_rest (txs : list Tx) (state : SimState) : M bool :=
  match txs with
  | [] => mret true
  | tx :: txs' =>
      c ← self;
      emit (EvSimulateWithState state tx);;
      let '(txRes, state', err) := SimulateWithState (am c) state tx in
      match err with
      | Some _ =>
          log Info ("Failed to run SimulateWithState for incoming "
                    +:+ "transaction; discarding the transaction");;
          mret false
      | None =>
          match tr_Error txRes with
          | Some _ =>
              log Debug
                "Ignoring proposed block due to failure to apply transaction";;
              mret false
          | None => simulate_rest txs' state'
          end
      end
  end.

(** The body of [if nTxs != 0]; [false] is [continue]. *)
Definition check_block_data (ph : ProposedHeader) : M bool :=
  c ← self;
  let id := string_of_bytes (hdr_DataID (ph_Header ph)) in
  match Get (bdrCache c) id with
  | None =>
      emit (EvRetrieve id (Driver (ph_Annotations ph)));;
      let '(err, rc) :=
        Retrieve (pbdr c) (bdrCache c) id (Driver (ph_Annotations ph)) in
      update (set_bdrCache rc);;
      (match err with
       | Some _ => log Warn "Failed to initiate retrieval of proposed data"
       | None => mret tt
       end);;
      mret false
  | Some bdr =>
      if negb (Ready bdr) then mret false
      else
        match Transactions bdr with
        | [] => panic "runtime error: index out of range [0] with length 0"
        | tx0 :: txs' =>
            emit (EvSimulate tx0);;
            let '(txRes, state, err) := Simulate (am c) tx0 in
            match err with
            | Some _ =>
                log Debug
                  "Ignoring proposed block due to failure to simulate";;
                mret false
            | None =>
                match tr_Error txRes with
                | Some _ =>
                    log Debug ("Ignoring proposed block due to failure "
                               +:+ "to apply transaction");;
                    mret false
                | None => simulate_rest txs' state
                end
            end
        end
  end.

(** The annotation and time checks that end the loop body. *)
Definition check_annotation (ph : ProposedHeader) : M Verdict :=
  match json_Unmarshal_BlockAnnotation
          (Driver (hdr_Annotations (ph_Header ph))) with
  | None =>
      log Debug ("Ignoring proposed block due to error extracting "
                 +:+ "block annotation");;
      mret Continue
  | Some ba =>
      match BlockAnnotation_Time ba with
      | None =>
          log Debug ("Ignoring proposed block due to error extracting "
                     +:+ "block time from annotation");;
          mret Continue
      | Some bt =>
          t ← now;
          if bt >? t then
            log Debug
              "Ignoring proposed block due to block time in the future";;
            mret Continue
          else mret (Return (string_of_bytes (hdr_Hash (ph_Header ph))))
      end
  end.

(** One turn of [PH_LOOP]. The source's [excluded] is the constant false, so
    the turn starts at the height check. *)
Definition PH_LOOP_body (ph : ProposedHeader) : M Verdict :=
  c ← self;
  if negb (hdr_Height (ph_Header ph) =? curH c) then
    log Debug "Ignoring proposed block due to height mismatch";;
    mret Continue
  else if negb (ph_Round ph =? curR c) then
    log Debug "Ignoring proposed block due to round mismatch";;
    mret Continue
  else
    match ParseDataID (string_of_bytes (hdr_DataID (ph_Header ph))) with
    | None =>
        log Debug
          "Ignoring proposed block due to unparseable app data ID";;
        mret Continue
    | Some p =>
        if negb (pid_height p =? curH c) then
          log Debug
            "Ignoring proposed block due to wrong height in app data ID";;
          mret Continue
        else if negb (pid_round p =? curR c) then
          log Debug
            "Ignoring proposed block due to wrong round in app data ID";;
          mret Continue
        else
          ok ← (if negb (pid_nTxs p =? 0) then check_block_data ph
                else mret true);
          if (ok : bool) then check_annotation ph else mret Continue
    end.

Fixpoint PH_LOOP (phs : list ProposedHeader) : M (string * option error) :=
  match phs with
  | [] => mret (""%string, Some ErrProposedBlockChoiceNotReady)
  | ph :: phs' =>
      v ← PH_LOOP_body ph;
      match v with
      | Return hash => mret (hash, None)
      | Continue => PH_LOOP phs'
      end
  end.

(** The third argument, the reason for the call, is not named in the
    source. *)
Definition ConsiderProposedBlocks (phs : list ProposedHeader)
    (_ : ConsiderProposedBlocksReason) : M (string * option error) :=
  PH_LOOP phs.

Definition ChooseProposedBlock (phs : list ProposedHeader)
    : M (string * option error) :=
  '(h, err) ← ConsiderProposedBlocks phs
                 (mkConsiderProposedBlocksReason [] [] false);
  match err with
  | Some e =>
      if decide (e = ErrProposedBlockChoiceNotReady) then mret (""%string, None)
      else mret (""%string, Some e)
  | None => mret (h, None)
  end.

End Strategy.

(** ** What the hooks are specified to do *)

Section Specification.
Context {K : Type} `{PubKeyIface K}.
Context {Tx SimState : Type} `{Imports Tx}.
Implicit Types (c : @ConsensusStrategy K Tx SimState).
Implicit Types (w : @World Tx SimState) (ph : @ProposedHeader K).
Implicit Types (a : @AppManager Tx SimState).

(** Every candidate of the list ends its turn in [continue]; the strategy
    and the world are threaded from one turn to the next. *)
Inductive skips : list (@ProposedHeader K) ->
    @ConsensusStrategy K Tx SimState -> @World Tx SimState ->
    @ConsensusStrategy K Tx SimState -> @World Tx SimState -> Prop :=
| skips_nil c w : skips [] c w c w
| skips_cons ph phs c w c1 w1 c2 w2 :
    PH_LOOP_body ph c w = Ret (Continue, c1, w1) ->
    skips phs c1 w1 c2 w2 ->
    skips (ph :: phs) c w c2 w2.

(** The data identifier of a candidate, as the cache is keyed. *)
Definition data_id ph : string :=
  string_of_bytes (hdr_DataID (ph_Header ph)).

(** The candidate is for the current round: header height and round match,
    the data identifier parses to [p], and the height and round inside the
    identifier match as well. *)
Definition in_round c ph (p : ParsedDataID) : Prop :=
  hdr_Height (ph_Header ph) = curH c /\
  ph_Round ph = curR c /\
  ParseDataID (data_id ph) = Some p /\
  pid_height p = curH c /\
  pid_round p = curR c.

(** One speculative execution: against the latest committed state when
    there is no previous step, else against the state that step returned. *)
Definition sim_at a (prev : option SimState) (tx : Tx)
    : TxResult * SimState * option error :=
  match prev with
  | None => Simulate a tx
  | Some s => SimulateWithState a s tx
  end.

Definition sim_event (prev : option SimState) (tx : Tx)
    : @Event Tx SimState :=
  match prev with
  | None => EvSimulate tx
  | Some s => EvSimulateWithState s tx
  end.

(** Every transaction of the batch can be evaluated and is valid, each one
    run on the state its predecessor left. *)
Fixpoint chain_ok a (prev : option SimState) (txs : list Tx) : bool :=
  match txs with
  | [] => true
  | tx :: txs' =>
      let '(res, s, err) := sim_at a prev tx in
      match err, tr_Error res with
      | None, None => chain_ok a (Some s) txs'
      | _, _ => false
      end
  end.

(** The executions a chained simulation asks for, up to and including the
    first one that fails. *)
Fixpoint chain_calls a (prev : option SimState) (txs : list Tx)
    : list (@Event Tx SimState) :=
  match txs with
  | [] => []
  | tx :: txs' =>
      sim_event prev tx ::
      (let '(res, s, err) := sim_at a prev tx in
       match err, tr_Error res with
       | None, None => chain_calls a (Some s) txs'
       | _, _ => []
       end)
  end.

Definition is_log (e : @Event Tx SimState) : Prop :=
  exists lvl msg, e = EvLog lvl msg.

(** The data of the candidate is cached, ready, and simulates. *)
Definition data_valid c ph : Prop :=
  exists bdr, Get (bdrCache c) (data_id ph) = Some bdr /\
    Ready bdr = true /\
    Transactions bdr <> [] /\
    chain_ok (am c) None (Transactions bdr) = true.

(** The claimed proposal time of the candidate, when its annotation decodes
    and the time in it parses. *)
Definition claimed_time ph : option Z :=
  match json_Unmarshal_BlockAnnotation
          (Driver (hdr_Annotations (ph_Header ph))) with
  | Some ba => BlockAnnotation_Time ba
  | None => None
  end.

(** The candidate passes every check of the consideration hook. *)
Definition passes_every_check c w ph : Prop :=
  exists p, in_round c ph p /\
    (pid_nTxs p <> 0 -> data_valid c ph) /\
    exists bt, claimed_time ph = Some bt /\ bt <= time_Now (ticks w).

(** The state a chained simulation has reached after the batch [txs]. *)
Fixpoint chain_state a (prev : option SimState) (txs : list Tx)
    : option SimState :=
  match txs with
  | [] => prev
  | tx :: txs' =>
      let '(_, s, _) := sim_at a prev tx in chain_state a (Some s) txs'
  end.

(** A speculative execution fails: the state cannot be accessed (the
    returned error) or the transaction is invalid (the result's error). *)
Definition step_fails a (prev : option SimState) (tx : Tx) : Prop :=
  let '(res, _, err) := sim_at a prev tx in
  err <> None \/ tr_Error res <> None.

(** Whether the engine takes the proposal before the context is
    cancelled. *)
Definition handoff_accepted (ctx : Context) : bool :=
  match ctx_Cause ctx with
  | None => true
  | Some _ => false
  end.

(** The strategy once round entry has recorded the round context. *)
Definition entered (rv : @RoundView K) c : @ConsensusStrategy K Tx SimState :=
  set_curR (rv_Round rv) (set_curH (rv_Height rv) c).

(** The round view already holds a proposed header by the key [k]. *)
Definition already_proposed (rv : @RoundView K) (k : option K) : Prop :=
  exists ph, ph ∈ rv_ProposedHeaders rv /\ ph_ProposerPubKey ph = k.

(** Every ready record of the cache holds at least one transaction: what
    the source relies on when it reads the first transaction of a ready
    record. *)
Definition cache_wf (rc : @RequestCache Tx) : Prop :=
  forall id bdr, Get rc id = Some bdr -> Ready bdr = true ->
    Transactions bdr <> [].

(** The retriever keeps the cache well formed. *)
Definition retriever_wf (r : @PBDRetriever Tx) : Prop :=
  forall rc id metadata,
    cache_wf rc -> cache_wf (snd (Retrieve r rc id metadata)).

(** The rest of a turn of the loop once the candidate is known to be for the
    current round. *)
Definition after_round_checks ph (p : ParsedDataID) : @M K Tx SimState Verdict :=
  ok ← (if negb (pid_nTxs p =? 0) then check_block_data ph else mret true);
  if (ok : bool) then check_annotation ph else mret Continue.

End Specification.

(** ** A two-validator network to run the hooks on *)

Module Scenario.

(** Keys in the manner of the engine's ed25519 keys: [Equal] compares the
    key bytes and is false for nil. *)
#[global] Instance string_PubKey : PubKeyIface string := {
  pk_Equal k other :=
    match other with
    | Some k' => String.eqb k k'
    | None => false
    end
}.

(** Transactions are amounts; the simulated state is a balance. *)
Definition Tx : Type := Z.
Definition SimState : Type := Z.

(** A transaction of 13 cannot be evaluated (the store fails); one that
    overdraws the balance is invalid. *)
Definition step (balance : Z) (tx : Z) : TxResult * SimState * option error :=
  if tx =? 13 then (mkTxResult None, balance, Some "store unavailable")
  else if balance + tx <? 0 then
    (mkTxResult (Some "insufficient funds"), balance, None)
  else (mkTxResult None, balance + tx, None).

Definition committed : Z := 100.

Definition app : @AppManager Tx SimState :=
  mkAppManager (step committed) step.

(** A stand-in for the content hash of a batch: 64 digits computed from
    the amounts. *)
Definition txsHash (txs : list Tx) : string :=
  let d := gsbd.dec (fold_left (fun acc tx => acc * 1009 + Z.abs tx + 1)
                       txs 7) in
  String.concat "" (replicate (64 - String.length d) "0"%string) +:+ d.

Definition dq : string := String (ascii_of_nat 34) EmptyString.
Definition ba_open : string := "{" +:+ dq +:+ "Time" +:+ dq +:+ ":" +:+ dq.
Definition ba_close : string := dq +:+ "}".

Definition marshal_ba (ba : BlockAnnotation) : bytes * option error :=
  (list_byte_of_string (ba_open +:+ TimeS ba +:+ ba_close), None).

Definition unmarshal_ba (b : bytes) : option BlockAnnotation :=
  let s := string_of_bytes b in
  let n := String.length s in
  let no := String.length ba_open in
  let nc := String.length ba_close in
  if (no + nc <=? n)%nat
     && String.eqb (substring 0 no s) ba_open
     && String.eqb (substring (n - nc) nc s) ba_close
  then Some (mkBlockAnnotation (substring no (n - no - nc) s))
  else None.

Definition marshal_pda (pda : ProposalDriverAnnotation)
    : bytes * option error :=
  (list_byte_of_string (String.concat "," (Locations pda)), None).

(** The clock starts at 1000 and advances by one at each reading; a time
    is written as its decimal number. *)
#[global] Instance imports : Imports Tx := {
  ParseDataID := gsbd.ParseDataID;
  DataID := gsbd.DataID txsHash;
  json_Marshal_BlockAnnotation := marshal_ba;
  json_Unmarshal_BlockAnnotation := unmarshal_ba;
  json_Marshal_ProposalDriverAnnotation := marshal_pda;
  time_Now k := 1000 + Z.of_nat k;
  time_Format_RFC3339 := gsbd.dec;
  time_Parse_RFC3339 := gsbd.parse_dec uint64_max
}.

Definition valA : Validator string := mkValidator "A" 60.
Definition valB : Validator string := mkValidator "B" 40.
Definition valC : Validator string := mkValidator "C" 20.
Definition vals : ValidatorSet string := mkValidatorSet [valA; valB].
Definition vals3 : ValidatorSet string := mkValidatorSet [valA; valB; valC].

(** The dissemination collaborator: one address, the amounts as bytes. *)
Definition provide (h r : Z) (txs : list Tx) : ProvideResult * option error :=
  (mkProvideResult (gsbd.DataID txsHash h r 8 txs) 8
     ["/ip4/10.0.0.1"] (list_byte_of_string "encoded"), None).

(** The retriever registers an in-flight request; it refuses empty
    metadata. *)
Definition retrieve (rc : @RequestCache Tx) (id : string) (metadata : bytes)
    : option error * @RequestCache Tx :=
  match metadata with
  | [] => (Some "no locations", rc)
  | _ => (None, <[id := mkBlockDataRequest false [] []]> rc)
  end.

Definition strategy (signer : option string) (pending : list Tx)
    (rc : @RequestCache Tx) : @ConsensusStrategy string Tx SimState :=
  mkConsensusStrategy app (mkSDKTxBuf pending) signer (mkProvider provide)
    0 0 (mkPBDRetriever retrieve) rc DefaultProposerSelection.

Definition w0 : @World Tx SimState := mkWorld 0 [].

Definition ctx0 : Context := mkContext None.

Definition rv10 : @RoundView string := mkRoundView 10 0 vals [].

Definition reason0 : ConsiderProposedBlocksReason :=
  mkConsiderProposedBlocksReason [] [] false.

(** A header proposed at height 10, round 0, for the batch [txs], claiming
    the time [t]. *)
Definition header_for (hash : string) (txs : list Tx) (t : Z)
    : @ProposedHeader string :=
  mkProposedHeader
    (mkHeader 10 (list_byte_of_string
                    (gsbd.DataID txsHash 10 0 8 txs))
       (list_byte_of_string hash)
       (mkAnnotations [] (fst (marshal_ba (mkBlockAnnotation (gsbd.dec t))))))
    0 (Some "A") (mkAnnotations [] (list_byte_of_string "/ip4/10.0.0.1")).

(** The strategy of validator B in round (10, 0). *)
Definition strategyB (rc : @RequestCache Tx)
    : @ConsensusStrategy string Tx SimState :=
  set_curH 10 (strategy (Some "B") [] rc).

Definition ready (txs : list Tx) : @BlockDataRequest Tx :=
  mkBlockDataRequest true txs (list_byte_of_string "encoded").

Definition id_of (txs : list Tx) : string :=
  gsbd.DataID txsHash 10 0 8 txs.

(** The value and the final trace of a run. *)
Definition outcome {A} (r : Res (A * @ConsensusStrategy string Tx SimState
                                 * @World Tx SimState))
    : Res (A * list (@Event Tx SimState)) :=
  match r with
  | Ret (a, _, w) => Ret (a, trace w)
  | Panic m => Panic m
  end.

End Scenario.

(** ** Construction of the strategy *)

Section Construction.
Context {K : Type} `{PubKeyIface K}.
Context {Tx SimState : Type} `{Imports Tx}.

(** [ConsensusStrategyConfig]; a nil [ProposerSelection] is [None]. *)
Record ConsensusStrategyConfig : Type := mkConsensusStrategyConfig {
  cfg_ProposerSelection : option (ProposerSelectionFunc K);
  cfg_AppManager : @AppManager Tx SimState;
  cfg_TxBuf : @SDKTxBuf Tx;
  cfg_SignerPubKey : option K;
  cfg_BlockDataProvider : @Provider Tx;
  cfg_ProposedBlockDataRetriever : @PBDRetriever Tx;
  cfg_BlockDataRequestCache : @RequestCache Tx
}.

(** [NewConsensusStrategy]: the round context starts at the zero values. *)
Definition NewConsensusStrategy (cfg : ConsensusStrategyConfig)
    : @ConsensusStrategy K Tx SimState :=
  let cs :=
    mkConsensusStrategy (cfg_AppManager cfg) (cfg_TxBuf cfg)
      (cfg_SignerPubKey cfg) (cfg_BlockDataProvider cfg) 0 0
      (cfg_ProposedBlockDataRetriever cfg) (cfg_BlockDataRequestCache cfg) in
  match cfg_ProposerSelection cfg with
  | None => cs DefaultProposerSelection
  | Some f => cs f
  end.

(** A call to the retriever, and a speculative execution. *)
Definition is_retrieve (e : @Event Tx SimState) : Prop :=
  exists id metadata, e = EvRetrieve id metadata.

Definition is_simulation (e : @Event Tx SimState) : Prop :=
  (exists tx, e = EvSimulate tx) \/
  (exists s tx, e = EvSimulateWithState s tx).

(** The candidate makes the hook call the retriever: it is for the current
    round, has transactions, and its identifier is not in the cache. *)
Definition needs_retrieval (c : @ConsensusStrategy K Tx SimState)
    (ph : @ProposedHeader K) : Prop :=
  exists p, in_round c ph p /\ pid_nTxs p <> 0 /\
            Get (bdrCache c) (data_id ph) = None.

End Construction.

(** The prevote power recorded over all hashes of a vote summary. *)
Definition total_power (m : gmap string Z) : Z :=
  map_fold (fun _ v acc => v + acc) 0 m.

(** ** ggrpc: the SDK-facing methods of the gRPC server *)

Module ggrpc.

(** [event.Attribute] and [event.Event] of the SDK; [Attributes] is a
    function of no argument there, given here by what it returns. *)
Record event_Attribute : Type := mk_event_Attribute {
  ea_Key : string;
  ea_Value : string
}.

Record event_Event : Type := mk_event_Event {
  ee_Type : string;
  ee_Attributes : list event_Attribute * option error
}.

(** [coreserver.TxResult], the fields the server reads. *)
Record TxResult : Type := mkTxResult {
  res_Events : list event_Event;
  res_GasWanted : Z;
  res_GasUsed : Z;
  res_Error : option error
}.

(** The messages of the gRPC service. *)
Record Attribute : Type := mkAttribute {
  Key : string;
  Value : string
}.

Record Event : Type := mkEvent {
  Type_ : string;
  Attributes : list Attribute
}.

Record TxResultResponse : Type := mkTxResultResponse {
  Events : list Event;
  Error : string;
  GasWanted : Z;
  GasUsed : Z
}.

Record QueryAccountBalanceRequest : Type := mkQueryAccountBalanceRequest {
  Address : string;
  Denom : string
}.

Record SDKQueryTxResponse : Type := mkSDKQueryTxResponse {
  qt_TxHash : bytes;
  qt_Height : Z;
  qt_Result : TxResultResponse;
  qt_TxBytes : bytes
}.

(** [convertEvent]: the first event whose attributes cannot be read ends the
    conversion with its error. *)
Fixpoint convertEvent (e : list event_Event) : list Event * option error :=
  match e with
  | [] => ([], None)
  | ev :: e' =>
      let '(evAttrs, err) := ee_Attributes ev in
      match err with
      | Some x => ([], Some x)
      | None =>
          let attr := map (fun a => mkAttribute (ea_Key a) (ea_Value a))
                        evAttrs in
          match convertEvent e' with
          | (_, Some x) => ([], Some x)
          | (events, None) => (mkEvent (ee_Type ev) attr :: events, None)
          end
      end
  end.

(** [getGordianResponseFromSDKResult]. *)
Definition getGordianResponseFromSDKResult (res : TxResult)
    : TxResultResponse :=
  let '(events, err) := convertEvent (res_Events res) in
  match err with
  | Some x =>
      mkTxResultResponse [] ("failed to extract result events: " +:+ x) 0 0
  | None =>
      mkTxResultResponse events
        (match res_Error res with
         | Some x => x
         | None => ""%string
         end)
        (res_GasWanted res) (res_GasUsed res)
  end.

Section Server.
Context {Tx SimState Msg BalanceResponse : Type}.

(** What the methods call on the collaborators of the server, in order. *)
Inductive Call : Type :=
| CallValidateTx (tx : Tx)
| CallSimulate (tx : Tx)
| CallAddTx (tx : Tx)
| CallBuffered
| CallQuery (version : Z) (address denom : string)
| CallLoadTxByHash (hash : bytes)
| LogWarn (msg : string).

(** The collaborators of [GordianGRPC]: the transaction codec, the app
    manager, the transaction buffer, the codec and the transaction store. A
    decoding gives the value or the error. *)
Record GordianGRPC : Type := mkGordianGRPC {
  txc_DecodeJSON : bytes -> Tx + error;
  am_ValidateTx : Tx -> TxResult * option error;
  am_Simulate : Tx -> TxResult * SimState * option error;
  am_Query : Z -> string -> string -> Msg + error;
  txBuf_AddTx : Tx -> option error;
  txBuf_Buffered : list Tx;
  json_Marshal : Tx -> bytes * option error;
  cdc_MarshalJSON : Msg -> bytes + error;
  cdc_UnmarshalJSON : bytes -> BalanceResponse + error;
  txs_LoadTxByHash : bytes -> Z * bytes * TxResult * option error
}.

Definition errorResponse (msg : string) : TxResultResponse :=
  mkTxResultResponse [] msg 0 0.

(** [SubmitTransaction]: the response, the error, and the calls made. *)
Definition SubmitTransaction (g : GordianGRPC) (req_Tx : bytes)
    : option TxResultResponse * option error * list Call :=
  match txc_DecodeJSON g req_Tx with
  | inr err =>
      (Some (errorResponse
               ("failed to decode transaction json: " +:+ err)), None, [])
  | inl tx =>
      let '(res, err) := am_ValidateTx g tx in
      match err with
      | Some x =>
          (None, Some ("failed to validate transaction: " +:+ x),
           [CallValidateTx tx;
            LogWarn "Error attempting to validate transaction"])
      | None =>
          match res_Error res with
          | Some x =>
              (Some (errorResponse
                       ("failed to validate transaction: " +:+ x)), None,
               [CallValidateTx tx])
          | None =>
              match txBuf_AddTx g tx with
              | Some x =>
                  (None,
                   Some ("failed to add transaction to buffer: " +:+ x),
                   [CallValidateTx tx; CallAddTx tx])
              | None =>
                  (Some (getGordianResponseFromSDKResult res), None,
                   [CallValidateTx tx; CallAddTx tx])
              end
          end
      end
  end.

(** [SimulateTransaction]. *)
Definition SimulateTransaction (g : GordianGRPC) (req_Tx : bytes)
    : option TxResultResponse * option error * list Call :=
  match txc_DecodeJSON g req_Tx with
  | inr err =>
      (Some (errorResponse
               ("failed to decode transaction json: " +:+ err)), None, [])
  | inl tx =>
      let '(res, _, err) := am_Simulate g tx in
      match err with
      | Some x =>
          (None, Some ("failed to simulate transaction: " +:+ x),
           [CallSimulate tx;
            LogWarn "Error attempting to simulate transaction"])
      | None =>
          match res_Error res with
          | Some x =>
              (Some (errorResponse
                       ("failed to simulate transaction: " +:+ x)), None,
               [CallSimulate tx])
          | None =>
              (Some (getGordianResponseFromSDKResult res), None,
               [CallSimulate tx])
          end
      end
  end.

(** The loop of [PendingTransactions] over the buffered transactions. *)
Fixpoint encode_txs (g : GordianGRPC) (txs : list Tx)
    : list bytes * option error :=
  match txs with
  | [] => ([], None)
  | tx :: txs' =>
      let '(b, err) := json_Marshal g tx in
      match err with
      | Some x => ([], Some ("failed to encode transaction: " +:+ x))
      | None =>
          match encode_txs g txs' with
          | (_, Some x) => ([], Some x)
          | (encodedTxs, None) => (b :: encodedTxs, None)
          end
      end
  end.

(** [PendingTransactions]: the [Txs] of the response, or the error. *)
Definition PendingTransactions (g : GordianGRPC)
    : option (list bytes) * option error * list Call :=
  match encode_txs g (txBuf_Buffered g) with
  | (_, Some x) => (None, Some x, [CallBuffered])
  | (encodedTxs, None) => (Some encodedTxs, None, [CallBuffered])
  end.

(** [QueryAccountBalance]. *)
Definition QueryAccountBalance (g : GordianGRPC)
    (req : QueryAccountBalanceRequest)
    : option BalanceResponse * option error * list Call :=
  if String.eqb (Address req) "" then
    (None, Some "address field is required"%string, [])
  else
    let denom := if String.eqb (Denom req) "" then "stake"%string
                 else Denom req in
    let calls := [CallQuery 0 (Address req) denom] in
    match am_Query g 0 (Address req) denom with
    | inr x =>
        (None, Some ("failed to query account balance: " +:+ x), calls)
    | inl msg =>
        match cdc_MarshalJSON g msg with
        | inr x => (None, Some ("failed to encode response: " +:+ x), calls)
        | inl b =>
            match cdc_UnmarshalJSON g b with
            | inr x =>
                (None, Some ("failed to decode response: " +:+ x), calls)
            | inl val => (Some val, None, calls)
            end
        end
    end.

(** [QueryTx]: a failed load panics; the uint64 height is converted to
    int64. *)
Definition QueryTx (g : GordianGRPC) (req_TxHash : bytes)
    : Res (SDKQueryTxResponse * option error) :=
  let '(height, txBytes, txResult, err) := txs_LoadTxByHash g req_TxHash in
  match err with
  | Some x => Panic x
  | None =>
      Ret (mkSDKQueryTxResponse req_TxHash (wrap_int height)
             (getGordianResponseFromSDKResult txResult) txBytes, None)
  end.

End Server.
End ggrpc.

(** ** gserver: the seed addresses of the server component *)

Module gserver.

(** The newline that separates seed addresses. *)
Definition nl : ascii := ascii_of_nat 10.

(** [strings.Split] for a separator of one character. *)
Fixpoint Split (sep : ascii) (s : string) : list string :=
  match s with
  | EmptyString => [EmptyString]
  | String a s' =>
      if Ascii.eqb a sep then EmptyString :: Split sep s'
      else match Split sep s' with
           | x :: xs => String a x :: xs
           | [] => [String a EmptyString]
           end
  end.

(** [strings.Join]. *)
Definition Join (elems : list string) (sep : string) : string :=
  String.concat sep elems.

(** What the seed command writes to its output file for the addresses of
    its host: the addresses joined by newlines, with a trailing newline. *)
Definition joinedAddrs (hostAddrs : list string) : string :=
  Join hostAddrs (String nl EmptyString) +:+ String nl EmptyString.

Section Seeds.
Context {AddrInfo : Type}.

(** What the loop over the seed addresses in [Start] does. *)
Inductive SeedEvent : Type :=
| WarnParse (addr : string)
| Connect (ai : AddrInfo)
| WarnConnect (addr : string).

(** The body of the loop over [strings.Split(c.seedAddrs, newline)] in
    [Start]: an empty entry is skipped, an entry that does not parse or a
    peer that cannot be reached is logged, and the loop goes on.
    [AddrInfoFromString] and [Connect] are the host's. *)
Fixpoint connect_seeds (AddrInfoFromString : string -> AddrInfo + error)
    (connect : AddrInfo -> option error) (addrs : list string)
    : list SeedEvent :=
  match addrs with
  | [] => []
  | seedAddr :: rest =>
      if String.eqb seedAddr "" then
        connect_seeds AddrInfoFromString connect rest
      else
        match AddrInfoFromString seedAddr with
        | inr _ =>
            WarnParse seedAddr
              :: connect_seeds AddrInfoFromString connect rest
        | inl ai =>
            match connect ai with
            | Some _ =>
                Connect ai :: WarnConnect seedAddr
                  :: connect_seeds AddrInfoFromString connect rest
            | None =>
                Connect ai :: connect_seeds AddrInfoFromString connect rest
            end
        end
  end.

Definition Start_seed_loop (AddrInfoFromString : string -> AddrInfo + error)
    (connect : AddrInfo -> option error) (seedAddrs : string)
    : list SeedEvent :=
  connect_seeds AddrInfoFromString connect (Split nl seedAddrs).

End Seeds.

(** No newline occurs in the address. *)
Fixpoint no_newline (s : string) : bool :=
  match s with
  | EmptyString => true
  | String a s' => negb (Ascii.eqb a nl) && no_newline s'
  end.

End gserver.

(** ** A server to run the gRPC methods on *)

Module GrpcScenario.

(** Transactions are amounts written in decimal; 13 makes the store fail,
    amounts above 1000 are rejected, and the buffer refuses 7. *)
Definition decode (b : bytes) : Z + error :=
  match gsbd.parse_dec uint64_max (string_of_bytes b) with
  | Some z => inl z
  | None => inr "invalid character"%string
  end.

Definition events_of (tx : Z) : list ggrpc.event_Event :=
  [ggrpc.mk_event_Event "transfer"
     ([ggrpc.mk_event_Attribute "amount" (gsbd.dec tx)], None)].

Definition run (tx : Z) : ggrpc.TxResult * option error :=
  if tx =? 13 then
    (ggrpc.mkTxResult [] 0 0 None, Some "store unavailable"%string)
  else if tx >? 1000 then
    (ggrpc.mkTxResult [] 50 20 (Some "insufficient funds"%string), None)
  else (ggrpc.mkTxResult (events_of tx) 50 40 None, None).

Definition server (buffered : list Z)
    : @ggrpc.GordianGRPC Z Z string string :=
  ggrpc.mkGordianGRPC decode run
    (fun tx => (fst (run tx), tx, snd (run tx)))
    (fun _ address denom =>
       if String.eqb denom "stake" then inl ("100" +:+ denom)
       else inr "unknown denom"%string)
    (fun tx => if tx =? 7 then Some "buffer full"%string else None)
    buffered
    (fun tx => (list_byte_of_string (gsbd.dec tx), None))
    (fun msg => inl (list_byte_of_string msg))
    (fun b => inl (string_of_bytes b))
    (fun hash =>
       (12, hash, ggrpc.mkTxResult (events_of 5) 50 40 None, None)).

End GrpcScenario.

(** * Properties *)

(** Boolean comparisons of the code, turned into the propositions [lia]
    reads. *)
Ltac zbool :=
  repeat match goal with
  | H : (_ =? _) = true |- _ => apply Z.eqb_eq in H
  | H : (_ =? _) = false |- _ => apply Z.eqb_neq in H
  | H : (_ <? _) = true |- _ => apply Z.ltb_lt in H
  | H : (_ <? _) = false |- _ => apply Z.ltb_ge in H
  | H : (_ >=? _) = true |- _ => apply Z.geb_le in H
  | H : (_ >=? _) = false |- _ =>
      rewrite Z.geb_leb in H; apply Z.leb_gt in H
  | H : (_ >? _) = true |- _ => apply Z.gtb_lt in H
  | H : (_ >? _) = false |- _ =>
      rewrite Z.gtb_ltb in H; apply Z.ltb_ge in H
  end.

(** ** Machine integers and proposer selection *)

Lemma wrap_int_small (z : Z) : - 2 ^ 63 <= z < 2 ^ 63 -> wrap_int z = z.
Proof.
  intros Hz. unfold wrap_int.
  rewrite Z.mod_small by lia. lia.
Qed.

Lemma go_index_lookup {A} (l : list A) (i : Z) (a : A) :
  0 <= i -> l !! Z.to_nat i = Some a -> go_index l i = Ret a.
Proof.
  intros Hi Hl. unfold go_index.
  destruct (i <? 0) eqn:E; [zbool; lia|]. by rewrite Hl.
Qed.

(** While height plus round stays below 2^63 the selection is the round
    robin (height + round) mod N over a non-empty validator set. *)
Lemma DefaultProposerSelection_in_range {K} (h r : Z)
    (valSet : ValidatorSet K) :
  is_uint64 h -> is_uint32 r -> h + r < 2 ^ 63 ->
  Validators valSet <> [] ->
  let N := Z.of_nat (length (Validators valSet)) in
  0 <= (h + r) mod N < N /\
  exists v, DefaultProposerSelection h r valSet = Ret v /\
            Validators valSet !! Z.to_nat ((h + r) mod N) = Some v.
Proof.
  intros Hh Hr Hsum Hne N.
  unfold is_uint64, is_uint32, uint64_max, uint32_max in Hh, Hr.
  assert (HN : 0 < N).
  { subst N. destruct (Validators valSet); [done|]. simpl length. lia. }
  pose proof (Z.mod_pos_bound (h + r) N HN) as Hb.
  split; [exact Hb|].
  destruct (lookup_lt_is_Some_2 (Validators valSet)
              (Z.to_nat ((h + r) mod N))) as [v Hv]; [subst N; lia|].
  exists v. split; [|exact Hv].
  unfold DefaultProposerSelection, go_rem. fold N.
  destruct (N =? 0) eqn:E; [zbool; lia|].
  rewrite (wrap_int_small h), (wrap_int_small r) by lia.
  rewrite wrap_int_small by lia.
  rewrite Z.rem_mod_nonneg by lia.
  by apply go_index_lookup; [lia|].
Qed.

(** C5. The default proposer selection converts the height to a signed
    integer before taking the remainder: at height 2^63, round 0 and three
    validators the index is negative and the selection panics, where round
    robin would pick index (2^63 + 0) mod 3 = 2. *)
Theorem C5_DefaultProposerSelection_panics_at_high_height :
  DefaultProposerSelection (2 ^ 63) 0 Scenario.vals3
    = Panic "runtime error: index out of range"
  /\ is_uint64 (2 ^ 63) /\ is_uint32 0
  /\ wrap_int (2 ^ 63) = - 2 ^ 63
  /\ Z.rem (- 2 ^ 63) 3 = - 2
  /\ (2 ^ 63 + 0) mod 3 = 2.
Proof.
  unfold is_uint64, is_uint32, uint64_max, uint32_max.
  repeat split; try (vm_compute; congruence).
Qed.

(** ** Precommit decision *)

Lemma ByzantineMajority_spec (n p : Z) :
  ByzantineMajority n <= p <-> 2 * n < 3 * p.
Proof.
  unfold ByzantineMajority.
  pose proof (Z.div_mod (2 * n) 3 ltac:(lia)) as Hd.
  pose proof (Z.mod_pos_bound (2 * n) 3 ltac:(lia)) as Hm.
  lia.
Qed.

Lemma ByzantineMajority_uint64 (n : Z) :
  is_uint64 n -> is_uint64 (ByzantineMajority n).
Proof.
  unfold is_uint64, uint64_max, ByzantineMajority. intros Hn.
  pose proof (Z.div_mod (2 * n) 3 ltac:(lia)) as Hd.
  pose proof (Z.mod_pos_bound (2 * n) 3 ltac:(lia)) as Hm.
  lia.
Qed.

(** C1. DecidePrecommit returns the most-prevoted hash when the power
    recorded for it reaches the Byzantine majority of the available power,
    that is, when it is strictly more than two-thirds of it, and the empty
    value otherwise; for a non-empty hash the hash is returned exactly in
    that case. With available power 100, a candidate with power 67 is
    precommitted and one with 66 gives the nil precommit. *)
Theorem C1_DecidePrecommit_threshold (vs : VoteSummary) :
  let pow := map_get (PrevoteBlockPower vs) (MostVotedPrevoteHash vs) in
  let maj := ByzantineMajority (AvailablePower vs) in
  (maj <= pow <-> 2 * AvailablePower vs < 3 * pow) /\
  (maj <= pow -> DecidePrecommit vs = (MostVotedPrevoteHash vs, None)) /\
  (pow < maj -> DecidePrecommit vs = (""%string, None)) /\
  (MostVotedPrevoteHash vs <> ""%string ->
   (fst (DecidePrecommit vs) = MostVotedPrevoteHash vs <-> maj <= pow)) /\
  (forall h : string,
     DecidePrecommit (mkVoteSummary 100 {[h := 67]} h) = (h, None) /\
     DecidePrecommit (mkVoteSummary 100 {[h := 66]} h) = (""%string, None)).
Proof.
  intros pow maj.
  split; [apply ByzantineMajority_spec|].
  unfold DecidePrecommit. fold pow maj.
  repeat split.
  - intros Hle. destruct (pow >=? maj) eqn:E; [done|zbool; lia].
  - intros Hlt. destruct (pow >=? maj) eqn:E; [zbool; lia|done].
  - destruct (pow >=? maj) eqn:E; simpl; [zbool; lia|].
    intros Heq. by symmetry in Heq.
  - intros Hle. destruct (pow >=? maj) eqn:E; [done|zbool; lia].
  - unfold map_get. simpl. by rewrite lookup_singleton_eq.
  - unfold map_get. simpl. by rewrite lookup_singleton_eq.
Qed.

Lemma C1_DecidePrecommit_threshold_witness :
  DecidePrecommit (mkVoteSummary 100 {["b10c" := 67]} "b10c")
    = ("b10c"%string, None) /\
  DecidePrecommit (mkVoteSummary 100 {["b10c" := 66]} "b10c")
    = (""%string, None).
Proof.
  split.
  - apply (proj1 (proj2 (C1_DecidePrecommit_threshold
             (mkVoteSummary 100 {["b10c" := 67]} "b10c")))).
    vm_compute. congruence.
  - apply (proj1 (proj2 (proj2 (C1_DecidePrecommit_threshold
             (mkVoteSummary 100 {["b10c" := 66]} "b10c"))))).
    vm_compute. reflexivity.
Defined.

(** ** The consensus strategy *)

(** Unfolds the plumbing of [M]. *)
Ltac mrun :=
  unfold mbind, M_bind, mret, M_ret, self, update, log, emit, now, panic,
    call; simpl.

Section StrategyProperties.
Context {K : Type} `{PubKeyIface K}.
Context {Tx SimState : Type} `{Imports Tx}.
Implicit Types (c : @ConsensusStrategy K Tx SimState).
Implicit Types (w : @World Tx SimState) (ph : @ProposedHeader K).
Implicit Types (txs : list Tx) (s : SimState).

Lemma world_eta w : mkWorld (ticks w) (trace w) = w.
Proof. by destruct w. Qed.

Lemma set_bdrCache_id c : set_bdrCache (bdrCache c) c = c.
Proof. by destruct c. Qed.

(** *** Chained simulation *)

(** What a chained simulation leaves in the trace: its calls, and one log
    line when it stopped at a failure. *)
Lemma simulate_rest_spec txs s c w :
  exists lvl msg,
    simulate_rest txs s c w
      = Ret (chain_ok (am c) (Some s) txs, c,
             mkWorld (ticks w)
               (trace w ++ chain_calls (am c) (Some s) txs
                  ++ (if chain_ok (am c) (Some s) txs then []
                      else [EvLog lvl msg]))).
Proof.
  revert s w. induction txs as [|tx txs IH]; intros s w.
  - exists Debug, ""%string. simpl. mrun. by rewrite app_nil_r, world_eta.
  - simpl. mrun.
    destruct (SimulateWithState (am c) s tx) as [[txRes s'] err] eqn:E.
    destruct err as [e|].
    + eexists _, _. mrun. by rewrite <- app_assoc.
    + destruct (tr_Error txRes) as [e|].
      * eexists _, _. mrun. by rewrite <- app_assoc.
      * destruct (IH s' (mkWorld (ticks w)
                           (trace w ++ [EvSimulateWithState s tx])))
          as (lvl & msg & Hrun).
        exists lvl, msg. rewrite Hrun. simpl.
        by rewrite <- !app_assoc.
Qed.

(** *** The data check of a candidate with transactions *)

Lemma check_block_data_absent ph c w :
  Get (bdrCache c) (data_id ph) = None ->
  let r := Retrieve (pbdr c) (bdrCache c) (data_id ph)
             (Driver (ph_Annotations ph)) in
  exists logs,
    check_block_data ph c w
      = Ret (false, set_bdrCache (snd r) c,
             mkWorld (ticks w)
               (trace w ++ EvRetrieve (data_id ph)
                             (Driver (ph_Annotations ph)) :: logs)) /\
    logs = match fst r with
           | Some _ =>
               [EvLog Warn "Failed to initiate retrieval of proposed data"]
           | None => []
           end.
Proof.
  intros Hget r. unfold check_block_data. mrun.
  fold (data_id ph). rewrite Hget. subst r.
  destruct (Retrieve _ _ _ _) as [err rc]. simpl.
  destruct err as [e|]; eexists; (split; [|reflexivity]); mrun.
  - by rewrite <- app_assoc.
  - done.
Qed.

Lemma check_block_data_not_ready ph c w bdr :
  Get (bdrCache c) (data_id ph) = Some bdr ->
  Ready bdr = false ->
  check_block_data ph c w = Ret (false, c, w).
Proof.
  intros Hget Hready. unfold check_block_data. mrun.
  fold (data_id ph). by rewrite Hget, Hready.
Qed.

Lemma check_block_data_ready ph c w bdr :
  Get (bdrCache c) (data_id ph) = Some bdr ->
  Ready bdr = true ->
  Transactions bdr <> [] ->
  exists lvl msg,
    check_block_data ph c w
      = Ret (chain_ok (am c) None (Transactions bdr), c,
             mkWorld (ticks w)
               (trace w ++ chain_calls (am c) None (Transactions bdr)
                  ++ (if chain_ok (am c) None (Transactions bdr) then []
                      else [EvLog lvl msg]))).
Proof.
  intros Hget Hready Hne. unfold check_block_data. mrun.
  fold (data_id ph). rewrite Hget, Hready. simpl.
  destruct (Transactions bdr) as [|tx0 txs]; [done|]. simpl.
  destruct (Simulate (am c) tx0) as [[txRes s] err] eqn:E.
  destruct err as [e|].
  - eexists _, _. mrun. by rewrite <- app_assoc.
  - destruct (tr_Error txRes) as [e|].
    + eexists _, _. mrun. by rewrite <- app_assoc.
    + destruct (simulate_rest_spec txs s c
                  (mkWorld (ticks w) (trace w ++ [EvSimulate tx0])))
        as (lvl & msg & Hrun).
      exists lvl, msg. rewrite Hrun. simpl. by rewrite <- !app_assoc.
Qed.

Lemma check_block_data_empty_batch ph c w bdr :
  Get (bdrCache c) (data_id ph) = Some bdr ->
  Ready bdr = true ->
  Transactions bdr = [] ->
  exists msg, check_block_data ph c w = Panic msg.
Proof.
  intros Hget Hready Hnil. unfold check_block_data. mrun.
  fold (data_id ph). rewrite Hget, Hready, Hnil. simpl. by eexists.
Qed.

(** *** The annotation check *)

Lemma check_annotation_accept ph c w bt :
  claimed_time ph = Some bt ->
  bt <= time_Now (ticks w) ->
  check_annotation ph c w
    = Ret (Return (string_of_bytes (hdr_Hash (ph_Header ph))), c,
           mkWorld (S (ticks w)) (trace w)).
Proof.
  unfold claimed_time, check_annotation. intros Hct Hle.
  destruct (json_Unmarshal_BlockAnnotation _) as [ba|]; [|done].
  rewrite Hct. mrun.
  destruct (bt >? time_Now (ticks w)) eqn:E; [zbool; lia|done].
Qed.

Lemma check_annotation_future ph c w bt :
  claimed_time ph = Some bt ->
  time_Now (ticks w) < bt ->
  check_annotation ph c w
    = Ret (Continue, c,
           mkWorld (S (ticks w))
             (trace w ++ [EvLog Debug
                "Ignoring proposed block due to block time in the future"])).
Proof.
  unfold claimed_time, check_annotation. intros Hct Hlt.
  destruct (json_Unmarshal_BlockAnnotation _) as [ba|]; [|done].
  rewrite Hct. mrun.
  destruct (bt >? time_Now (ticks w)) eqn:E; [done|zbool; lia].
Qed.

Lemma check_annotation_no_time ph c w :
  claimed_time ph = None ->
  exists msg,
    check_annotation ph c w
      = Ret (Continue, c, mkWorld (ticks w) (trace w ++ [EvLog Debug msg])).
Proof.
  unfold claimed_time, check_annotation. intros Hct.
  destruct (json_Unmarshal_BlockAnnotation _) as [ba|].
  - rewrite Hct. mrun. by eexists.
  - mrun. by eexists.
Qed.

(** The annotation check never touches the strategy, and it accepts only
    with the header hash and a claimed time that is not after the clock
    reading. *)
Lemma check_annotation_inv ph c w v c' w' :
  check_annotation ph c w = Ret (v, c', w') ->
  c' = c /\
  match v with
  | Return hash =>
      hash = string_of_bytes (hdr_Hash (ph_Header ph)) /\
      w' = mkWorld (S (ticks w)) (trace w) /\
      exists bt, claimed_time ph = Some bt /\ bt <= time_Now (ticks w)
  | Continue => True
  end.
Proof.
  destruct (claimed_time ph) as [bt|] eqn:Hct.
  - destruct (Z.le_gt_cases bt (time_Now (ticks w))) as [Hle|Hgt].
    + rewrite (check_annotation_accept ph c w bt Hct Hle).
      intros [= <- <- <-]. eauto 10.
    + rewrite (check_annotation_future ph c w bt Hct Hgt).
      by intros [= <- <- <-].
  - destruct (check_annotation_no_time ph c w Hct) as [msg ->].
    by intros [= <- <- <-].
Qed.

(** *** One turn of the loop *)

Lemma PH_LOOP_body_in_round ph c w p :
  in_round c ph p ->
  PH_LOOP_body ph c w = after_round_checks ph p c w.
Proof.
  intros (Hh & Hr & Hp & Hph & Hpr).
  unfold PH_LOOP_body, after_round_checks. unfold self at 1, mbind at 1.
  unfold M_bind at 1. fold (data_id ph).
  rewrite Hh, Hr, Hp, Hph, Hpr, !Z.eqb_refl. done.
Qed.

Lemma PH_LOOP_body_not_in_round ph c w :
  (forall p, ~ in_round c ph p) ->
  exists msg,
    PH_LOOP_body ph c w
      = Ret (Continue, c, mkWorld (ticks w) (trace w ++ [EvLog Debug msg])).
Proof.
  intros Hno. unfold PH_LOOP_body. unfold self at 1, mbind at 1.
  unfold M_bind at 1. fold (data_id ph).
  destruct (hdr_Height (ph_Header ph) =? curH c) eqn:E1; simpl;
    [|mrun; by eexists].
  destruct (ph_Round ph =? curR c) eqn:E2; simpl; [|mrun; by eexists].
  destruct (ParseDataID (data_id ph)) as [p|] eqn:E3; [|mrun; by eexists].
  destruct (pid_height p =? curH c) eqn:E4; simpl; [|mrun; by eexists].
  destruct (pid_round p =? curR c) eqn:E5; simpl; [|mrun; by eexists].
  zbool. by destruct (Hno p).
Qed.

Lemma in_round_dec c ph :
  (exists p, in_round c ph p) \/ (forall p, ~ in_round c ph p).
Proof.
  unfold in_round.
  destruct (ParseDataID (data_id ph)) as [p|] eqn:E3;
    [|right; intros p (_ & _ & ? & _); congruence].
  destruct (decide (hdr_Height (ph_Header ph) = curH c));
    [|right; intros q (? & _); congruence].
  destruct (decide (ph_Round ph = curR c));
    [|right; intros q (_ & ? & _); congruence].
  destruct (decide (pid_height p = curH c));
    [|right; intros q (_ & _ & ? & ? & _); congruence].
  destruct (decide (pid_round p = curR c));
    [|right; intros q (_ & _ & ? & _ & ?); congruence].
  left. by exists p.
Qed.

Lemma in_round_unique c ph p q : in_round c ph p -> in_round c ph q -> p = q.
Proof. intros (_ & _ & Hp & _) (_ & _ & Hq & _). congruence. Qed.

(** A candidate that passes every check is accepted with its header hash;
    the turn reads the clock once and, besides the simulation calls, leaves
    the strategy and the world as they were. *)
Lemma PH_LOOP_body_accepts ph c w :
  passes_every_check c w ph ->
  exists calls,
    PH_LOOP_body ph c w
      = Ret (Return (string_of_bytes (hdr_Hash (ph_Header ph))), c,
             mkWorld (S (ticks w)) (trace w ++ calls)).
Proof.
  intros (p & Hin & Hdata & bt & Hct & Hle).
  rewrite (PH_LOOP_body_in_round ph c w p Hin).
  unfold after_round_checks. unfold mbind at 1, M_bind at 1.
  destruct (pid_nTxs p =? 0) eqn:En; simpl.
  - mrun. exists []. rewrite app_nil_r.
    by apply check_annotation_accept with bt.
  - zbool. destruct (Hdata En) as (bdr & Hget & Hready & Hne & Hok).
    destruct (check_block_data_ready ph c w bdr Hget Hready Hne)
      as (lvl & msg & ->).
    rewrite Hok, app_nil_r.
    exists (chain_calls (am c) None (Transactions bdr)).
    by rewrite (check_annotation_accept ph c _ bt Hct).
Qed.

(** Conversely, a turn that returns a hash was on a candidate that passes
    every check. *)
Lemma PH_LOOP_body_accept_inv ph c w hash c' w' :
  PH_LOOP_body ph c w = Ret (Return hash, c', w') ->
  passes_every_check c w ph /\
  hash = string_of_bytes (hdr_Hash (ph_Header ph)) /\ c' = c.
Proof.
  intros Hrun.
  destruct (in_round_dec c ph) as [[p Hin]|Hno].
  2:{ destruct (PH_LOOP_body_not_in_round ph c w Hno) as [msg Hc].
      congruence. }
  rewrite (PH_LOOP_body_in_round ph c w p Hin) in Hrun.
  unfold after_round_checks in Hrun.
  unfold mbind at 1, M_bind at 1 in Hrun.
  destruct (pid_nTxs p =? 0) eqn:En; simpl in Hrun.
  - unfold mret, M_ret in Hrun.
    apply check_annotation_inv in Hrun as (-> & -> & _ & bt & Hct & Hle).
    split; [|done]. exists p. split; [done|]. split; [zbool; done|].
    by exists bt.
  - destruct (Get (bdrCache c) (data_id ph)) as [bdr|] eqn:Hget.
    2:{ destruct (check_block_data_absent ph c w Hget) as (logs & Hc & _).
        rewrite Hc in Hrun. discriminate. }
    destruct (Ready bdr) eqn:Hready.
    2:{ rewrite (check_block_data_not_ready ph c w bdr Hget Hready) in Hrun.
        discriminate. }
    destruct (decide (Transactions bdr = [])) as [Hnil|Hne].
    { destruct (check_block_data_empty_batch ph c w bdr Hget Hready Hnil)
        as [msg Hc]. rewrite Hc in Hrun. discriminate. }
    destruct (check_block_data_ready ph c w bdr Hget Hready Hne)
      as (lvl & msg & Hc).
    rewrite Hc in Hrun.
    destruct (chain_ok (am c) None (Transactions bdr)) eqn:Hok;
      [|discriminate].
    apply check_annotation_inv in Hrun as (-> & -> & _ & bt & Hct & Hle).
    split; [|done]. exists p. split; [done|].
    split; [intros _; by exists bdr|]. by exists bt.
Qed.

(** A skipped candidate fails some check. *)
Lemma PH_LOOP_body_continue_inv ph c w c' w' :
  PH_LOOP_body ph c w = Ret (Continue, c', w') ->
  ~ passes_every_check c w ph.
Proof.
  intros Hrun Hpass.
  destruct (PH_LOOP_body_accepts ph c w Hpass) as [calls Hacc].
  congruence.
Qed.

(** *** The chain, position by position *)

Lemma chain_ok_app_fail (a : @AppManager Tx SimState) prev pre tx post :
  chain_ok a prev pre = true ->
  step_fails a (chain_state a prev pre) tx ->
  chain_ok a prev (pre ++ tx :: post) = false /\
  chain_calls a prev (pre ++ tx :: post)
    = chain_calls a prev pre ++ [sim_event (chain_state a prev pre) tx].
Proof.
  revert prev. induction pre as [|x pre IH]; intros prev Hok Hfail; simpl in *.
  - unfold step_fails in Hfail.
    destruct (sim_at a prev tx) as [[res s'] err].
    destruct err as [e|]; [done|].
    destruct (tr_Error res) as [e|]; [done|]. by destruct Hfail.
  - destruct (sim_at a prev x) as [[res s'] err].
    destruct err as [e|]; [done|].
    destruct (tr_Error res) as [e|]; [done|].
    destruct (IH (Some s') Hok Hfail) as [-> ->]. done.
Qed.

Lemma chain_ok_no_failure (a : @AppManager Tx SimState) prev txs :
  chain_ok a prev txs = true ->
  forall pre tx post, txs = pre ++ tx :: post ->
    chain_ok a prev pre = true /\ ~ step_fails a (chain_state a prev pre) tx.
Proof.
  intros Hok pre. revert prev txs Hok.
  induction pre as [|x pre IH]; intros prev txs Hok tx post ->; simpl in *.
  - split; [done|]. unfold step_fails.
    destruct (sim_at a prev tx) as [[res s'] err].
    destruct err as [e|]; [done|].
    destruct (tr_Error res) as [e|]; [done|]. by intros [?|?].
  - destruct (sim_at a prev x) as [[res s'] err].
    destruct err as [e|]; [done|].
    destruct (tr_Error res) as [e|]; [done|].
    by apply (IH (Some s') _ Hok tx post).
Qed.

(** The k-th call of the chain runs the k-th transaction on the state the
    steps before it have reached. *)
Lemma chain_calls_lookup (a : @AppManager Tx SimState) prev txs k tx :
  txs !! k = Some tx ->
  chain_ok a prev (take k txs) = true ->
  chain_calls a prev txs !! k
    = Some (sim_event (chain_state a prev (take k txs)) tx).
Proof.
  revert prev k. induction txs as [|x txs IH]; intros prev k Hk Hok;
    [done|].
  destruct k as [|k]; simpl in *.
  - by injection Hk as ->.
  - destruct (sim_at a prev x) as [[res s'] err].
    destruct err as [e|]; [done|].
    destruct (tr_Error res) as [e|]; [done|].
    by apply IH.
Qed.

(** *** The loop *)

Lemma PH_LOOP_continue ph rest c w c1 w1 :
  PH_LOOP_body ph c w = Ret (Continue, c1, w1) ->
  PH_LOOP (ph :: rest) c w = PH_LOOP rest c1 w1.
Proof.
  intros Hb. simpl. unfold mbind at 1, M_bind at 1. by rewrite Hb.
Qed.

Lemma PH_LOOP_return ph rest c w hash c1 w1 :
  PH_LOOP_body ph c w = Ret (Return hash, c1, w1) ->
  PH_LOOP (ph :: rest) c w = Ret ((hash, None), c1, w1).
Proof.
  intros Hb. simpl. unfold mbind at 1, M_bind at 1. by rewrite Hb.
Qed.

Lemma PH_LOOP_skips pre rest c w c1 w1 :
  skips pre c w c1 w1 ->
  PH_LOOP (pre ++ rest) c w = PH_LOOP rest c1 w1.
Proof.
  induction 1 as [|ph phs c w c1 w1 c2 w2 Hb _ IH]; [done|].
  simpl app. by rewrite (PH_LOOP_continue ph _ c w c1 w1 Hb).
Qed.

Lemma PH_LOOP_inv phs c w hash err c2 w2 :
  PH_LOOP phs c w = Ret ((hash, err), c2, w2) ->
  (err = None /\
   exists pre ph post c1 w1,
     phs = pre ++ ph :: post /\ skips pre c w c1 w1 /\
     PH_LOOP_body ph c1 w1 = Ret (Return hash, c2, w2)) \/
  (err = Some ErrProposedBlockChoiceNotReady /\ hash = ""%string /\
   skips phs c w c2 w2).
Proof.
  revert c w. induction phs as [|ph phs IH]; intros c w Hrun.
  - injection Hrun as <- <- <- <-. right. repeat split. constructor.
  - destruct (PH_LOOP_body ph c w) as [[[v c1] w1]|msg] eqn:Hb.
    2:{ simpl in Hrun. unfold mbind at 1, M_bind at 1 in Hrun.
        by rewrite Hb in Hrun. }
    destruct v as [|hash'].
    + rewrite (PH_LOOP_continue ph phs c w c1 w1 Hb) in Hrun.
      destruct (IH c1 w1 Hrun)
        as [(-> & pre & ph' & post & c3 & w3 & -> & Hsk & Hacc)
           |(-> & -> & Hsk)].
      * left. split; [done|].
        exists (ph :: pre), ph', post, c3, w3.
        split; [done|]. split; [|done]. by econstructor.
      * right. repeat split. by econstructor.
    + rewrite (PH_LOOP_return ph phs c w hash' c1 w1 Hb) in Hrun.
      injection Hrun as <- <- <- <-. left. split; [done|].
      exists [], ph, phs, c, w. split; [done|]. split; [constructor|done].
Qed.

(** *** Proposal consideration *)

(** C2. ConsiderProposedBlocks goes through the candidates in list order:
    when the candidates before one are all skipped and that one passes every
    check (header height and round, data identifier and its height and
    round, cached, ready and simulating data when it has transactions, a
    decodable annotation with a parsable time that is not in the future), the
    hook returns that candidate's header hash and no error, whatever comes
    after it; when every candidate is skipped it returns the empty hash with
    the not-ready sentinel; every returned result is one of these two, and a
    skipped candidate is one that fails a check. *)
Theorem C2_first_acceptable_candidate_wins
    (phs : list (@ProposedHeader K)) (reason : ConsiderProposedBlocksReason)
    c w :
  (forall pre ph post c1 w1,
     phs = pre ++ ph :: post ->
     skips pre c w c1 w1 ->
     passes_every_check c1 w1 ph ->
     exists w2,
       ConsiderProposedBlocks phs reason c w
         = Ret ((string_of_bytes (hdr_Hash (ph_Header ph)), None), c1, w2)) /\
  (forall c1 w1,
     skips phs c w c1 w1 ->
     ConsiderProposedBlocks phs reason c w
       = Ret ((""%string, Some ErrProposedBlockChoiceNotReady), c1, w1)) /\
  (forall hash err c2 w2,
     ConsiderProposedBlocks phs reason c w = Ret ((hash, err), c2, w2) ->
     (err = None /\
      exists pre ph post c1 w1,
        phs = pre ++ ph :: post /\ skips pre c w c1 w1 /\
        passes_every_check c1 w1 ph /\
        hash = string_of_bytes (hdr_Hash (ph_Header ph))) \/
     (err = Some ErrProposedBlockChoiceNotReady /\ hash = ""%string /\
      skips phs c w c2 w2)) /\
  (forall pre ph post ca wa cb wb,
     phs = pre ++ ph :: post ->
     skips pre c w ca wa ->
     PH_LOOP_body ph ca wa = Ret (Continue, cb, wb) ->
     ~ passes_every_check ca wa ph).
Proof.
  unfold ConsiderProposedBlocks. repeat split.
  - intros pre ph post c1 w1 -> Hsk Hpass.
    destruct (PH_LOOP_body_accepts ph c1 w1 Hpass) as [calls Hacc].
    rewrite (PH_LOOP_skips pre _ c w c1 w1 Hsk).
    rewrite (PH_LOOP_return ph post c1 w1 _ _ _ Hacc). by eexists.
  - intros c1 w1 Hsk.
    rewrite <- (app_nil_r phs).
    by rewrite (PH_LOOP_skips phs [] c w c1 w1 Hsk).
  - intros hash err c2 w2 Hrun.
    destruct (PH_LOOP_inv phs c w hash err c2 w2 Hrun)
      as [(-> & pre & ph & post & c1 & w1 & -> & Hsk & Hacc)|Hnr];
      [left|by right].
    split; [done|].
    apply PH_LOOP_body_accept_inv in Hacc as (Hpass & -> & ->).
    by exists pre, ph, post, c1, w1.
  - intros pre ph post ca wa cb wb _ _ Hb.
    by apply (PH_LOOP_body_continue_inv ph ca wa cb wb).
Qed.


(** C3. For a candidate of the current round with a non-zero transaction
    count whose data is ready: when the transactions before some position
    all simulate and the one at that position fails, by a state-access
    failure or by being invalid, the calls made are the chained ones up to
    that position and no further, and the whole candidate is skipped.
    ConsiderProposedBlocks on that candidate alone returns the not-ready
    sentinel after exactly those calls, and on a list in which a candidate
    that passes every check follows it (after any skipped candidates before
    it) returns the hash of that later candidate. When every transaction
    simulates and the claimed time is not after the clock reading,
    ConsiderProposedBlocks returns the candidate's hash after the whole
    chain of calls, the first on the committed state and each later one on
    the state its predecessor returned. Conversely a turn, or a call of the
    hook on the candidate alone, that accepts it has had every transaction
    simulated in that way with no failure at any position. *)
Theorem C3_simulation_chain_skips_whole_candidate ph p bdr c w :
  in_round c ph p ->
  pid_nTxs p <> 0 ->
  Get (bdrCache c) (data_id ph) = Some bdr ->
  Ready bdr = true ->
  let a := am c in
  let txs := Transactions bdr in
  (forall pre tx post,
     txs = pre ++ tx :: post ->
     chain_ok a None pre = true ->
     step_fails a (chain_state a None pre) tx ->
     exists lvl msg,
       let w1 := mkWorld (ticks w)
                   (trace w ++ chain_calls a None pre
                      ++ [sim_event (chain_state a None pre) tx;
                          EvLog lvl msg]) in
       PH_LOOP_body ph c w = Ret (Continue, c, w1) /\
       (forall rest reason,
          ConsiderProposedBlocks (ph :: rest) reason c w
            = ConsiderProposedBlocks rest reason c w1) /\
       (forall reason,
          ConsiderProposedBlocks [ph] reason c w
            = Ret ((""%string, Some ErrProposedBlockChoiceNotReady),
                   c, w1)) /\
       (forall before c0 w0 next rest reason,
          skips before c0 w0 c w ->
          passes_every_check c w1 next ->
          exists calls,
            ConsiderProposedBlocks (before ++ ph :: next :: rest) reason
              c0 w0
              = Ret ((string_of_bytes (hdr_Hash (ph_Header next)), None),
                     c, mkWorld (S (ticks w)) (trace w1 ++ calls)))) /\
  (forall hash c' w',
     PH_LOOP_body ph c w = Ret (Return hash, c', w') ->
     chain_ok a None txs = true /\
     trace w' = trace w ++ chain_calls a None txs /\
     (forall k tx, txs !! k = Some tx ->
        ~ step_fails a (chain_state a None (take k txs)) tx /\
        chain_calls a None txs !! k
          = Some (sim_event (chain_state a None (take k txs)) tx))) /\
  (forall bt before c0 w0 rest reason,
     txs <> [] ->
     chain_ok a None txs = true ->
     claimed_time ph = Some bt ->
     bt <= time_Now (ticks w) ->
     skips before c0 w0 c w ->
     ConsiderProposedBlocks (before ++ ph :: rest) reason c0 w0
       = Ret ((string_of_bytes (hdr_Hash (ph_Header ph)), None), c,
              mkWorld (S (ticks w)) (trace w ++ chain_calls a None txs))) /\
  (forall reason hash c' w',
     ConsiderProposedBlocks [ph] reason c w = Ret ((hash, None), c', w') ->
     hash = string_of_bytes (hdr_Hash (ph_Header ph)) /\
     c' = c /\
     chain_ok a None txs = true /\
     w' = mkWorld (S (ticks w)) (trace w ++ chain_calls a None txs) /\
     (forall k tx, txs !! k = Some tx ->
        ~ step_fails a (chain_state a None (take k txs)) tx /\
        chain_calls a None txs !! k
          = Some (sim_event (chain_state a None (take k txs)) tx))).
Proof.
  intros Hin Hn Hget Hready a txs.
  assert (Hbody : PH_LOOP_body ph c w
            = (ok ← check_block_data ph;
               if (ok : bool) then check_annotation ph else mret Continue)
                c w).
  { rewrite (PH_LOOP_body_in_round ph c w p Hin).
    unfold after_round_checks.
    destruct (pid_nTxs p =? 0) eqn:E; [zbool; done|done]. }
  unfold mbind at 1, M_bind at 1 in Hbody.
  assert (Hpos : chain_ok a None txs = true ->
            forall k tx, txs !! k = Some tx ->
              ~ step_fails a (chain_state a None (take k txs)) tx /\
              chain_calls a None txs !! k
                = Some (sim_event (chain_state a None (take k txs)) tx)).
  { intros Hok k tx Hk.
    assert (Hsplit : txs = take k txs ++ tx :: drop (S k) txs).
    { by rewrite <- (take_drop_middle txs k tx Hk) at 1. }
    destruct (chain_ok_no_failure a None txs Hok _ _ _ Hsplit)
      as [Hpre Hnf].
    split; [exact Hnf|]. by apply chain_calls_lookup. }
  assert (Hinv : forall hash c' w',
            PH_LOOP_body ph c w = Ret (Return hash, c', w') ->
            hash = string_of_bytes (hdr_Hash (ph_Header ph)) /\
            c' = c /\
            chain_ok a None txs = true /\
            w' = mkWorld (S (ticks w)) (trace w ++ chain_calls a None txs)).
  { intros hash c' w' Hacc.
    destruct (decide (Transactions bdr = [])) as [Hnil|Hne].
    { destruct (check_block_data_empty_batch ph c w bdr Hget Hready Hnil)
        as [m Hp]. rewrite Hbody, Hp in Hacc. discriminate. }
    destruct (check_block_data_ready ph c w bdr Hget Hready Hne)
      as (lvl & msg & Hrun).
    fold a txs in Hrun. rewrite Hbody, Hrun in Hacc.
    destruct (chain_ok a None txs) eqn:Hok; [|discriminate].
    rewrite app_nil_r in Hacc.
    by apply check_annotation_inv in Hacc as (-> & -> & -> & _). }
  split; [|split; [|split]].
  - intros pre tx post Htxs Hpre Hfail.
    assert (Hne : Transactions bdr <> []).
    { fold txs. rewrite Htxs. by destruct pre. }
    destruct (check_block_data_ready ph c w bdr Hget Hready Hne)
      as (lvl & msg & Hrun).
    destruct (chain_ok_app_fail a None pre tx post Hpre Hfail)
      as [Hko Hcalls].
    fold a txs in Hrun. rewrite Htxs, Hko, Hcalls in Hrun.
    rewrite <- app_assoc in Hrun. simpl in Hrun.
    exists lvl, msg. intros w1.
    assert (Hb : PH_LOOP_body ph c w = Ret (Continue, c, w1)).
    { rewrite Hbody, Hrun. done. }
    split; [exact Hb|]. unfold ConsiderProposedBlocks.
    split; [|split].
    + intros rest reason. by apply PH_LOOP_continue.
    + intros _. by rewrite (PH_LOOP_continue ph [] c w c w1 Hb).
    + intros before c0 w0 next rest _ Hsk Hpass.
      destruct (PH_LOOP_body_accepts next c w1 Hpass) as [calls Hacc].
      exists calls.
      rewrite (PH_LOOP_skips before _ c0 w0 c w Hsk).
      rewrite (PH_LOOP_continue ph _ c w c w1 Hb).
      by rewrite (PH_LOOP_return next rest c w1 _ _ _ Hacc).
  - intros hash c' w' Hacc.
    destruct (Hinv hash c' w' Hacc) as (_ & _ & Hok & ->).
    split; [done|]. split; [done|]. by apply Hpos.
  - intros bt before c0 w0 rest reason Hne Hok Hct Hle Hsk.
    destruct (check_block_data_ready ph c w bdr Hget Hready Hne)
      as (lvl & msg & Hrun).
    fold a txs in Hrun. rewrite Hok, app_nil_r in Hrun.
    assert (Hb : PH_LOOP_body ph c w
              = Ret (Return (string_of_bytes (hdr_Hash (ph_Header ph))), c,
                     mkWorld (S (ticks w))
                       (trace w ++ chain_calls a None txs))).
    { rewrite Hbody, Hrun.
      by rewrite (check_annotation_accept ph c _ bt Hct). }
    unfold ConsiderProposedBlocks.
    rewrite (PH_LOOP_skips before _ c0 w0 c w Hsk).
    by rewrite (PH_LOOP_return ph rest c w _ _ _ Hb).
  - intros reason hash c' w' Hrun. unfold ConsiderProposedBlocks in Hrun.
    apply PH_LOOP_inv in Hrun
      as [(_ & pre & ph' & post & c1 & w1 & Heq & Hsk & Hacc)
         |(Hno & _)]; [|discriminate].
    destruct pre as [|x pre].
    2:{ injection Heq as _ Heq. by destruct pre. }
    injection Heq as <- _.
    inversion Hsk; subst.
    destruct (Hinv hash c' w' Hacc) as (-> & -> & Hok & ->).
    repeat split; try done; by apply Hpos.
Qed.

Lemma ConsiderProposedBlocks_error phs reason c w hash err c' w' :
  ConsiderProposedBlocks phs reason c w = Ret ((hash, err), c', w') ->
  err = None \/
  (err = Some ErrProposedBlockChoiceNotReady /\ hash = ""%string).
Proof.
  intros Hrun. apply PH_LOOP_inv in Hrun as [(-> & _)|(-> & -> & _)];
    [by left|by right].
Qed.

(** C4. A candidate of the current round with a non-zero transaction count
    whose identifier is not in the cache makes the hook call the retriever
    with the identifier and the proposal's driver annotation and go on with
    the next candidate; when the retriever reports an error the hook logs a
    warning and goes on all the same. A record that is present and not ready
    makes the hook go on with the next candidate with nothing done. In both
    cases the turn ends in continue and leaves the round context as it was, so
    the candidate is accepted by a later call in which it passes every check.
    The only errors the hook returns are nil and the not-ready sentinel. *)
Theorem C4_missing_data_defers_candidate ph p c w :
  in_round c ph p ->
  pid_nTxs p <> 0 ->
  (Get (bdrCache c) (data_id ph) = None ->
   let r := Retrieve (pbdr c) (bdrCache c) (data_id ph)
              (Driver (ph_Annotations ph)) in
   let c1 := set_bdrCache (snd r) c in
   let w1 := mkWorld (ticks w)
               (trace w ++ EvRetrieve (data_id ph)
                             (Driver (ph_Annotations ph))
                  :: match fst r with
                     | Some _ =>
                         [EvLog Warn
                            "Failed to initiate retrieval of proposed data"]
                     | None => []
                     end) in
   PH_LOOP_body ph c w = Ret (Continue, c1, w1) /\
   curH c1 = curH c /\ curR c1 = curR c /\
   (forall rest reason,
      ConsiderProposedBlocks (ph :: rest) reason c w
        = ConsiderProposedBlocks rest reason c1 w1) /\
   ConsiderProposedBlocks [ph] (mkConsiderProposedBlocksReason [] [] false)
     c w
     = Ret ((""%string, Some ErrProposedBlockChoiceNotReady), c1, w1)) /\
  (forall bdr,
     Get (bdrCache c) (data_id ph) = Some bdr ->
     Ready bdr = false ->
     PH_LOOP_body ph c w = Ret (Continue, c, w) /\
     forall rest reason,
       ConsiderProposedBlocks (ph :: rest) reason c w
         = ConsiderProposedBlocks rest reason c w) /\
  (forall c2 w2,
     curH c2 = curH c -> curR c2 = curR c ->
     passes_every_check c2 w2 ph ->
     exists w3,
       ConsiderProposedBlocks [ph]
         (mkConsiderProposedBlocksReason [] [] false) c2 w2
         = Ret ((string_of_bytes (hdr_Hash (ph_Header ph)), None), c2, w3)) /\
  (forall phs reason hash err c' w',
     ConsiderProposedBlocks phs reason c w = Ret ((hash, err), c', w') ->
     err = None \/
     (err = Some ErrProposedBlockChoiceNotReady /\ hash = ""%string)).
Proof.
  intros Hin Hn.
  assert (Hbody : PH_LOOP_body ph c w
            = (ok ← check_block_data ph;
               if (ok : bool) then check_annotation ph else mret Continue)
                c w).
  { rewrite (PH_LOOP_body_in_round ph c w p Hin).
    unfold after_round_checks.
    destruct (pid_nTxs p =? 0) eqn:E; [zbool; done|done]. }
  unfold mbind at 1, M_bind at 1 in Hbody.
  split; [|split; [|split]].
  - intros Hget r c1 w1.
    assert (Hb : PH_LOOP_body ph c w = Ret (Continue, c1, w1)).
    { rewrite Hbody.
      pose proof (check_block_data_absent ph c w Hget)
        as (logs & Hrun & Hl).
      by rewrite Hrun, Hl. }
    split; [exact Hb|]. split; [done|]. split; [done|].
    unfold ConsiderProposedBlocks. split.
    + intros rest reason. by apply PH_LOOP_continue.
    + by rewrite (PH_LOOP_continue ph [] c w c1 w1 Hb).
  - intros bdr Hget Hready.
    assert (Hb : PH_LOOP_body ph c w = Ret (Continue, c, w)).
    { rewrite Hbody.
      by rewrite (check_block_data_not_ready ph c w bdr Hget Hready). }
    split; [exact Hb|]. intros rest reason.
    unfold ConsiderProposedBlocks. by apply PH_LOOP_continue.
  - intros c2 w2 _ _ Hpass.
    destruct (PH_LOOP_body_accepts ph c2 w2 Hpass) as [calls Hacc].
    unfold ConsiderProposedBlocks.
    rewrite (PH_LOOP_return ph [] c2 w2 _ _ _ Hacc). by eexists.
  - intros phs reason hash err c' w'. apply ConsiderProposedBlocks_error.
Qed.

(** C9. A candidate whose annotation claims a proposal time strictly after
    the reading of the clock at its turn is never accepted: its turn does not
    return a hash, whatever the other checks say, and the hook goes on with
    the candidates after it. *)
Theorem C9_future_time_never_accepted ph c w bt :
  claimed_time ph = Some bt ->
  time_Now (ticks w) < bt ->
  (forall hash c' w', PH_LOOP_body ph c w <> Ret (Return hash, c', w')) /\
  (forall pre post reason c0 w0,
     skips pre c0 w0 c w ->
     ConsiderProposedBlocks (pre ++ ph :: post) reason c0 w0
       = match PH_LOOP_body ph c w with
         | Ret (_, c1, w1) => ConsiderProposedBlocks post reason c1 w1
         | Panic msg => Panic msg
         end).
Proof.
  intros Hct Hlt.
  assert (Hno : forall hash c' w',
             PH_LOOP_body ph c w <> Ret (Return hash, c', w')).
  { intros hash c' w' Hacc.
    apply PH_LOOP_body_accept_inv in Hacc
      as ((p & _ & _ & bt' & Hct' & Hle) & _).
    rewrite Hct in Hct'. injection Hct' as <-. lia. }
  split; [exact Hno|].
  intros pre post reason c0 w0 Hsk. unfold ConsiderProposedBlocks.
  rewrite (PH_LOOP_skips pre _ c0 w0 c w Hsk).
  destruct (PH_LOOP_body ph c w) as [[[v c1] w1]|msg] eqn:Hb.
  - destruct v as [|hash]; [by apply PH_LOOP_continue|].
    by destruct (Hno hash c1 w1).
  - simpl. unfold mbind at 1, M_bind at 1. by rewrite Hb.
Qed.

(** C10. The result of ConsiderProposedBlocks does not depend on its reason
    argument: two calls that differ only in it return the same hash and
    error, and leave the same strategy and world. *)
Theorem C10_reason_is_ignored (phs : list (@ProposedHeader K))
    (reason1 reason2 : ConsiderProposedBlocksReason) c w :
  ConsiderProposedBlocks phs reason1 c w
    = ConsiderProposedBlocks phs reason2 c w.
Proof. reflexivity. Qed.

(** *** Round entry *)

Lemma Get_SetImmediatelyAvailable (rc : @RequestCache Tx) id txs enc :
  Get (SetImmediatelyAvailable rc id txs enc) id
    = Some (mkBlockDataRequest true txs enc).
Proof.
  unfold Get, SetImmediatelyAvailable. unfold RequestCache in rc.
  apply (lookup_insert_eq rc).
Qed.

Lemma SendC_spec ctx (p : Proposal) c w :
  exists tail,
    SendC ctx p c w
      = Ret (handoff_accepted ctx, c,
             mkWorld (ticks w)
               (trace w ++ EvSendC p (handoff_accepted ctx) :: tail)) /\
    Forall is_log tail.
Proof.
  unfold SendC, handoff_accepted. destruct (ctx_Cause ctx) as [e|]; mrun.
  - eexists [_]. rewrite <- app_assoc. split; [done|].
    repeat constructor. by eexists _, _.
  - by exists [].
Qed.

(** Round entry up to the comparison with the signer's key: the round
    context is recorded, the selection is run, and a selected validator
    whose key [Equal] does not match ends the hook with no error. *)
Lemma EnterRound_not_selected ctx (rv : @RoundView K) out c w v :
  proposerSelection c (rv_Height rv) (rv_Round rv) (rv_ValidatorSet rv)
    = Ret v ->
  pk_Equal (PubKey v) (signerPubKey c) = false ->
  EnterRound ctx rv out c w = Ret (None, entered rv c, w).
Proof.
  intros Hsel Heq. unfold EnterRound. mrun.
  destruct (signerPubKey c) as [k|] eqn:Hk; simpl;
    rewrite Hsel; simpl; by rewrite Heq.
Qed.

Lemma EnterRound_selection_panics ctx (rv : @RoundView K) out c w msg :
  proposerSelection c (rv_Height rv) (rv_Round rv) (rv_ValidatorSet rv)
    = Panic msg ->
  EnterRound ctx rv out c w = Panic msg.
Proof.
  intros Hsel. unfold EnterRound. mrun.
  destruct (signerPubKey c) as [k|] eqn:Hk; simpl; by rewrite Hsel.
Qed.

(** With no signer the hook still runs the selection; it ends with no
    error and nothing done when the selection returns and the selected key
    does not equal nil. *)
Lemma EnterRound_nil_signer ctx (rv : @RoundView K) out c w v
    `{!PubKeyLawful K} :
  signerPubKey c = None ->
  proposerSelection c (rv_Height rv) (rv_Round rv) (rv_ValidatorSet rv)
    = Ret v ->
  EnterRound ctx rv out c w = Ret (None, entered rv c, w).
Proof.
  intros Hnil Hsel. apply EnterRound_not_selected with v; [done|].
  rewrite Hnil. apply pk_Equal_nil.
Qed.

Lemma existsb_already_proposed `{!PubKeyLawful K} (rv : @RoundView K) k :
  existsb (fun ph => pk_Equal k (ph_ProposerPubKey ph))
    (rv_ProposedHeaders rv) = true
  <-> already_proposed rv (Some k).
Proof.
  unfold already_proposed. rewrite existsb_exists. split.
  - intros (ph & Hin & Heq). exists ph. split; [by apply list_elem_of_In|].
    destruct (ph_ProposerPubKey ph) as [k'|].
    + apply pk_Equal_spec in Heq. by subst.
    + by rewrite pk_Equal_nil in Heq.
  - intros (ph & Hin & Heq). exists ph. split; [by apply list_elem_of_In|].
    rewrite Heq. by apply pk_Equal_spec.
Qed.

(** C7. When the local identity is the selected proposer and the proposal
    channel is nil, EnterRound returns nil with nothing done if the round
    view already holds a proposed header whose proposer key is the local one,
    and panics if it holds none. *)
Theorem C7_nil_destination_recovery_or_fatal `{!PubKeyLawful K}
    ctx (rv : @RoundView K) c w v :
  proposerSelection c (rv_Height rv) (rv_Round rv) (rv_ValidatorSet rv)
    = Ret v ->
  signerPubKey c = Some (PubKey v) ->
  (already_proposed rv (signerPubKey c) ->
   EnterRound ctx rv None c w = Ret (None, entered rv c, w)) /\
  (~ already_proposed rv (signerPubKey c) ->
   EnterRound ctx rv None c w
     = Panic
         "BUG: proposalOut channel was nil when we were supposed to propose").
Proof.
  intros Hsel Hkey.
  assert (Heq : pk_Equal (PubKey v) (signerPubKey c) = true).
  { rewrite Hkey. by apply pk_Equal_spec. }
  assert (Hrun : EnterRound ctx rv None c w
            = if existsb (fun ph => pk_Equal (PubKey v)
                                      (ph_ProposerPubKey ph))
                   (rv_ProposedHeaders rv)
              then Ret (None, entered rv c, w)
              else Panic ("BUG: proposalOut channel was nil when we "
                          +:+ "were supposed to propose")).
  { unfold EnterRound. mrun. rewrite Hkey. simpl. rewrite Hsel. simpl.
    rewrite Hkey in Heq. rewrite Heq. simpl.
    by destruct (existsb _ _). }
  rewrite Hrun, Hkey.
  pose proof (existsb_already_proposed rv (PubKey v)) as Hex.
  destruct (existsb _ _); split; try done.
  - intros Hno. destruct Hno. by apply Hex.
  - intros Hyes. apply Hex in Hyes. discriminate.
Qed.


Lemma provide_block_data_empty c w :
  provide_block_data [] c w
    = Ret (inr (DataID (curH c) (curR c) 0 [], []), c, w).
Proof. done. Qed.

Lemma provide_block_data_nonempty txs c w res pda :
  txs <> [] ->
  Provide (provider c) (curH c) (curR c) txs = (res, None) ->
  json_Marshal_ProposalDriverAnnotation
    (mkProposalDriverAnnotation (pr_Addrs res)) = (pda, None) ->
  provide_block_data txs c w
    = Ret (inr (pr_DataID res, pda),
           set_bdrCache
             (SetImmediatelyAvailable (bdrCache c) (pr_DataID res) txs
                (pr_Encoded res)) c,
           mkWorld (ticks w)
             (trace w ++ [EvProvide (curH c) (curR c) txs;
                          EvSetImmediatelyAvailable (pr_DataID res) txs
                            (pr_Encoded res)])).
Proof.
  intros Hne Hprov Hpda. unfold provide_block_data. mrun.
  destruct (decide (length txs = 0%nat)) as [Hlen|Hlen];
    [by destruct txs|].
  mrun. rewrite Hprov, Hpda. simpl. by rewrite <- app_assoc.
Qed.

(** Round entry of the selected proposer with a channel to send on. *)
Lemma EnterRound_proposing ctx (rv : @RoundView K) c w v ba :
  proposerSelection c (rv_Height rv) (rv_Round rv) (rv_ValidatorSet rv)
    = Ret v ->
  pk_Equal (PubKey v) (signerPubKey c) = true ->
  json_Marshal_BlockAnnotation
    (mkBlockAnnotation (time_Format_RFC3339 (time_Now (ticks w))))
    = (ba, None) ->
  EnterRound ctx rv (Some tt) c w
    = match provide_block_data (Buffered (txBuf c)) (entered rv c)
              (mkWorld (S (ticks w)) (trace w ++ [EvBuffered])) with
      | Ret (inl e, c1, w1) => Ret (Some e, c1, w1)
      | Ret (inr (id, pda), c1, w1) =>
          match SendC ctx (mkProposal id (mkAnnotations [] ba)
                             (mkAnnotations [] pda)) c1 w1 with
          | Ret (_, c2, w2) => Ret (ctx_Cause ctx, c2, w2)
          | Panic msg => Panic msg
          end
      | Panic msg => Panic msg
      end.
Proof.
  intros Hsel Heq Hba. unfold EnterRound. mrun.
  set (sk := signerPubKey c) in *.
  destruct sk as [k|]; simpl; rewrite Hsel; simpl; rewrite Heq; simpl;
    rewrite Hba; fold (entered rv c);
    (destruct (provide_block_data _ _ _) as [[[[e|[id pda]] c1] w1]|msg];
     [done| |done]);
    unfold SendC; destruct (ctx_Cause ctx) as [e|]; by mrun.
Qed.

(** C8, as the code has it. When the local identity proposes a non-empty
    snapshot of pending transactions and the dissemination call succeeds,
    the identifier it returns is stored in the cache as ready, with exactly
    those transactions and the encoded bytes, before the proposal is sent to
    the engine. When the snapshot is empty the proposal carries the
    identifier of the empty batch, no dissemination call is made, and the
    cache is left as it was. *)
Theorem C8_proposer_marks_nonempty_data_available
    ctx (rv : @RoundView K) c w v ba :
  proposerSelection c (rv_Height rv) (rv_Round rv) (rv_ValidatorSet rv)
    = Ret v ->
  pk_Equal (PubKey v) (signerPubKey c) = true ->
  json_Marshal_BlockAnnotation
    (mkBlockAnnotation (time_Format_RFC3339 (time_Now (ticks w))))
    = (ba, None) ->
  let h := rv_Height rv in
  let r := rv_Round rv in
  let txs := Buffered (txBuf c) in
  (txs <> [] ->
   forall res pda,
     Provide (provider c) h r txs = (res, None) ->
     json_Marshal_ProposalDriverAnnotation
       (mkProposalDriverAnnotation (pr_Addrs res)) = (pda, None) ->
     let id := pr_DataID res in
     let p := mkProposal id (mkAnnotations [] ba) (mkAnnotations [] pda) in
     let c1 := set_bdrCache
                 (SetImmediatelyAvailable (bdrCache c) id txs
                    (pr_Encoded res)) (entered rv c) in
     exists tail,
       EnterRound ctx rv (Some tt) c w
         = Ret (ctx_Cause ctx, c1,
                mkWorld (S (ticks w))
                  (trace w
                     ++ [EvBuffered; EvProvide h r txs;
                         EvSetImmediatelyAvailable id txs (pr_Encoded res);
                         EvSendC p (handoff_accepted ctx)] ++ tail)) /\
       Forall is_log tail /\
       Get (bdrCache c1) id
         = Some (mkBlockDataRequest true txs (pr_Encoded res))) /\
  (txs = [] ->
   let p := mkProposal (DataID h r 0 []) (mkAnnotations [] ba)
              (mkAnnotations [] []) in
   exists tail,
     EnterRound ctx rv (Some tt) c w
       = Ret (ctx_Cause ctx, entered rv c,
              mkWorld (S (ticks w))
                (trace w ++ [EvBuffered; EvSendC p (handoff_accepted ctx)]
                   ++ tail)) /\
     Forall is_log tail /\
     bdrCache (entered rv c) = bdrCache c).
Proof.
  intros Hsel Heq Hba h r txs.
  rewrite (EnterRound_proposing ctx rv c w v ba Hsel Heq Hba). fold txs.
  split.
  - intros Hne res pda Hprov Hpda id p c1.
    rewrite (provide_block_data_nonempty txs (entered rv c) _ res pda
               Hne Hprov Hpda).
    fold id p. simpl. fold h r. fold c1.
    destruct (SendC_spec ctx p c1
                (mkWorld (S (ticks w))
                   ((trace w ++ [EvBuffered])
                      ++ [EvProvide h r txs;
                          EvSetImmediatelyAvailable id txs
                            (pr_Encoded res)])))
      as (tail & Hsend & Htail).
    exists tail. rewrite Hsend. simpl. rewrite <- !app_assoc. simpl.
    split; [done|]. split; [done|].
    unfold c1. simpl. apply Get_SetImmediatelyAvailable.
  - intros Hnil p. rewrite Hnil, provide_block_data_empty. simpl.
    fold h r p.
    destruct (SendC_spec ctx p (entered rv c)
                (mkWorld (S (ticks w)) (trace w ++ [EvBuffered])))
      as (tail & Hsend & Htail).
    exists tail. rewrite Hsend. simpl. rewrite <- !app_assoc. simpl.
    by destruct c.
Qed.

(** *** The consideration hook returns *)

Lemma check_annotation_returns ph c w :
  exists v w', check_annotation ph c w = Ret (v, c, w').
Proof.
  destruct (claimed_time ph) as [bt|] eqn:Hct.
  - destruct (Z.le_gt_cases bt (time_Now (ticks w))) as [Hle|Hgt].
    + rewrite (check_annotation_accept ph c w bt Hct Hle). by eexists _, _.
    + rewrite (check_annotation_future ph c w bt Hct Hgt). by eexists _, _.
  - destruct (check_annotation_no_time ph c w Hct) as [msg ->].
    by eexists _, _.
Qed.

Lemma PH_LOOP_body_returns ph c w :
  cache_wf (bdrCache c) ->
  retriever_wf (pbdr c) ->
  exists v c' w',
    PH_LOOP_body ph c w = Ret (v, c', w') /\
    cache_wf (bdrCache c') /\ pbdr c' = pbdr c.
Proof.
  intros Hwf Hret.
  destruct (in_round_dec c ph) as [[p Hin]|Hno].
  2:{ destruct (PH_LOOP_body_not_in_round ph c w Hno) as [msg ->].
      by eexists _, _, _. }
  rewrite (PH_LOOP_body_in_round ph c w p Hin).
  unfold after_round_checks. unfold mbind at 1, M_bind at 1.
  destruct (pid_nTxs p =? 0) eqn:En; simpl.
  { unfold mret, M_ret.
    destruct (check_annotation_returns ph c w) as (v & w' & ->).
    by eexists _, _, _. }
  destruct (Get (bdrCache c) (data_id ph)) as [bdr|] eqn:Hget.
  2:{ pose proof (check_block_data_absent ph c w Hget) as (logs & -> & _).
      eexists _, _, _. split; [done|]. split; [|by destruct c].
      destruct c; simpl in *. by apply Hret. }
  destruct (Ready bdr) eqn:Hready.
  2:{ rewrite (check_block_data_not_ready ph c w bdr Hget Hready).
      by eexists _, _, _. }
  destruct (check_block_data_ready ph c w bdr Hget Hready
              (Hwf _ _ Hget Hready)) as (lvl & msg & ->).
  destruct (chain_ok _ _ _).
  - destruct (check_annotation_returns ph c
                (mkWorld (ticks w)
                   (trace w ++ chain_calls (am c) None (Transactions bdr)
                      ++ []))) as (v & w' & ->).
    by eexists _, _, _.
  - by eexists _, _, _.
Qed.

(** On a well-formed cache the hook always returns: a hash with no error, or
    the empty hash with the not-ready sentinel. *)
Lemma ConsiderProposedBlocks_returns (phs : list (@ProposedHeader K))
    (reason : ConsiderProposedBlocksReason) c w :
  cache_wf (bdrCache c) ->
  retriever_wf (pbdr c) ->
  exists hash err c' w',
    ConsiderProposedBlocks phs reason c w = Ret ((hash, err), c', w').
Proof.
  unfold ConsiderProposedBlocks. revert c w.
  induction phs as [|ph phs IH]; intros c w Hwf Hret.
  - by eexists _, _, _, _.
  - destruct (PH_LOOP_body_returns ph c w Hwf Hret)
      as (v & c1 & w1 & Hb & Hwf1 & Hp).
    destruct v as [|hash].
    + rewrite (PH_LOOP_continue ph phs c w c1 w1 Hb).
      apply IH; [done|by rewrite Hp].
    + rewrite (PH_LOOP_return ph phs c w hash c1 w1 Hb).
      by eexists _, _, _, _.
Qed.
End StrategyProperties.

(** ** The hooks on the two-validator network *)

Import Scenario.

#[global] Instance string_PubKey_lawful : PubKeyLawful string.
Proof.
  split.
  - done.
  - intros a b. simpl. apply String.eqb_eq.
Qed.

(** Two candidates of round (10, 0): the first with a batch whose second
    transaction overdraws, the second with a batch that simulates. *)
Lemma C2_first_acceptable_candidate_wins_witness :
  exists w2,
    ConsiderProposedBlocks
      [header_for "h1" [5; -200; 3] 900; header_for "h2" [5; 6; 7] 900]
      reason0
      (strategyB {[ id_of [5; -200; 3] := ready [5; -200; 3];
                    id_of [5; 6; 7] := ready [5; 6; 7] ]})
      w0
    = Ret (("h2"%string, None),
           strategyB {[ id_of [5; -200; 3] := ready [5; -200; 3];
                        id_of [5; 6; 7] := ready [5; 6; 7] ]},
           w2).
Proof.
  eapply (proj1 (C2_first_acceptable_candidate_wins _ reason0 _ w0)
            [header_for "h1" [5; -200; 3] 900]
            (header_for "h2" [5; 6; 7] 900) []).
  - reflexivity.
  - eapply skips_cons; [reflexivity|apply skips_nil].
  - eexists. split; [|split].
    + repeat split; vm_compute; reflexivity.
    + intros _. eexists. repeat split; try (vm_compute; reflexivity).
      vm_compute. discriminate.
    + exists 900. split; [vm_compute; reflexivity|vm_compute; discriminate].
Defined.

(** A three-transaction batch whose second transaction is invalid, followed
    by a candidate whose batch simulates: the first candidate is skipped
    after two simulation calls, and the hook returns the second one's
    hash. *)
Lemma C3_simulation_chain_skips_whole_candidate_witness :
  exists lvl msg calls,
    ConsiderProposedBlocks
      [header_for "h1" [5; -200; 3] 900; header_for "h2" [5; 6; 7] 900]
      reason0
      (strategyB {[ id_of [5; -200; 3] := ready [5; -200; 3];
                    id_of [5; 6; 7] := ready [5; 6; 7] ]})
      w0
    = Ret (("h2"%string, None),
           strategyB {[ id_of [5; -200; 3] := ready [5; -200; 3];
                        id_of [5; 6; 7] := ready [5; 6; 7] ]},
           mkWorld 1
             ([EvSimulate 5; EvSimulateWithState 105 (-200); EvLog lvl msg]
                ++ calls)).
Proof.
  set (c := strategyB {[ id_of [5; -200; 3] := ready [5; -200; 3];
                         id_of [5; 6; 7] := ready [5; 6; 7] ]}).
  assert (Hin : in_round c (header_for "h1" [5; -200; 3] 900)
                  (mkParsedDataID 10 0 3 8 (txsHash [5; -200; 3]))).
  { repeat split; vm_compute; reflexivity. }
  assert (Hn : pid_nTxs (mkParsedDataID 10 0 3 8 (txsHash [5; -200; 3]))
               <> 0) by (vm_compute; discriminate).
  destruct (proj1 (C3_simulation_chain_skips_whole_candidate
                     _ _ (ready [5; -200; 3]) _ w0 Hin Hn
                     ltac:(vm_compute; reflexivity) eq_refl)
              [5] (-200) [3] eq_refl eq_refl
              ltac:(vm_compute; right; discriminate))
    as (lvl & msg & _ & _ & _ & Hnext).
  exists lvl, msg.
  apply (Hnext [] c w0 (header_for "h2" [5; 6; 7] 900) [] reason0).
  - apply skips_nil.
  - eexists. split; [|split].
    + repeat split; vm_compute; reflexivity.
    + intros _. eexists. repeat split; try (vm_compute; reflexivity).
      vm_compute. discriminate.
    + exists 900. split; [vm_compute; reflexivity|vm_compute; discriminate].
Defined.

(** The data of the candidate is not in the cache and the proposal carries
    no locations, so that the retriever refuses: the turn ends in continue
    with a warning logged, and the hook reports not ready. *)
Lemma C4_missing_data_defers_candidate_witness :
  ConsiderProposedBlocks
    [mkProposedHeader (ph_Header (header_for "h1" [5] 900)) 0 (Some "A")
       (mkAnnotations [] [])]
    reason0 (strategyB ∅) w0
  = Ret ((""%string, Some ErrProposedBlockChoiceNotReady), strategyB ∅,
         mkWorld 0
           [EvRetrieve (id_of [5]) [];
            EvLog Warn "Failed to initiate retrieval of proposed data"]).
Proof.
  assert (Hin : in_round (strategyB ∅)
                  (mkProposedHeader (ph_Header (header_for "h1" [5] 900)) 0
                     (Some "A") (mkAnnotations [] []))
                  (mkParsedDataID 10 0 1 8 (txsHash [5]))).
  { repeat split; vm_compute; reflexivity. }
  assert (Hn : pid_nTxs (mkParsedDataID 10 0 1 8 (txsHash [5])) <> 0)
    by (vm_compute; discriminate).
  pose proof (proj1 (C4_missing_data_defers_candidate _ _ _ w0 Hin Hn)
                ltac:(vm_compute; reflexivity)) as (_ & _ & _ & _ & Hrun).
  exact Hrun.
Defined.

(** Validator A is selected at height 10, round 0. Restarted without a
    channel, it returns quietly when the round view holds its header, and
    panics when the round view is empty. *)
Lemma C7_nil_destination_recovery_or_fatal_witness :
  EnterRound ctx0
    (mkRoundView 10 0 vals [header_for "h1" [5] 900]) None
    (strategy (Some "A") [5] ∅) w0
  = Ret (None, set_curR 0 (set_curH 10 (strategy (Some "A") [5] ∅)), w0) /\
  EnterRound ctx0 rv10 None (strategy (Some "A") [5] ∅) w0
  = Panic "BUG: proposalOut channel was nil when we were supposed to propose".
Proof.
  split.
  - apply (proj1 (C7_nil_destination_recovery_or_fatal ctx0
                    (mkRoundView 10 0 vals [header_for "h1" [5] 900])
                    (strategy (Some "A") [5] ∅) w0 valA eq_refl eq_refl)).
    exists (header_for "h1" [5] 900). split; [|done].
    simpl. apply list_elem_of_here.
  - apply (proj2 (C7_nil_destination_recovery_or_fatal ctx0 rv10
                    (strategy (Some "A") [5] ∅) w0 valA eq_refl eq_refl)).
    intros (ph & Hin & _). simpl in Hin. by apply elem_of_nil in Hin.
Defined.

(** Validator A proposes one pending transaction: the identifier is in the
    cache, ready, when the hook returns. *)
Lemma C8_proposer_marks_nonempty_data_available_witness :
  exists c1 w1,
    EnterRound ctx0 rv10 (Some tt) (strategy (Some "A") [5] ∅) w0
      = Ret (None, c1, w1) /\
    Get (bdrCache c1) (id_of [5])
      = Some (mkBlockDataRequest true [5] (list_byte_of_string "encoded")).
Proof.
  destruct (proj1 (@C8_proposer_marks_nonempty_data_available
                     string string_PubKey Tx SimState imports ctx0 rv10
                     (strategy (Some "A") [5] ∅) w0 valA
                     (fst (marshal_ba (mkBlockAnnotation (gsbd.dec 1000))))
                     eq_refl eq_refl eq_refl)
              ltac:(discriminate)
              (fst (provide 10 0 [5]))
              (fst (marshal_pda (mkProposalDriverAnnotation ["/ip4/10.0.0.1"])))
              eq_refl eq_refl)
    as (tail & Hrun & _ & Hget).
  eexists _, _. split; [exact Hrun|exact Hget].
Defined.

(** The clock reads 1000 and the annotation claims 1001. *)
Lemma C9_future_time_never_accepted_witness :
  @time_Now Tx imports (ticks w0) < 1001 /\
  match PH_LOOP_body (header_for "h1" [5] 1001)
          (strategyB {[ id_of [5] := ready [5] ]}) w0 with
  | Ret (Return _, _, _) => False
  | _ => True
  end.
Proof.
  split; [vm_compute; reflexivity|].
  destruct (PH_LOOP_body (header_for "h1" [5] 1001)
              (strategyB {[ id_of [5] := ready [5] ]}) w0)
    as [[[[|hash] c'] w']|msg] eqn:Hb; try exact I.
  exact (proj1 (@C9_future_time_never_accepted string Tx SimState imports
                  (header_for "h1" [5] 1001)
                  (strategyB {[ id_of [5] := ready [5] ]}) w0 1001
                  ltac:(vm_compute; reflexivity)
                  ltac:(vm_compute; reflexivity))
           hash c' w' Hb).
Defined.

(** C6. With no signer key EnterRound should stop early, returning no error
    and doing nothing. The source's branch for it is empty, so the hook goes
    on to the proposer selection: at height 2^63 with three validators, and
    on an empty validator set, it panics there instead of returning. With
    lawful keys and a selection that returns, it does end with no error and
    nothing done. *)
Theorem C6_nil_signer_does_not_stop_early :
  EnterRound ctx0 (mkRoundView (2 ^ 63) 0 vals3 []) (Some tt)
    (strategy None [] ∅) w0
    = Panic "runtime error: index out of range" /\
  EnterRound ctx0 (mkRoundView 10 0 (mkValidatorSet []) []) (Some tt)
    (strategy None [] ∅) w0
    = Panic "runtime error: integer divide by zero" /\
  EnterRound ctx0 rv10 (Some tt) (strategy None [] ∅) w0
    = Ret (None, set_curR 0 (set_curH 10 (strategy None [] ∅)), w0).
Proof.
  split; [|split].
  - by apply EnterRound_selection_panics.
  - by apply EnterRound_selection_panics.
  - by apply (EnterRound_nil_signer ctx0 rv10 (Some tt) _ w0 valA).
Qed.

(** C8 does not hold as stated: validator A proposes with no pending
    transactions, the proposal is sent to the engine, and its identifier is
    not in the cache, which was never written. *)
Lemma C8_empty_batch_not_cached :
  ~ (forall (c : @ConsensusStrategy string Tx SimState)
            (rv : @RoundView string) res c1 w1 p,
       EnterRound ctx0 rv (Some tt) c w0 = Ret (res, c1, w1) ->
       EvSendC p true ∈ trace w1 ->
       exists bdr, Get (bdrCache c1) (prop_DataID p) = Some bdr /\
                   Ready bdr = true).
Proof.
  intros Hall.
  destruct (Hall (strategy (Some "A") [] ∅) rv10 None
              (set_curR 0 (set_curH 10 (strategy (Some "A") [] ∅)))
              (mkWorld 1
                 [EvBuffered;
                  EvSendC (mkProposal
                             (gsbd.DataID txsHash 10 0 0 [])
                             (mkAnnotations []
                                (fst (marshal_ba
                                        (mkBlockAnnotation (gsbd.dec 1000)))))
                             (mkAnnotations [] [])) true])
              _ eq_refl
              ltac:(apply list_elem_of_further, list_elem_of_here))
    as (bdr & Hget & _).
  vm_compute in Hget. discriminate.
Qed.

(** * Further properties of the code *)

(** ** Proposer selection *)

Lemma go_index_inv {A} (l : list A) (i : Z) (a : A) :
  go_index l i = Ret a -> 0 <= i /\ l !! Z.to_nat i = Some a.
Proof.
  unfold go_index. destruct (i <? 0) eqn:E; [done|]. zbool.
  destruct (l !! Z.to_nat i) as [x|]; [|done]. by intros [= ->].
Qed.

(** X1. Below the signed range's end the default selection is the round
    robin: for a height and round whose sum is less than 2^63 and a
    non-empty validator set, it returns the validator at index
    (height + round) mod N. *)
Theorem X1_DefaultProposerSelection_round_robin {K} (h r : Z)
    (valSet : ValidatorSet K) (v0 : Validator K) :
  is_uint64 h -> is_uint32 r -> h + r < 2 ^ 63 ->
  Validators valSet <> [] ->
  DefaultProposerSelection h r valSet
    = Ret (nth (Z.to_nat ((h + r) mod Z.of_nat (length (Validators valSet))))
             (Validators valSet) v0).
Proof.
  intros Hh Hr Hsum Hne.
  destruct (DefaultProposerSelection_in_range h r valSet Hh Hr Hsum Hne)
    as (Hb & v & -> & Hv).
  f_equal. symmetry. by apply nth_lookup_Some.
Qed.

Lemma X1_DefaultProposerSelection_round_robin_witness :
  DefaultProposerSelection 10 1 vals = Ret valB.
Proof.
  apply (X1_DefaultProposerSelection_round_robin 10 1 vals
           valB);
    unfold is_uint64, is_uint32; try (vm_compute; intuition congruence).
Defined.

(** X2. Whatever the height and round, a validator the default selection
    returns is a member of the validator set; and the selection panics
    exactly when the set is empty or the remainder of the wrapped sum is
    negative. *)
Theorem X2_DefaultProposerSelection_member_or_panic {K} (h r : Z)
    (valSet : ValidatorSet K) :
  (forall v, DefaultProposerSelection h r valSet = Ret v ->
             v ∈ Validators valSet) /\
  ((exists msg, DefaultProposerSelection h r valSet = Panic msg) <->
   Validators valSet = [] \/
   Z.rem (wrap_int (wrap_int h + wrap_int r))
     (Z.of_nat (length (Validators valSet))) < 0).
Proof.
  unfold DefaultProposerSelection, go_rem.
  set (N := Z.of_nat (length (Validators valSet))).
  set (s := wrap_int (wrap_int h + wrap_int r)).
  destruct (N =? 0) eqn:EN; zbool.
  - split; [done|]. split; [|by eexists].
    intros _. left. subst N. by destruct (Validators valSet).
  - assert (HN : 0 < N) by (subst N; lia).
    pose proof (Z.rem_bound_abs s N EN) as Hab.
    split.
    + intros v Hv. apply go_index_inv in Hv as [_ Hv].
      by eapply list_elem_of_lookup_2.
    + split.
      * intros [msg Hp]. right. unfold go_index in Hp.
        destruct (Z.rem s N <? 0) eqn:E; zbool; [done|].
        destruct (lookup_lt_is_Some_2 (Validators valSet)
                    (Z.to_nat (Z.rem s N))) as [v Hv]; [subst N; lia|].
        by rewrite Hv in Hp.
      * intros [Hnil|Hneg].
        { subst N. rewrite Hnil in EN. done. }
        unfold go_index. destruct (Z.rem s N <? 0) eqn:E; zbool; [|lia].
        by eexists.
Qed.

(** X3. Below the signed range's end every validator has a turn in any N
    consecutive rounds of a height: for each validator of the set there is
    a round among r, ..., r + N - 1 at which the default selection returns
    it. *)
Theorem X3_DefaultProposerSelection_every_validator_has_a_turn {K}
    (h r : Z) (valSet : ValidatorSet K) (i : nat) (v : Validator K) :
  let N := Z.of_nat (length (Validators valSet)) in
  is_uint64 h -> is_uint32 r -> is_uint32 (r + N) -> h + r + N <= 2 ^ 63 ->
  Validators valSet !! i = Some v ->
  exists k, 0 <= k < N /\ DefaultProposerSelection h (r + k) valSet = Ret v.
Proof.
  intros N Hh Hr HrN Hsum Hi.
  assert (HiN : Z.of_nat i < N).
  { subst N. apply lookup_lt_Some in Hi. lia. }
  assert (HN : 0 < N) by lia.
  set (k := (Z.of_nat i - (h + r)) mod N).
  pose proof (Z.mod_pos_bound (Z.of_nat i - (h + r)) N HN) as Hk. fold k in Hk.
  assert (Hmod : (h + (r + k)) mod N = Z.of_nat i).
  { replace (h + (r + k)) with ((h + r) + k) by lia. unfold k.
    rewrite Zplus_mod_idemp_r.
    replace (h + r + (Z.of_nat i - (h + r))) with (Z.of_nat i) by lia.
    apply Z.mod_small. lia. }
  clearbody k. exists k. split; [done|].
  unfold is_uint64, is_uint32, uint64_max, uint32_max in *.
  destruct (DefaultProposerSelection_in_range h (r + k) valSet)
    as (_ & v' & -> & Hv'); unfold is_uint64, is_uint32, uint64_max,
      uint32_max; try lia.
  { intros Hnil. by rewrite Hnil in Hi. }
  fold N in Hv'. rewrite Hmod, Nat2Z.id in Hv'. congruence.
Qed.

Lemma X3_DefaultProposerSelection_every_validator_has_a_turn_witness :
  exists k, 0 <= k < 3 /\
    DefaultProposerSelection 10 (5 + k) vals3 = Ret valC.
Proof.
  assert (H64 : is_uint64 10) by (vm_compute; intuition congruence).
  assert (H32 : is_uint32 5) by (vm_compute; intuition congruence).
  assert (H32' : is_uint32 (5 + 3)) by (vm_compute; intuition congruence).
  assert (Hsum : 10 + 5 + 3 <= 2 ^ 63) by (vm_compute; congruence).
  exact (X3_DefaultProposerSelection_every_validator_has_a_turn
           10 5 vals3 2 valC H64 H32 H32' Hsum eq_refl).
Defined.

(** ** The strategy: what a hook touches *)

Section StrategyExtras.
Context {K : Type} `{PubKeyIface K}.
Context {Tx SimState : Type} `{Imports Tx}.
Implicit Types (c : @ConsensusStrategy K Tx SimState).
Implicit Types (w : @World Tx SimState) (ph : @ProposedHeader K).
Implicit Types (txs : list Tx) (s : SimState).

Lemma log_not_retrieve (e : @Event Tx SimState) :
  is_log e -> ~ is_retrieve e.
Proof. intros (lvl & msg & ->) (id & md & Heq). discriminate. Qed.

Lemma chain_calls_simulation (a : @AppManager Tx SimState) prev txs :
  Forall is_simulation (chain_calls a prev txs).
Proof.
  revert prev. induction txs as [|tx txs IH]; intros prev; simpl;
    [constructor|].
  constructor.
  - destruct prev; [right|left]; by repeat eexists.
  - destruct (sim_at a prev tx) as [[res s'] err].
    destruct err; [constructor|].
    destruct (tr_Error res); [constructor|]. apply IH.
Qed.

Lemma simulation_not_retrieve (e : @Event Tx SimState) :
  is_simulation e -> ~ is_retrieve e.
Proof.
  intros [(tx & ->)|(s & tx & ->)] (id & md & Heq); discriminate.
Qed.

(** The annotation check leaves the strategy alone, reads the clock at most
    once and only logs. *)
Lemma check_annotation_frame ph c w v c' w' :
  check_annotation ph c w = Ret (v, c', w') ->
  c' = c /\
  (ticks w <= ticks w' <= S (ticks w))%nat /\
  exists logs, trace w' = trace w ++ logs /\ Forall is_log logs.
Proof.
  destruct (claimed_time ph) as [bt|] eqn:Hct.
  - destruct (Z.le_gt_cases bt (time_Now (ticks w))) as [Hle|Hgt].
    + rewrite (check_annotation_accept ph c w bt Hct Hle).
      intros [= <- <- <-]. simpl. split; [done|]. split; [lia|].
      exists []. by rewrite app_nil_r.
    + rewrite (check_annotation_future ph c w bt Hct Hgt).
      intros [= <- <- <-]. simpl. split; [done|]. split; [lia|].
      eexists [_]. split; [done|]. repeat constructor. by eexists _, _.
  - destruct (check_annotation_no_time ph c w Hct) as [msg ->].
    intros [= <- <- <-]. simpl. split; [done|]. split; [lia|].
    eexists [_]. split; [done|]. repeat constructor. by eexists _, _.
Qed.

(** What one turn of the loop can have done when it returns. *)
Lemma PH_LOOP_body_frame ph c w v c' w' :
  PH_LOOP_body ph c w = Ret (v, c', w') ->
  exists evs,
    trace w' = trace w ++ evs /\
    (ticks w <= ticks w' <= S (ticks w))%nat /\
    ((c' = c /\ Forall (fun e => ~ is_retrieve e) evs /\
      ~ needs_retrieval c ph) \/
     (needs_retrieval c ph /\ v = Continue /\
      c' = set_bdrCache
             (snd (Retrieve (pbdr c) (bdrCache c) (data_id ph)
                     (Driver (ph_Annotations ph)))) c /\
      exists logs,
        evs = EvRetrieve (data_id ph) (Driver (ph_Annotations ph)) :: logs /\
        Forall is_log logs)).
Proof.
  intros Hrun.
  destruct (in_round_dec c ph) as [[p Hin]|Hno].
  2:{ destruct (PH_LOOP_body_not_in_round ph c w Hno) as [msg Hc].
      rewrite Hc in Hrun. injection Hrun as <- <- <-. simpl.
      eexists [_]. split; [done|]. split; [lia|]. left.
      split; [done|]. split.
      - repeat constructor. intros (id & md & Heq). discriminate.
      - intros (q & Hq & _). by apply (Hno q). }
  rewrite (PH_LOOP_body_in_round ph c w p Hin) in Hrun.
  unfold after_round_checks in Hrun.
  unfold mbind at 1, M_bind at 1 in Hrun.
  destruct (pid_nTxs p =? 0) eqn:En; simpl in Hrun; zbool.
  - unfold mret, M_ret in Hrun.
    apply check_annotation_frame in Hrun as (-> & Ht & logs & Htr & Hlogs).
    exists logs. split; [done|]. split; [done|]. left.
    split; [done|]. split.
    + eapply Forall_impl; [exact Hlogs|]. apply log_not_retrieve.
    + intros (q & Hq & Hqn & _).
      by rewrite (in_round_unique c ph q p Hq Hin) in Hqn.
  - destruct (Get (bdrCache c) (data_id ph)) as [bdr|] eqn:Hget.
    2:{ pose proof (check_block_data_absent ph c w Hget)
          as (logs & Hc & Hl).
        rewrite Hc in Hrun. injection Hrun as <- <- <-. simpl.
        eexists. split; [done|]. split; [lia|]. right.
        split; [by exists p|]. split; [done|]. split; [done|].
        exists logs. split; [done|]. rewrite Hl.
        destruct (fst _); repeat constructor. by eexists _, _. }
    assert (Hnr : ~ needs_retrieval c ph).
    { intros (q & _ & _ & Hq). congruence. }
    destruct (Ready bdr) eqn:Hready.
    2:{ rewrite (check_block_data_not_ready ph c w bdr Hget Hready) in Hrun.
        injection Hrun as <- <- <-. exists [].
        rewrite app_nil_r. split; [done|]. split; [lia|]. by left. }
    destruct (decide (Transactions bdr = [])) as [Hnil|Hne].
    { destruct (check_block_data_empty_batch ph c w bdr Hget Hready Hnil)
        as [msg Hc]. rewrite Hc in Hrun. discriminate. }
    destruct (check_block_data_ready ph c w bdr Hget Hready Hne)
      as (lvl & msg & Hc).
    rewrite Hc in Hrun.
    pose proof (chain_calls_simulation (am c) None (Transactions bdr))
      as Hsim.
    destruct (chain_ok (am c) None (Transactions bdr)).
    + apply check_annotation_frame in Hrun
        as (-> & Ht & logs & Htr & Hlogs). simpl in *.
      exists (chain_calls (am c) None (Transactions bdr) ++ logs).
      rewrite Htr, app_nil_r, <- app_assoc.
      split; [done|]. split; [done|]. left.
      split; [done|]. split; [|done].
      apply Forall_app. split.
      * eapply Forall_impl; [exact Hsim|]. apply simulation_not_retrieve.
      * eapply Forall_impl; [exact Hlogs|]. apply log_not_retrieve.
    + injection Hrun as <- <- <-. simpl.
      eexists. split; [done|]. split; [lia|]. left.
      split; [done|]. split; [|done].
      apply Forall_app. split.
      * eapply Forall_impl; [exact Hsim|]. apply simulation_not_retrieve.
      * repeat constructor. intros (id & md & Heq). discriminate.
Qed.

Lemma set_bdrCache_twice (rc rc' : @RequestCache Tx) c :
  set_bdrCache rc (set_bdrCache rc' c) = set_bdrCache rc c.
Proof. done. Qed.

Lemma PH_LOOP_frame phs c w r c' w' :
  PH_LOOP phs c w = Ret (r, c', w') ->
  c' = set_bdrCache (bdrCache c') c /\
  (ticks w <= ticks w' <= ticks w + length phs)%nat /\
  exists evs, trace w' = trace w ++ evs.
Proof.
  revert c w. induction phs as [|ph phs IH]; intros c w Hrun.
  - injection Hrun as <- <- <-. rewrite set_bdrCache_id. simpl.
    split; [done|]. split; [lia|]. exists []. by rewrite app_nil_r.
  - destruct (PH_LOOP_body ph c w) as [[[v c1] w1]|msg] eqn:Hb.
    2:{ simpl in Hrun. unfold mbind at 1, M_bind at 1 in Hrun.
        by rewrite Hb in Hrun. }
    destruct (PH_LOOP_body_frame ph c w v c1 w1 Hb)
      as (evs & Htr & Ht & Hc).
    assert (Hc1 : c1 = set_bdrCache (bdrCache c1) c).
    { destruct Hc as [(-> & _)|(_ & _ & -> & _)];
        [by rewrite set_bdrCache_id|done]. }
    destruct v as [|hash].
    + rewrite (PH_LOOP_continue ph phs c w c1 w1 Hb) in Hrun.
      destruct (IH c1 w1 Hrun) as (Hc' & Ht' & evs' & Htr').
      split; [|split].
      * rewrite Hc', Hc1. by rewrite set_bdrCache_twice.
      * simpl. lia.
      * exists (evs ++ evs'). by rewrite Htr', Htr, app_assoc.
    + rewrite (PH_LOOP_return ph phs c w hash c1 w1 Hb) in Hrun.
      injection Hrun as <- <- <-.
      split; [done|]. split; [simpl; lia|]. by exists evs.
Qed.

(** X4. ConsiderProposedBlocks changes nothing of the strategy but the
    request cache: when it returns, the round context, the signer key and
    every collaborator are the ones it was called with. It reads the clock
    at most once per candidate, and only adds to the record of calls. *)
Theorem X4_ConsiderProposedBlocks_keeps_strategy
    (phs : list (@ProposedHeader K)) (reason : ConsiderProposedBlocksReason)
    c w r c' w' :
  ConsiderProposedBlocks phs reason c w = Ret (r, c', w') ->
  curH c' = curH c /\ curR c' = curR c /\
  signerPubKey c' = signerPubKey c /\
  am c' = am c /\ txBuf c' = txBuf c /\ provider c' = provider c /\
  pbdr c' = pbdr c /\ proposerSelection c' = proposerSelection c /\
  (ticks w <= ticks w' <= ticks w + length phs)%nat /\
  exists evs, trace w' = trace w ++ evs.
Proof.
  unfold ConsiderProposedBlocks. intros Hrun.
  apply PH_LOOP_frame in Hrun as (Hc & Ht & Hev).
  rewrite Hc at 1 2 3 4 5 6 7 8. simpl.
  repeat split; try done; lia.
Qed.

(** X5. A turn of the consideration loop calls the retriever exactly when
    the candidate is for the current round, has a non-zero transaction
    count and an identifier that is not in the cache; in every other turn
    the cache is left as it was. *)
Theorem X5_retrieval_only_for_absent_data ph c w v c' w' :
  PH_LOOP_body ph c w = Ret (v, c', w') ->
  exists evs,
    trace w' = trace w ++ evs /\
    (Exists is_retrieve evs <-> needs_retrieval c ph) /\
    (~ needs_retrieval c ph -> c' = c).
Proof.
  intros Hrun.
  destruct (PH_LOOP_body_frame ph c w v c' w' Hrun)
    as (evs & Htr & _ & [(-> & Hnone & Hno)|(Hyes & _ & _ & logs & -> & _)]).
  - exists evs. split; [done|]. split; [|done]. split; [|done].
    intros Hex. apply Exists_exists in Hex as (e & Hin & He).
    rewrite Forall_forall in Hnone. by destruct (Hnone e Hin).
  - eexists. split; [done|]. split; [|done]. split; [done|].
    intros _. constructor. by eexists _, _.
Qed.


(** X7. A candidate of the current round whose identifier says zero
    transactions is judged on its annotation alone: the cache is not
    consulted, nothing is retrieved or simulated, and it is accepted as
    soon as its claimed time is not after the clock reading, whatever the
    cache holds. *)
Theorem X7_empty_batch_needs_no_data ph p c w :
  in_round c ph p ->
  pid_nTxs p = 0 ->
  (forall bt, claimed_time ph = Some bt -> bt <= time_Now (ticks w) ->
     PH_LOOP_body ph c w
       = Ret (Return (string_of_bytes (hdr_Hash (ph_Header ph))), c,
              mkWorld (S (ticks w)) (trace w))) /\
  (forall v c' w',
     PH_LOOP_body ph c w = Ret (v, c', w') ->
     c' = c /\ exists logs, trace w' = trace w ++ logs /\ Forall is_log logs).
Proof.
  intros Hin Hn.
  assert (Hbody : PH_LOOP_body ph c w = check_annotation ph c w).
  { rewrite (PH_LOOP_body_in_round ph c w p Hin).
    unfold after_round_checks. rewrite Hn. done. }
  rewrite Hbody. split.
  - intros bt Hct Hle. by apply check_annotation_accept with bt.
  - intros v c' w' Hrun.
    by apply check_annotation_frame in Hrun as (-> & _ & Hlogs).
Qed.

(** X8. The candidates after the accepted one are not looked at: the hook
    returns in the state the accepted candidate's turn left, and gives the
    same result as on the list cut after that candidate. *)
Theorem X8_candidates_after_accepted_untouched
    (pre post : list (@ProposedHeader K)) ph
    (reason : ConsiderProposedBlocksReason) c w c1 w1 hash c2 w2 :
  skips pre c w c1 w1 ->
  PH_LOOP_body ph c1 w1 = Ret (Return hash, c2, w2) ->
  ConsiderProposedBlocks (pre ++ ph :: post) reason c w
    = Ret ((hash, None), c2, w2) /\
  ConsiderProposedBlocks (pre ++ ph :: post) reason c w
    = ConsiderProposedBlocks (pre ++ [ph]) reason c w.
Proof.
  intros Hsk Hacc. unfold ConsiderProposedBlocks.
  rewrite !(PH_LOOP_skips pre _ c w c1 w1 Hsk).
  by rewrite !(PH_LOOP_return ph _ c1 w1 hash c2 w2 Hacc).
Qed.

(** X9. ChooseProposedBlock never returns an error: it returns the hash
    that ConsiderProposedBlocks accepts, or the empty string when
    ConsiderProposedBlocks reports not ready, and leaves the strategy and
    the world as ConsiderProposedBlocks does. *)
Theorem X9_ChooseProposedBlock_no_error (phs : list (@ProposedHeader K))
    (reason : ConsiderProposedBlocksReason) c w hash err c' w' :
  ChooseProposedBlock phs c w = Ret ((hash, err), c', w') ->
  err = None /\
  (ConsiderProposedBlocks phs reason c w = Ret ((hash, None), c', w') \/
   (hash = ""%string /\
    ConsiderProposedBlocks phs reason c w
      = Ret ((""%string, Some ErrProposedBlockChoiceNotReady), c', w'))).
Proof.
  unfold ChooseProposedBlock, ConsiderProposedBlocks.
  unfold mbind at 1, M_bind at 1.
  destruct (PH_LOOP phs c w) as [[[[h e] c1] w1]|msg] eqn:Hrun; [|done].
  apply PH_LOOP_inv in Hrun as Hinv.
  destruct Hinv as [(-> & _)|(-> & -> & _)]; mrun.
  - intros [= <- <- <- <-]. split; [done|]. by left.
  - intros [= <- <- <- <-]. split; [done|]. by right.
Qed.


(** *** Round entry *)

Lemma provide_block_data_cases txs c w :
  (txs = [] /\
   provide_block_data txs c w
     = Ret (inr (DataID (curH c) (curR c) 0 [], []), c, w)) \/
  (txs <> [] /\
   exists res e,
     Provide (provider c) (curH c) (curR c) txs = (res, Some e) /\
     provide_block_data txs c w
       = Ret (inl ("failed to provide block data: " +:+ e), c,
              mkWorld (ticks w)
                (trace w ++ [EvProvide (curH c) (curR c) txs]))) \/
  (txs <> [] /\
   exists res pda e,
     Provide (provider c) (curH c) (curR c) txs = (res, None) /\
     json_Marshal_ProposalDriverAnnotation
       (mkProposalDriverAnnotation (pr_Addrs res)) = (pda, Some e) /\
     provide_block_data txs c w
       = Ret (inl ("failed to marshal proposal driver annotations: " +:+ e),
              c,
              mkWorld (ticks w)
                (trace w ++ [EvProvide (curH c) (curR c) txs]))) \/
  (txs <> [] /\
   exists res pda,
     Provide (provider c) (curH c) (curR c) txs = (res, None) /\
     json_Marshal_ProposalDriverAnnotation
       (mkProposalDriverAnnotation (pr_Addrs res)) = (pda, None) /\
     provide_block_data txs c w
       = Ret (inr (pr_DataID res, pda),
              set_bdrCache
                (SetImmediatelyAvailable (bdrCache c) (pr_DataID res) txs
                   (pr_Encoded res)) c,
              mkWorld (ticks w)
                (trace w ++ [EvProvide (curH c) (curR c) txs;
                             EvSetImmediatelyAvailable (pr_DataID res) txs
                               (pr_Encoded res)]))).
Proof.
  destruct txs as [|tx txs]; [by left|]. right.
  set (l := tx :: txs). assert (Hne : l <> []) by done. clearbody l.
  destruct (Provide (provider c) (curH c) (curR c) l) as [res err] eqn:Hp.
  destruct err as [e|].
  - left. split; [done|]. exists res, e. split; [done|].
    unfold provide_block_data. mrun.
    destruct (decide (length l = 0%nat)) as [Hlen|Hlen];
      [by destruct l|].
    mrun. by rewrite Hp.
  - right.
    destruct (json_Marshal_ProposalDriverAnnotation
                (mkProposalDriverAnnotation (pr_Addrs res)))
      as [pda err] eqn:Hm.
    destruct err as [e|].
    + left. split; [done|]. exists res, pda, e. split; [done|].
      split; [done|].
      unfold provide_block_data. mrun.
      destruct (decide (length l = 0%nat)) as [Hlen|Hlen];
        [by destruct l|].
      mrun. by rewrite Hp, Hm.
    + right. split; [done|]. exists res, pda. split; [done|].
      split; [done|]. by apply provide_block_data_nonempty.
Qed.

Lemma EnterRound_marshal_fails ctx (rv : @RoundView K) c w v ba e :
  proposerSelection c (rv_Height rv) (rv_Round rv) (rv_ValidatorSet rv)
    = Ret v ->
  pk_Equal (PubKey v) (signerPubKey c) = true ->
  json_Marshal_BlockAnnotation
    (mkBlockAnnotation (time_Format_RFC3339 (time_Now (ticks w))))
    = (ba, Some e) ->
  EnterRound ctx rv (Some tt) c w
    = Ret (Some ("failed to marshal block driver annotations: " +:+ e),
           entered rv c, mkWorld (S (ticks w)) (trace w)).
Proof.
  intros Hsel Heq Hba. unfold EnterRound. mrun.
  set (sk := signerPubKey c) in *.
  destruct sk as [k|]; simpl; rewrite Hsel; simpl; rewrite Heq; simpl;
    by rewrite Hba.
Qed.

Lemma EnterRound_nil_channel ctx (rv : @RoundView K) c w v :
  proposerSelection c (rv_Height rv) (rv_Round rv) (rv_ValidatorSet rv)
    = Ret v ->
  pk_Equal (PubKey v) (signerPubKey c) = true ->
  EnterRound ctx rv None c w
    = if existsb (fun ph => pk_Equal (PubKey v) (ph_ProposerPubKey ph))
           (rv_ProposedHeaders rv)
      then Ret (None, entered rv c, w)
      else Panic ("BUG: proposalOut channel was nil when we "
                  +:+ "were supposed to propose").
Proof.
  intros Hsel Heq. unfold EnterRound. mrun.
  set (sk := signerPubKey c) in *.
  destruct sk as [k|]; simpl; rewrite Hsel; simpl; rewrite Heq; simpl;
    by destruct (existsb _ _).
Qed.

(** Every way round entry can return. *)
Lemma EnterRound_cases ctx (rv : @RoundView K) out c w e c' w' :
  EnterRound ctx rv out c w = Ret (e, c', w') ->
  (e = None /\ c' = entered rv c /\ w' = w /\
   (out = None \/
    exists v,
      proposerSelection c (rv_Height rv) (rv_Round rv) (rv_ValidatorSet rv)
        = Ret v /\
      pk_Equal (PubKey v) (signerPubKey c) = false)) \/
  (out = Some tt /\ c' = entered rv c /\ ticks w' = S (ticks w) /\
   exists msg,
     e = Some msg /\
     (trace w' = trace w \/
      trace w' = trace w ++ [EvBuffered;
                             EvProvide (rv_Height rv) (rv_Round rv)
                               (Buffered (txBuf c))])) \/
  (out = Some tt /\ ticks w' = S (ticks w) /\ e = ctx_Cause ctx /\
   exists p tail,
     Forall is_log tail /\
     ((Buffered (txBuf c) = [] /\ c' = entered rv c /\
       prop_DataID p = DataID (rv_Height rv) (rv_Round rv) 0 [] /\
       trace w' = trace w ++ [EvBuffered; EvSendC p (handoff_accepted ctx)]
                    ++ tail) \/
      (exists res,
         Provide (provider c) (rv_Height rv) (rv_Round rv)
           (Buffered (txBuf c)) = (res, None) /\
         prop_DataID p = pr_DataID res /\
         c' = set_bdrCache
                (SetImmediatelyAvailable (bdrCache c) (pr_DataID res)
                   (Buffered (txBuf c)) (pr_Encoded res)) (entered rv c) /\
         trace w' = trace w
                      ++ [EvBuffered;
                          EvProvide (rv_Height rv) (rv_Round rv)
                            (Buffered (txBuf c));
                          EvSetImmediatelyAvailable (pr_DataID res)
                            (Buffered (txBuf c)) (pr_Encoded res);
                          EvSendC p (handoff_accepted ctx)] ++ tail))).
Proof.
  intros Hrun.
  destruct (proposerSelection c (rv_Height rv) (rv_Round rv)
              (rv_ValidatorSet rv)) as [v|msg] eqn:Hsel.
  2:{ by rewrite (EnterRound_selection_panics ctx rv out c w msg Hsel)
        in Hrun. }
  destruct (pk_Equal (PubKey v) (signerPubKey c)) eqn:Heq.
  2:{ rewrite (EnterRound_not_selected ctx rv out c w v Hsel Heq) in Hrun.
      injection Hrun as <- <- <-. left. repeat split; try done.
      right. by exists v. }
  destruct out as [[]|].
  2:{ rewrite (EnterRound_nil_channel ctx rv c w v Hsel Heq) in Hrun.
      destruct (existsb _ _); [|done].
      injection Hrun as <- <- <-. left. repeat split; try done. by left. }
  right.
  destruct (json_Marshal_BlockAnnotation
              (mkBlockAnnotation (time_Format_RFC3339 (time_Now (ticks w)))))
    as [ba err] eqn:Hba.
  destruct err as [x|].
  { rewrite (EnterRound_marshal_fails ctx rv c w v ba x Hsel Heq Hba)
      in Hrun.
    injection Hrun as <- <- <-. left. repeat split; try done.
    eexists. split; [done|]. by left. }
  rewrite (EnterRound_proposing ctx rv c w v ba Hsel Heq Hba) in Hrun.
  destruct (provide_block_data_cases (Buffered (txBuf c)) (entered rv c)
              (mkWorld (S (ticks w)) (trace w ++ [EvBuffered])))
    as [(Hnil & Hp)|[(Hne & res & x & Hprov & Hp)
       |[(Hne & res & pda & x & Hprov & Hm & Hp)
        |(Hne & res & pda & Hprov & Hm & Hp)]]];
    rewrite Hp in Hrun; simpl in Hrun.
  - match type of Hrun with
    | context [SendC ctx ?p ?c1 ?w1] =>
        destruct (SendC_spec ctx p c1 w1) as (tail & Hs & Htail);
        rewrite Hs in Hrun; injection Hrun as <- <- <-;
        right; repeat split; try done; exists p, tail
    end.
    split; [done|]. left. simpl. rewrite <- !app_assoc. by repeat split.
  - injection Hrun as <- <- <-. left. repeat split; try done.
    eexists. split; [done|]. right. simpl. by rewrite <- app_assoc.
  - injection Hrun as <- <- <-. left. repeat split; try done.
    eexists. split; [done|]. right. simpl. by rewrite <- app_assoc.
  - match type of Hrun with
    | context [SendC ctx ?p ?c1 ?w1] =>
        destruct (SendC_spec ctx p c1 w1) as (tail & Hs & Htail);
        rewrite Hs in Hrun; injection Hrun as <- <- <-;
        right; repeat split; try done; exists p, tail
    end.
    split; [done|]. right. exists res. simpl.
    rewrite <- !app_assoc. by repeat split.
Qed.

(** X10. Whenever EnterRound returns, the strategy holds the height and
    round of the round view as its round context, the signer key and the
    collaborators are unchanged, the clock was read at most once, and the
    cache is either as it was or has gained the record of the batch the
    hook itself proposed. *)
Theorem X10_EnterRound_records_round_context ctx (rv : @RoundView K) out
    c w e c' w' :
  EnterRound ctx rv out c w = Ret (e, c', w') ->
  curH c' = rv_Height rv /\ curR c' = rv_Round rv /\
  signerPubKey c' = signerPubKey c /\
  am c' = am c /\ txBuf c' = txBuf c /\ provider c' = provider c /\
  pbdr c' = pbdr c /\ proposerSelection c' = proposerSelection c /\
  (ticks w <= ticks w' <= S (ticks w))%nat /\
  (bdrCache c' = bdrCache c \/
   exists res,
     Provide (provider c) (rv_Height rv) (rv_Round rv) (Buffered (txBuf c))
       = (res, None) /\
     bdrCache c'
       = SetImmediatelyAvailable (bdrCache c) (pr_DataID res)
           (Buffered (txBuf c)) (pr_Encoded res)).
Proof.
  intros Hrun.
  destruct (EnterRound_cases ctx rv out c w e c' w' Hrun)
    as [(_ & -> & -> & _)|[(_ & -> & Ht & _)
       |(_ & Ht & _ & p & tail & _ &
         [(_ & -> & _)|(res & Hprov & _ & -> & _)])]];
    simpl; repeat split; try done; try lia; try (by left).
  right. by exists res.
Qed.

(** X11. A process whose key the selected validator's key does not equal
    does nothing on round entry beyond recording the round context: no
    clock reading, no mempool snapshot, no dissemination, no cache write,
    no proposal, and no error, whether or not it was given a channel. *)
Theorem X11_EnterRound_not_selected_is_idle ctx (rv : @RoundView K) out
    c w v :
  proposerSelection c (rv_Height rv) (rv_Round rv) (rv_ValidatorSet rv)
    = Ret v ->
  pk_Equal (PubKey v) (signerPubKey c) = false ->
  EnterRound ctx rv out c w = Ret (None, entered rv c, w) /\
  bdrCache (entered rv c) = bdrCache c.
Proof.
  intros Hsel Heq. split; [by apply EnterRound_not_selected with v|].
  by destruct c.
Qed.

(** X12. For the selected proposer with a channel, EnterRound returns nil
    exactly when the engine took the proposal: a run that returns an error
    has handed over nothing, and a run that returns nil has sent one
    proposal. *)
Theorem X12_EnterRound_nil_iff_handed_over ctx (rv : @RoundView K)
    c w v e c' w' :
  proposerSelection c (rv_Height rv) (rv_Round rv) (rv_ValidatorSet rv)
    = Ret v ->
  pk_Equal (PubKey v) (signerPubKey c) = true ->
  EnterRound ctx rv (Some tt) c w = Ret (e, c', w') ->
  exists evs,
    trace w' = trace w ++ evs /\
    (e = None <-> exists p, EvSendC p true ∈ evs).
Proof.
  intros Hsel Heq Hrun.
  assert (Hnosend : forall (l : list (@Event Tx SimState)) p,
            Forall is_log l -> EvSendC p true ∉ l).
  { intros l p Hl Hin. rewrite Forall_forall in Hl.
    destruct (Hl _ Hin) as (lvl & msg & Hx). discriminate. }
  destruct (EnterRound_cases ctx rv (Some tt) c w e c' w' Hrun)
    as [(_ & _ & _ & [?|(v' & Hsel' & Heq')])
       |[(_ & _ & _ & msg & -> & Htr)
        |(_ & _ & -> & p & tail & Htail & Htr)]].
  - done.
  - rewrite Hsel in Hsel'. injection Hsel' as <-. congruence.
  - destruct Htr as [Htr|Htr]; eexists; (split;
      [rewrite Htr; try (by rewrite app_nil_r); done|]);
      (split; [done|]); intros [p Hin].
    + by apply elem_of_nil in Hin.
    + apply elem_of_cons in Hin as [?|Hin]; [done|].
      apply elem_of_cons in Hin as [?|Hin]; [done|].
      by apply elem_of_nil in Hin.
  - unfold handoff_accepted in Htr.
    destruct Htr as [(_ & _ & _ & Htr)|(res & _ & _ & _ & Htr)];
      eexists; (split; [exact Htr|]);
      destruct (ctx_Cause ctx) as [x|]; split; try done.
    + intros [q Hin].
      apply elem_of_cons in Hin as [?|Hin]; [done|].
      apply elem_of_cons in Hin as [?|Hin]; [done|].
      by apply Hnosend in Hin.
    + intros _. exists p. set_solver.
    + intros [q Hin].
      apply elem_of_cons in Hin as [?|Hin]; [done|].
      apply elem_of_cons in Hin as [?|Hin]; [done|].
      apply elem_of_cons in Hin as [?|Hin]; [done|].
      apply elem_of_cons in Hin as [?|Hin]; [done|].
      by apply Hnosend in Hin.
    + intros _. exists p. set_solver.
Qed.

(** X13. When the dissemination call fails, EnterRound returns its error
    wrapped as a failure to provide block data, after the mempool snapshot
    and the call itself and nothing more: the cache is not written and no
    proposal is sent. *)
Theorem X13_EnterRound_provide_failure ctx (rv : @RoundView K)
    c w v ba res x :
  proposerSelection c (rv_Height rv) (rv_Round rv) (rv_ValidatorSet rv)
    = Ret v ->
  pk_Equal (PubKey v) (signerPubKey c) = true ->
  json_Marshal_BlockAnnotation
    (mkBlockAnnotation (time_Format_RFC3339 (time_Now (ticks w))))
    = (ba, None) ->
  Buffered (txBuf c) <> [] ->
  Provide (provider c) (rv_Height rv) (rv_Round rv) (Buffered (txBuf c))
    = (res, Some x) ->
  EnterRound ctx rv (Some tt) c w
    = Ret (Some ("failed to provide block data: " +:+ x), entered rv c,
           mkWorld (S (ticks w))
             (trace w ++ [EvBuffered;
                          EvProvide (rv_Height rv) (rv_Round rv)
                            (Buffered (txBuf c))])) /\
  bdrCache (entered rv c) = bdrCache c.
Proof.
  intros Hsel Heq Hba Hne Hprov.
  split; [|by destruct c].
  rewrite (EnterRound_proposing ctx rv c w v ba Hsel Heq Hba).
  destruct (provide_block_data_cases (Buffered (txBuf c)) (entered rv c)
              (mkWorld (S (ticks w)) (trace w ++ [EvBuffered])))
    as [(Hnil & _)|[(_ & res' & x' & Hprov' & ->)
       |[(_ & res' & pda & x' & Hprov' & _)
        |(_ & res' & pda & Hprov' & _)]]];
    try done; simpl in Hprov'; rewrite Hprov in Hprov';
    try discriminate.
  injection Hprov' as <- <-. simpl. by rewrite <- app_assoc.
Qed.

(** *** Round entry and consideration together *)

Lemma EnterRound_context ctx (rv : @RoundView K) out c w e c' w' :
  EnterRound ctx rv out c w = Ret (e, c', w') ->
  curH c' = rv_Height rv /\ curR c' = rv_Round rv.
Proof.
  intros Hrun.
  destruct (EnterRound_cases ctx rv out c w e c' w' Hrun)
    as [(_ & -> & _)|[(_ & -> & _)
       |(_ & _ & _ & p & tail & _ &
         [(_ & -> & _)|(res & _ & _ & -> & _)])]]; done.
Qed.

(** X14. The proposer does not fetch its own data. After EnterRound has
    proposed a non-empty batch, a header of that round that carries the
    identifier the dissemination call returned is accepted by the
    consideration loop with the simulation calls only, and no call to the
    retriever, once the batch simulates and the claimed time is not after
    the clock reading; this holds even when the handoff was cancelled. *)
Theorem X14_proposer_accepts_own_proposal ctx (rv : @RoundView K)
    c w v ba res pda :
  proposerSelection c (rv_Height rv) (rv_Round rv) (rv_ValidatorSet rv)
    = Ret v ->
  pk_Equal (PubKey v) (signerPubKey c) = true ->
  json_Marshal_BlockAnnotation
    (mkBlockAnnotation (time_Format_RFC3339 (time_Now (ticks w))))
    = (ba, None) ->
  Buffered (txBuf c) <> [] ->
  Provide (provider c) (rv_Height rv) (rv_Round rv) (Buffered (txBuf c))
    = (res, None) ->
  json_Marshal_ProposalDriverAnnotation
    (mkProposalDriverAnnotation (pr_Addrs res)) = (pda, None) ->
  exists c1 w1,
    EnterRound ctx rv (Some tt) c w = Ret (ctx_Cause ctx, c1, w1) /\
    forall ph p bt w2,
      hdr_Height (ph_Header ph) = rv_Height rv ->
      ph_Round ph = rv_Round rv ->
      data_id ph = pr_DataID res ->
      ParseDataID (pr_DataID res) = Some p ->
      pid_height p = rv_Height rv ->
      pid_round p = rv_Round rv ->
      pid_nTxs p <> 0 ->
      chain_ok (am c) None (Buffered (txBuf c)) = true ->
      claimed_time ph = Some bt ->
      bt <= time_Now (ticks w2) ->
      PH_LOOP_body ph c1 w2
        = Ret (Return (string_of_bytes (hdr_Hash (ph_Header ph))), c1,
               mkWorld (S (ticks w2))
                 (trace w2
                    ++ chain_calls (am c) None (Buffered (txBuf c)))).
Proof.
  intros Hsel Heq Hba Hne Hprov Hpda.
  rewrite (EnterRound_proposing ctx rv c w v ba Hsel Heq Hba).
  rewrite (provide_block_data_nonempty _ (entered rv c) _ res pda
             Hne Hprov Hpda).
  match goal with
  | |- context [SendC ctx ?q ?c1 ?w1] =>
      destruct (SendC_spec ctx q c1 w1) as (tail & -> & _);
      set (cs := c1)
  end.
  eexists cs, _. split; [done|].
  intros ph p bt w2 Hh Hr Hid Hp Hph Hpr Hn Hok Hct Hle.
  assert (Hin : in_round cs ph p).
  { unfold in_round. by rewrite Hid. }
  assert (Hget : Get (bdrCache cs) (data_id ph)
                 = Some (mkBlockDataRequest true (Buffered (txBuf c))
                           (pr_Encoded res))).
  { rewrite Hid. unfold cs. simpl. apply Get_SetImmediatelyAvailable. }
  rewrite (PH_LOOP_body_in_round ph cs w2 p Hin).
  unfold after_round_checks. unfold mbind at 1, M_bind at 1.
  destruct (pid_nTxs p =? 0) eqn:En; zbool; [done|]. simpl.
  destruct (check_block_data_ready ph cs w2 _ Hget eq_refl Hne)
    as (lvl & msg & ->).
  simpl. replace (am cs) with (am c) by done.
  rewrite Hok, app_nil_r.
  by rewrite (check_annotation_accept ph cs _ bt Hct).
Qed.

(** X15. A strategy that NewConsensusStrategy has just built has the round
    context (0, 0): until a round is entered it skips every candidate whose
    header height is not zero, with a debug line and nothing else. *)
Theorem X15_new_strategy_skips_before_first_round
    (cfg : @ConsensusStrategyConfig K Tx SimState) ph w :
  hdr_Height (ph_Header ph) <> 0 ->
  exists msg,
    PH_LOOP_body ph (NewConsensusStrategy cfg) w
      = Ret (Continue, NewConsensusStrategy cfg,
             mkWorld (ticks w) (trace w ++ [EvLog Debug msg])).
Proof.
  intros Hh. apply PH_LOOP_body_not_in_round.
  intros p (Hh' & _). apply Hh. rewrite Hh'.
  unfold NewConsensusStrategy. by destruct (cfg_ProposerSelection cfg).
Qed.

(** X16. A strategy built with no selection function selects by the default
    round robin: on entering a round whose height plus round is below 2^63,
    a process whose key the validator at index (height + round) mod N does
    not equal stays idle. *)
Theorem X16_new_strategy_uses_default_selection
    (cfg : @ConsensusStrategyConfig K Tx SimState) ctx
    (rv : @RoundView K) out w v :
  cfg_ProposerSelection cfg = None ->
  is_uint64 (rv_Height rv) -> is_uint32 (rv_Round rv) ->
  rv_Height rv + rv_Round rv < 2 ^ 63 ->
  Validators (rv_ValidatorSet rv)
    !! Z.to_nat ((rv_Height rv + rv_Round rv)
                 mod Z.of_nat (length (Validators (rv_ValidatorSet rv))))
    = Some v ->
  pk_Equal (PubKey v) (cfg_SignerPubKey cfg) = false ->
  EnterRound ctx rv out (NewConsensusStrategy cfg) w
    = Ret (None, entered rv (NewConsensusStrategy cfg), w).
Proof.
  intros Hnone Hh Hr Hsum Hv Heq.
  assert (Hne : Validators (rv_ValidatorSet rv) <> []).
  { intros Hnil. by rewrite Hnil in Hv. }
  destruct (DefaultProposerSelection_in_range _ _ _ Hh Hr Hsum Hne)
    as (_ & v' & Hsel & Hv').
  rewrite Hv in Hv'. injection Hv' as <-.
  apply EnterRound_not_selected with v.
  - unfold NewConsensusStrategy. by rewrite Hnone.
  - unfold NewConsensusStrategy. by rewrite Hnone.
Qed.

(** X17. After EnterRound has returned for a round view, the consideration
    loop accepts only candidates of that height and round: an accepted
    candidate has the round view's height and round in its header and in
    its data identifier. *)
Theorem X17_only_entered_round_is_accepted ctx (rv : @RoundView K) out
    c w e c1 w1 ph w2 hash c' w' :
  EnterRound ctx rv out c w = Ret (e, c1, w1) ->
  PH_LOOP_body ph c1 w2 = Ret (Return hash, c', w') ->
  hdr_Height (ph_Header ph) = rv_Height rv /\
  ph_Round ph = rv_Round rv /\
  exists p, ParseDataID (data_id ph) = Some p /\
            pid_height p = rv_Height rv /\ pid_round p = rv_Round rv.
Proof.
  intros Hent Hacc.
  destruct (EnterRound_context ctx rv out c w e c1 w1 Hent) as [Hh Hr].
  apply PH_LOOP_body_accept_inv in Hacc
    as ((p & (Hph & Hpr & Hp & Hih & Hir) & _) & _).
  rewrite Hh in Hph, Hih. rewrite Hr in Hpr, Hir.
  split; [done|]. split; [done|]. by exists p.
Qed.

(** A dissemination collaborator that is out of order. *)

End StrategyExtras.

Lemma X4_ConsiderProposedBlocks_keeps_strategy_witness :
  exists r c' w',
    ConsiderProposedBlocks [header_for "h1" [5] 900]
      reason0 (strategyB ∅) w0 = Ret (r, c', w') /\
    curH c' = 10 /\ curR c' = 0.
Proof.
  eexists _, _, _. split; [reflexivity|].
  pose proof (X4_ConsiderProposedBlocks_keeps_strategy
                [header_for "h1" [5] 900] reason0
                (strategyB ∅) w0 _ _ _ eq_refl)
    as (Hh & Hr & _).
  split; [exact Hh|exact Hr].
Defined.

Lemma X5_retrieval_only_for_absent_data_witness :
  PH_LOOP_body (header_for "h1" [5] 900)
    (strategyB {[ id_of [5] := ready [5] ]}) w0
  = Ret (Return "h1", strategyB {[ id_of [5] := ready [5] ]},
         mkWorld 1 [EvSimulate 5]) /\
  (Exists (@is_retrieve Tx SimState) [EvSimulate 5] <->
   needs_retrieval (strategyB {[ id_of [5] := ready [5] ]})
     (header_for "h1" [5] 900)).
Proof.
  assert (Hb : PH_LOOP_body (header_for "h1" [5] 900)
                 (strategyB {[ id_of [5] := ready [5] ]}) w0
               = Ret (Return "h1", strategyB {[ id_of [5] := ready [5] ]},
                      mkWorld 1 [EvSimulate 5])) by reflexivity.
  split; [exact Hb|].
  destruct (X5_retrieval_only_for_absent_data _ _ _ _ _ _ Hb)
    as (evs & Htr & Hiff & _).
  simpl in Htr. subst evs. exact Hiff.
Defined.


Lemma X7_empty_batch_needs_no_data_witness :
  PH_LOOP_body (header_for "h0" [] 900) (strategyB ∅)
    w0
  = Ret (Return "h0", strategyB ∅, mkWorld 1 []).
Proof.
  assert (Hin : in_round (strategyB ∅)
                  (header_for "h0" [] 900)
                  (mkParsedDataID 10 0 0 0 gsbd.zeroHash)).
  { repeat split; vm_compute; reflexivity. }
  apply (proj1 (X7_empty_batch_needs_no_data _ _ _ w0 Hin eq_refl)
           900).
  - vm_compute. reflexivity.
  - vm_compute. discriminate.
Defined.

Lemma X8_candidates_after_accepted_untouched_witness :
  ConsiderProposedBlocks
    [header_for "h0" [] 900; header_for "h1" [5] 900]
    reason0 (strategyB ∅) w0
  = Ret (("h0"%string, None), strategyB ∅, mkWorld 1 []).
Proof.
  assert (Hb : PH_LOOP_body (header_for "h0" [] 900) (strategyB ∅) w0
               = Ret (Return "h0", strategyB ∅, mkWorld 1 []))
    by reflexivity.
  exact (proj1 (X8_candidates_after_accepted_untouched []
                  [header_for "h1" [5] 900] _ reason0 _ _ _ _ _ _ _
                  (skips_nil _ _) Hb)).
Defined.

Lemma X9_ChooseProposedBlock_no_error_witness :
  ChooseProposedBlock [header_for "h1" [5] 1001]
    (strategyB {[ id_of [5] := ready [5] ]}) w0
  = Ret ((""%string, None), strategyB {[ id_of [5] := ready [5] ]},
         mkWorld 1
           [EvSimulate 5;
            EvLog Debug
              "Ignoring proposed block due to block time in the future"]) /\
  @None error = None.
Proof.
  assert (Hb : ChooseProposedBlock [header_for "h1" [5] 1001]
                 (strategyB {[ id_of [5] := ready [5] ]}) w0
               = Ret ((""%string, None),
                      strategyB {[ id_of [5] := ready [5] ]},
                      mkWorld 1
                        [EvSimulate 5;
                         EvLog Debug
                           ("Ignoring proposed block due to block time "
                            +:+ "in the future")])) by reflexivity.
  split; [exact Hb|].
  exact (proj1 (X9_ChooseProposedBlock_no_error _ reason0 _ _ _ _ _ _ Hb)).
Defined.

Lemma X10_EnterRound_records_round_context_witness :
  EnterRound ctx0 rv10 (Some tt) (strategy (Some "B") [5] ∅) w0
    = Ret (None, entered rv10 (strategy (Some "B") [5] ∅), w0) /\
  curH (entered rv10 (strategy (Some "B") [5] ∅)) = rv_Height rv10 /\
  curR (entered rv10 (strategy (Some "B") [5] ∅)) = rv_Round rv10.
Proof.
  assert (Hb : EnterRound ctx0 rv10 (Some tt) (strategy (Some "B") [5] ∅)
                 w0
               = Ret (None, entered rv10 (strategy (Some "B") [5] ∅), w0))
    by reflexivity.
  split; [exact Hb|].
  destruct (X10_EnterRound_records_round_context _ _ _ _ _ _ _ _ Hb)
    as (Hh & Hr & _).
  by split.
Defined.

Lemma X11_EnterRound_not_selected_is_idle_witness :
  EnterRound ctx0 rv10 (Some tt) (strategy (Some "B") [5] ∅) w0
  = Ret (None, set_curR 0 (set_curH 10 (strategy (Some "B") [5] ∅)), w0).
Proof.
  exact (proj1 (@X11_EnterRound_not_selected_is_idle string string_PubKey
                  Tx SimState imports ctx0 rv10 (Some tt)
                  (strategy (Some "B") [5] ∅) w0 valA eq_refl eq_refl)).
Defined.

Lemma X12_EnterRound_nil_iff_handed_over_witness :
  exists c' w' evs,
    EnterRound ctx0 rv10 (Some tt) (strategy (Some "A") [5] ∅) w0
      = Ret (None, c', w') /\
    trace w' = trace w0 ++ evs /\
    (@None error = None <-> exists p, EvSendC p true ∈ evs).
Proof.
  set (enc := list_byte_of_string "encoded").
  set (p := mkProposal (id_of [5])
              (mkAnnotations []
                 (fst (marshal_ba (mkBlockAnnotation (gsbd.dec 1000)))))
              (mkAnnotations []
                 (fst (marshal_pda
                         (mkProposalDriverAnnotation ["/ip4/10.0.0.1"]))))).
  set (cexp := set_bdrCache
                 (SetImmediatelyAvailable ∅ (id_of [5]) [5] enc)
                 (entered rv10 (strategy (Some "A") [5] ∅))).
  set (wexp := mkWorld 1
                 [EvBuffered; EvProvide 10 0 [5];
                  EvSetImmediatelyAvailable (id_of [5]) [5] enc;
                  EvSendC p true] : @World Tx SimState).
  assert (Hb : EnterRound ctx0 rv10 (Some tt) (strategy (Some "A") [5] ∅)
                 w0 = Ret (None, cexp, wexp)) by reflexivity.
  destruct (@X12_EnterRound_nil_iff_handed_over string string_PubKey
              Tx SimState imports ctx0 rv10 (strategy (Some "A") [5] ∅) w0
              valA None cexp wexp eq_refl eq_refl Hb)
    as (evs & Htr & Hiff).
  by exists cexp, wexp, evs.
Defined.

Lemma X13_EnterRound_provide_failure_witness :
  EnterRound ctx0 rv10 (Some tt)
    (mkConsensusStrategy app (mkSDKTxBuf [5]) (Some "A")
       (mkProvider (fun h r txs => (fst (provide h r txs), Some "offline")))
       0 0 (mkPBDRetriever retrieve) ∅ DefaultProposerSelection) w0
  = Ret (Some "failed to provide block data: offline",
         entered rv10
           (mkConsensusStrategy app (mkSDKTxBuf [5]) (Some "A")
              (mkProvider
                 (fun h r txs => (fst (provide h r txs), Some "offline")))
              0 0 (mkPBDRetriever retrieve) ∅ DefaultProposerSelection),
         mkWorld 1 [EvBuffered; EvProvide 10 0 [5]]).
Proof.
  set (cbad := mkConsensusStrategy app (mkSDKTxBuf [5]) (Some "A")
                 (mkProvider
                    (fun h r txs => (fst (provide h r txs), Some "offline")))
                 0 0 (mkPBDRetriever retrieve) ∅ DefaultProposerSelection).
  exact (proj1 (@X13_EnterRound_provide_failure string string_PubKey
                  Tx SimState imports ctx0 rv10 cbad w0 valA
                  (fst (marshal_ba (mkBlockAnnotation (gsbd.dec 1000))))
                  (fst (provide 10 0 [5])) "offline"
                  eq_refl eq_refl eq_refl ltac:(discriminate) eq_refl)).
Defined.

Lemma X14_proposer_accepts_own_proposal_witness :
  exists c1 w1,
    EnterRound ctx0 rv10 (Some tt) (strategy (Some "A") [5] ∅) w0
      = Ret (None, c1, w1) /\
    PH_LOOP_body (header_for "h1" [5] 1000) c1 w1
      = Ret (Return "h1", c1,
             mkWorld (S (ticks w1)) (trace w1 ++ [EvSimulate 5])).
Proof.
  set (enc := list_byte_of_string "encoded").
  set (p := mkProposal (id_of [5])
              (mkAnnotations []
                 (fst (marshal_ba (mkBlockAnnotation (gsbd.dec 1000)))))
              (mkAnnotations []
                 (fst (marshal_pda
                         (mkProposalDriverAnnotation ["/ip4/10.0.0.1"]))))).
  set (cexp := set_bdrCache
                 (SetImmediatelyAvailable ∅ (id_of [5]) [5] enc)
                 (entered rv10 (strategy (Some "A") [5] ∅))).
  set (wexp := mkWorld 1
                 [EvBuffered; EvProvide 10 0 [5];
                  EvSetImmediatelyAvailable (id_of [5]) [5] enc;
                  EvSendC p true] : @World Tx SimState).
  assert (Hb : EnterRound ctx0 rv10 (Some tt) (strategy (Some "A") [5] ∅)
                 w0 = Ret (None, cexp, wexp)) by reflexivity.
  destruct (@X14_proposer_accepts_own_proposal string string_PubKey
              Tx SimState imports ctx0 rv10 (strategy (Some "A") [5] ∅) w0
              valA (fst (marshal_ba (mkBlockAnnotation (gsbd.dec 1000))))
              (fst (provide 10 0 [5]))
              (fst (marshal_pda
                      (mkProposalDriverAnnotation ["/ip4/10.0.0.1"])))
              eq_refl eq_refl eq_refl ltac:(discriminate) eq_refl eq_refl)
    as (c1 & w1 & Hrun & Hacc).
  rewrite Hb in Hrun. injection Hrun as <- <-.
  exists cexp, wexp. split; [exact Hb|].
  apply (Hacc (header_for "h1" [5] 1000)
           (mkParsedDataID 10 0 1 8 (txsHash [5])) 1000 wexp).
  all: try (vm_compute; reflexivity).
  all: vm_compute; discriminate.
Defined.

Lemma X15_new_strategy_skips_before_first_round_witness :
  exists msg,
    PH_LOOP_body (header_for "h1" [5] 900)
      (NewConsensusStrategy
         (mkConsensusStrategyConfig None app (mkSDKTxBuf []) (Some "B")
            (mkProvider provide) (mkPBDRetriever retrieve) ∅)) w0
    = Ret (Continue,
           NewConsensusStrategy
             (mkConsensusStrategyConfig None app (mkSDKTxBuf []) (Some "B")
                (mkProvider provide) (mkPBDRetriever retrieve) ∅),
           mkWorld 0 [EvLog Debug msg]).
Proof.
  exact (@X15_new_strategy_skips_before_first_round string
           Tx SimState imports
           (mkConsensusStrategyConfig None app (mkSDKTxBuf []) (Some "B")
              (mkProvider provide) (mkPBDRetriever retrieve) ∅)
           (header_for "h1" [5] 900) w0 ltac:(vm_compute; discriminate)).
Defined.

Lemma X16_new_strategy_uses_default_selection_witness :
  EnterRound ctx0 rv10 (Some tt)
    (NewConsensusStrategy
       (mkConsensusStrategyConfig None app (mkSDKTxBuf []) (Some "B")
          (mkProvider provide) (mkPBDRetriever retrieve) ∅)) w0
  = Ret (None,
         entered rv10
           (NewConsensusStrategy
              (mkConsensusStrategyConfig None app (mkSDKTxBuf [])
                 (Some "B") (mkProvider provide) (mkPBDRetriever retrieve)
                 ∅)),
         w0).
Proof.
  apply (@X16_new_strategy_uses_default_selection string string_PubKey
           Tx SimState imports
           (mkConsensusStrategyConfig None app (mkSDKTxBuf []) (Some "B")
              (mkProvider provide) (mkPBDRetriever retrieve) ∅)
           ctx0 rv10 (Some tt) w0 valA eq_refl).
  - unfold is_uint64. vm_compute. intuition congruence.
  - unfold is_uint32. vm_compute. intuition congruence.
  - vm_compute. reflexivity.
  - reflexivity.
  - reflexivity.
Defined.

Lemma X17_only_entered_round_is_accepted_witness :
  hdr_Height (ph_Header (header_for "h0" [] 900)) = rv_Height rv10 /\
  ph_Round (header_for "h0" [] 900) = rv_Round rv10 /\
  exists p, ParseDataID (data_id (header_for "h0" [] 900)) = Some p /\
            pid_height p = rv_Height rv10 /\ pid_round p = rv_Round rv10.
Proof.
  assert (He : EnterRound ctx0 rv10 (Some tt) (strategy (Some "B") [] ∅) w0
               = Ret (None, entered rv10 (strategy (Some "B") [] ∅), w0))
    by reflexivity.
  assert (Hb : PH_LOOP_body (header_for "h0" [] 900)
                 (entered rv10 (strategy (Some "B") [] ∅)) w0
               = Ret (Return "h0", entered rv10 (strategy (Some "B") [] ∅),
                      mkWorld 1 [])) by reflexivity.
  exact (X17_only_entered_round_is_accepted _ _ _ _ _ _ _ _ _ _ _ _ _
           He Hb).
Defined.

(** ** More on the precommit decision *)

Lemma total_power_insert (m : gmap string Z) (k : string) (x : Z) :
  m !! k = None -> total_power (<[k := x]> m) = x + total_power m.
Proof.
  intros Hk. unfold total_power.
  apply (map_fold_insert_L (fun _ v acc => v + acc)); [|done].
  intros; lia.
Qed.

Lemma total_power_delete (m : gmap string Z) (k : string) (x : Z) :
  m !! k = Some x -> total_power m = x + total_power (delete k m).
Proof.
  intros Hk. unfold total_power.
  apply (map_fold_delete_L (fun _ v acc => v + acc)); [|done].
  intros; lia.
Qed.

Lemma total_power_nonneg (m : gmap string Z) :
  (forall k v, m !! k = Some v -> 0 <= v) -> 0 <= total_power m.
Proof.
  induction m as [|k x m Hk _ IH] using map_first_key_ind.
  - intros _. unfold total_power. by rewrite map_fold_empty.
  - intros Hpos. rewrite total_power_insert by done.
    assert (0 <= x) by (apply (Hpos k); by rewrite lookup_insert_eq).
    assert (0 <= total_power m).
    { apply IH. intros j v Hj. apply (Hpos j).
      rewrite lookup_insert_ne; [done|]. intros ->. congruence. }
    lia.
Qed.

Lemma two_hashes_within_total (m : gmap string Z) (h1 h2 : string) :
  (forall k v, m !! k = Some v -> 0 <= v) ->
  h1 <> h2 ->
  map_get m h1 + map_get m h2 <= total_power m.
Proof.
  intros Hpos Hne.
  pose proof (total_power_nonneg m Hpos) as Htot.
  assert (Hdel : forall k, (forall j v, delete k m !! j = Some v -> 0 <= v)).
  { intros k j v Hj. apply lookup_delete_Some in Hj as [_ Hj].
    by apply (Hpos j). }
  unfold map_get.
  destruct (m !! h1) as [a|] eqn:H1; destruct (m !! h2) as [b|] eqn:H2;
    simpl.
  - rewrite (total_power_delete m h1 a H1).
    rewrite (total_power_delete (delete h1 m) h2 b)
      by (by rewrite lookup_delete_ne).
    pose proof (total_power_nonneg (delete h2 (delete h1 m))) as Hrest.
    assert (0 <= total_power (delete h2 (delete h1 m))); [|lia].
    apply Hrest. intros j v Hj.
    apply lookup_delete_Some in Hj as [_ Hj]. by apply (Hdel h1 j).
  - rewrite (total_power_delete m h1 a H1).
    pose proof (total_power_nonneg (delete h1 m) (Hdel h1)). lia.
  - rewrite (total_power_delete m h2 b H2).
    pose proof (total_power_nonneg (delete h2 m) (Hdel h2)). lia.
  - lia.
Qed.

(** X18. A most-voted hash with no recorded prevote power, because the map
    has no entry for it or has the entry zero, is never precommitted:
    DecidePrecommit returns the empty value for every available power. *)
Theorem X18_DecidePrecommit_no_power_is_nil (vs : VoteSummary) :
  0 <= AvailablePower vs ->
  PrevoteBlockPower vs !! MostVotedPrevoteHash vs = None \/
  PrevoteBlockPower vs !! MostVotedPrevoteHash vs = Some 0 ->
  DecidePrecommit vs = (""%string, None).
Proof.
  intros Hav Hpow. unfold DecidePrecommit, map_get.
  assert (Hz : default 0 (PrevoteBlockPower vs !! MostVotedPrevoteHash vs)
               = 0) by (by destruct Hpow as [-> | ->]).
  rewrite Hz.
  destruct (0 >=? ByzantineMajority (AvailablePower vs)) eqn:E; [|done].
  zbool. apply ByzantineMajority_spec in E. lia.
Qed.

Lemma X18_DecidePrecommit_no_power_is_nil_witness :
  DecidePrecommit (mkVoteSummary 100 {["b10c" := 67]} "feed")
    = (""%string, None).
Proof.
  apply X18_DecidePrecommit_no_power_is_nil.
  - vm_compute. discriminate.
  - left. vm_compute. reflexivity.
Defined.

(** X19. One tally cannot back two blocks. When the prevote powers recorded
    in a map are non-negative and add up to no more than the available
    power, DecidePrecommit precommits at most one non-empty hash over that
    map: two summaries over it that are precommitted with their own
    most-voted hash name the same hash. *)
Theorem X19_DecidePrecommit_at_most_one_hash (avail : Z)
    (m : gmap string Z) (h1 h2 : string) :
  (forall k v, m !! k = Some v -> 0 <= v) ->
  total_power m <= avail ->
  h1 <> ""%string -> h2 <> ""%string ->
  fst (DecidePrecommit (mkVoteSummary avail m h1)) = h1 ->
  fst (DecidePrecommit (mkVoteSummary avail m h2)) = h2 ->
  h1 = h2.
Proof.
  intros Hpos Htot Hn1 Hn2 Hd1 Hd2.
  destruct (decide (h1 = h2)) as [|Hne]; [done|exfalso].
  unfold DecidePrecommit in Hd1, Hd2. simpl in Hd1, Hd2.
  destruct (map_get m h1 >=? ByzantineMajority avail) eqn:E1;
    [|by symmetry in Hd1].
  destruct (map_get m h2 >=? ByzantineMajority avail) eqn:E2;
    [|by symmetry in Hd2].
  zbool. apply ByzantineMajority_spec in E1, E2.
  pose proof (two_hashes_within_total m h1 h2 Hpos Hne) as Hsum.
  pose proof (total_power_nonneg m Hpos). lia.
Qed.

Lemma X19_DecidePrecommit_at_most_one_hash_witness :
  fst (DecidePrecommit
         (mkVoteSummary 100 {["b10c" := 67; "feed" := 30]} "b10c"))
    = "b10c"%string /\
  "b10c"%string = "b10c"%string.
Proof.
  assert (Hd : fst (DecidePrecommit
                      (mkVoteSummary 100 {["b10c" := 67; "feed" := 30]}
                         "b10c")) = "b10c"%string)
    by (vm_compute; reflexivity).
  split; [exact Hd|].
  apply (X19_DecidePrecommit_at_most_one_hash 100
           {["b10c" := 67; "feed" := 30]} "b10c" "b10c").
  - intros k v Hk.
    apply lookup_insert_Some in Hk as [[_ <-]|[_ Hk]]; [lia|].
    apply lookup_singleton_Some in Hk as [_ <-]. lia.
  - vm_compute. discriminate.
  - discriminate.
  - discriminate.
  - exact Hd.
  - exact Hd.
Defined.

(** ** The gRPC methods *)

(** Membership in a list that is written out. *)
Ltac elem_inv H :=
  repeat (apply elem_of_cons in H as [H|H]; [try discriminate|]);
  try (apply elem_of_nil in H; destruct H).

Ltac elem_in :=
  repeat first [apply list_elem_of_here | apply list_elem_of_further].

Section GrpcProperties.
Context {Tx SimState Msg BalanceResponse : Type}.
Implicit Types (g : @ggrpc.GordianGRPC Tx SimState Msg BalanceResponse).

Lemma append_nonempty (a b : string) : a <> ""%string -> a +:+ b <> ""%string.
Proof. by destruct a. Qed.

(** X20. SubmitTransaction puts a transaction in the buffer only after it
    has decoded and ValidateTx has returned neither an error nor a result
    error, and validation comes before the buffer is touched. *)
Theorem X20_SubmitTransaction_adds_only_validated g (req : bytes) resp err
    calls tx :
  ggrpc.SubmitTransaction g req = (resp, err, calls) ->
  ggrpc.CallAddTx tx ∈ calls ->
  ggrpc.txc_DecodeJSON g req = inl tx /\
  (exists res, ggrpc.am_ValidateTx g tx = (res, None) /\
               ggrpc.res_Error res = None) /\
  calls = [ggrpc.CallValidateTx tx; ggrpc.CallAddTx tx].
Proof.
  unfold ggrpc.SubmitTransaction.
  destruct (ggrpc.txc_DecodeJSON g req) as [tx'|e] eqn:Hd.
  2:{ intros [= <- <- <-] Hin. by apply elem_of_nil in Hin. }
  destruct (ggrpc.am_ValidateTx g tx') as [res verr] eqn:Hv.
  destruct verr as [x|].
  { intros [= <- <- <-] Hin. elem_inv Hin. }
  destruct (ggrpc.res_Error res) as [x|] eqn:Hre.
  { intros [= <- <- <-] Hin. elem_inv Hin. }
  destruct (ggrpc.txBuf_AddTx g tx') as [x|]; intros [= <- <- <-] Hin;
    elem_inv Hin; injection Hin as ->;
    (split; [done|]); (split; [by exists res|done]).
Qed.

(** X21. SubmitTransaction returns exactly one of a response and an error.
    The error is for the failures of the collaborators (ValidateTx or
    AddTx); a transaction that does not decode or is rejected gets a
    response with the reason in its Error field. A response whose Error
    field is empty means the transaction is in the buffer. *)
Theorem X21_SubmitTransaction_response_or_error g (req : bytes) resp err
    calls :
  ggrpc.SubmitTransaction g req = (resp, err, calls) ->
  (resp = None <-> err <> None) /\
  (err <> None <->
   exists tx, ggrpc.txc_DecodeJSON g req = inl tx /\
     (snd (ggrpc.am_ValidateTx g tx) <> None \/
      (snd (ggrpc.am_ValidateTx g tx) = None /\
       ggrpc.res_Error (fst (ggrpc.am_ValidateTx g tx)) = None /\
       ggrpc.txBuf_AddTx g tx <> None))) /\
  (forall r, resp = Some r -> ggrpc.Error r = ""%string ->
     exists tx, ggrpc.CallAddTx tx ∈ calls).
Proof.
  unfold ggrpc.SubmitTransaction.
  destruct (ggrpc.txc_DecodeJSON g req) as [tx|e] eqn:Hd.
  2:{ intros [= <- <- <-]. split; [done|]. split.
      - split; [done|]. by intros (tx & ? & _).
      - intros r [= <-]. simpl. intros Hempty.
        by apply append_nonempty in Hempty. }
  destruct (ggrpc.am_ValidateTx g tx) as [res verr] eqn:Hv.
  destruct verr as [x|].
  { intros [= <- <- <-]. split; [done|]. split; [|done].
    split; [|done]. intros _. exists tx. rewrite Hv. split; [done|].
    by left. }
  destruct (ggrpc.res_Error res) as [x|] eqn:Hre.
  { intros [= <- <- <-]. split; [done|]. split.
    - split; [done|]. intros (tx' & [= <-] & Hc). rewrite Hv in Hc.
      simpl in Hc. destruct Hc as [?|(_ & Hc & _)]; congruence.
    - intros r [= <-]. simpl. intros Hempty.
      by apply append_nonempty in Hempty. }
  destruct (ggrpc.txBuf_AddTx g tx) as [x|] eqn:Ha; intros [= <- <- <-].
  - split; [done|]. split; [|done]. split; [|done].
    intros _. exists tx. rewrite Hv. split; [done|]. right.
    repeat split; try done. by rewrite Ha.
  - split; [done|]. split.
    + split; [done|]. intros (tx' & [= <-] & Hc). rewrite Hv in Hc.
      simpl in Hc. destruct Hc as [?|(_ & _ & Hc)]; [done|].
      by rewrite Ha in Hc.
    + intros r _ _. exists tx. elem_in.
Qed.

(** X22. SimulateTransaction never touches the buffer and never calls
    ValidateTx: it simulates at most once, the transaction the request
    decodes to, and returns exactly one of a response and an error, the
    error only when the simulation itself cannot run. *)
Theorem X22_SimulateTransaction_leaves_buffer g (req : bytes) resp err
    calls :
  ggrpc.SimulateTransaction g req = (resp, err, calls) ->
  (forall tx, (ggrpc.CallAddTx tx ∉ calls) /\
              (ggrpc.CallValidateTx tx ∉ calls)) /\
  (resp = None <-> err <> None) /\
  (err <> None <->
   exists tx, ggrpc.txc_DecodeJSON g req = inl tx /\
              snd (ggrpc.am_Simulate g tx) <> None) /\
  (calls = [] \/
   exists tx, ggrpc.txc_DecodeJSON g req = inl tx /\
     (calls = [ggrpc.CallSimulate tx] \/
      exists msg, calls = [ggrpc.CallSimulate tx; ggrpc.LogWarn msg])).
Proof.
  unfold ggrpc.SimulateTransaction.
  destruct (ggrpc.txc_DecodeJSON g req) as [tx|e] eqn:Hd.
  2:{ intros [= <- <- <-].
      split; [intros tx; split; intros Hin; elem_inv Hin|].
      split; [done|]. split; [|by left].
      split; [done|]. by intros (tx & ? & _). }
  destruct (ggrpc.am_Simulate g tx) as [[res st] serr] eqn:Hs.
  destruct serr as [x|].
  { intros [= <- <- <-].
    split; [intros tx'; split; intros Hin; elem_inv Hin|].
    split; [done|]. split.
    - split; [|done]. intros _. exists tx. by rewrite Hs.
    - right. exists tx. split; [done|]. right. by eexists. }
  destruct (ggrpc.res_Error res) as [x|]; intros [= <- <- <-];
    (split; [intros tx'; split; intros Hin; elem_inv Hin|]);
    (split; [done|]); split.
  - split; [done|]. intros (tx' & [= <-] & Hc). by rewrite Hs in Hc.
  - right. exists tx. split; [done|]. by left.
  - split; [done|]. intros (tx' & [= <-] & Hc). by rewrite Hs in Hc.
  - right. exists tx. split; [done|]. by left.
Qed.

(** X23. QueryAccountBalance refuses a request without an address before
    any query is made. For a request with an address it makes one query at
    version 0, and an empty denomination stands for stake: the request
    gives the same result as the one that names stake. *)
Theorem X23_QueryAccountBalance_address_and_denom g (address : string) :
  ggrpc.QueryAccountBalance g (ggrpc.mkQueryAccountBalanceRequest "" address)
    = (None, Some "address field is required"%string, []) /\
  (address <> ""%string ->
   ggrpc.QueryAccountBalance g
     (ggrpc.mkQueryAccountBalanceRequest address "")
   = ggrpc.QueryAccountBalance g
       (ggrpc.mkQueryAccountBalanceRequest address "stake") /\
   forall denom, exists resp err,
     ggrpc.QueryAccountBalance g
       (ggrpc.mkQueryAccountBalanceRequest address denom)
     = (resp, err,
        [ggrpc.CallQuery 0 address
           (if String.eqb denom "" then "stake"%string else denom)]) /\
     (resp = None <-> err <> None)).
Proof.
  split; [done|]. intros Hne.
  unfold ggrpc.QueryAccountBalance. simpl.
  destruct (String.eqb address "") eqn:E.
  { apply String.eqb_eq in E. done. }
  split; [done|]. intros denom.
  destruct (ggrpc.am_Query g 0 address _) as [msg|x];
    [|by eexists _, _].
  destruct (ggrpc.cdc_MarshalJSON g msg) as [b|x]; [|by eexists _, _].
  destruct (ggrpc.cdc_UnmarshalJSON g b) as [val|x]; by eexists _, _.
Qed.

(** How one event is converted. *)
Lemma convertEvent_ok (e : list ggrpc.event_Event) :
  Forall (fun ev => snd (ggrpc.ee_Attributes ev) = None) e ->
  ggrpc.convertEvent e
    = (map (fun ev =>
              ggrpc.mkEvent (ggrpc.ee_Type ev)
                (map (fun a => ggrpc.mkAttribute (ggrpc.ea_Key a)
                                 (ggrpc.ea_Value a))
                   (fst (ggrpc.ee_Attributes ev)))) e, None).
Proof.
  induction 1 as [|ev e Hev _ IH]; [done|]. simpl.
  destruct (ggrpc.ee_Attributes ev) as [attrs err]. simpl in *. subst err.
  by rewrite IH.
Qed.

Lemma convertEvent_fails (pre post : list ggrpc.event_Event) ev x :
  Forall (fun ev => snd (ggrpc.ee_Attributes ev) = None) pre ->
  snd (ggrpc.ee_Attributes ev) = Some x ->
  ggrpc.convertEvent (pre ++ ev :: post) = ([], Some x).
Proof.
  intros Hpre Hev. induction Hpre as [|ev' pre Hev' _ IH]; simpl.
  - destruct (ggrpc.ee_Attributes ev) as [attrs err]. simpl in *.
    by subst err.
  - destruct (ggrpc.ee_Attributes ev') as [attrs err]. simpl in *.
    subst err. by rewrite IH.
Qed.

(** X24. convertEvent keeps the events in order, one for one, with their
    types and the keys and values of their attributes, when every event's
    attributes can be read; and it returns no events and the error of the
    first event whose attributes cannot be read. *)
Theorem X24_convertEvent_order_and_first_error
    (e : list ggrpc.event_Event) :
  (Forall (fun ev => snd (ggrpc.ee_Attributes ev) = None) e ->
   exists events,
     ggrpc.convertEvent e = (events, None) /\
     length events = length e /\
     forall i ev, e !! i = Some ev ->
       exists out, events !! i = Some out /\
         ggrpc.Type_ out = ggrpc.ee_Type ev /\
         map ggrpc.Key (ggrpc.Attributes out)
           = map ggrpc.ea_Key (fst (ggrpc.ee_Attributes ev)) /\
         map ggrpc.Value (ggrpc.Attributes out)
           = map ggrpc.ea_Value (fst (ggrpc.ee_Attributes ev))) /\
  (forall pre ev post x,
     e = pre ++ ev :: post ->
     Forall (fun ev => snd (ggrpc.ee_Attributes ev) = None) pre ->
     snd (ggrpc.ee_Attributes ev) = Some x ->
     ggrpc.convertEvent e = ([], Some x)).
Proof.
  split.
  - intros Hok. eexists. split; [by apply convertEvent_ok|].
    split; [by rewrite length_map|].
    intros i ev Hi. eexists. split.
    { rewrite list_lookup_fmap, Hi. done. }
    simpl. rewrite !map_map. by repeat split.
  - intros pre ev post x -> Hpre Hev. by apply convertEvent_fails.
Qed.

(** X25. When the events of a result cannot be converted, the response of
    getGordianResponseFromSDKResult carries only that failure: no events,
    zero gas, and not the result's own error. Otherwise it carries the
    converted events, the gas figures, and the text of the result's error
    or the empty string. *)
Theorem X25_response_masks_result_on_event_failure (res : ggrpc.TxResult) :
  (forall pre ev post x,
     ggrpc.res_Events res = pre ++ ev :: post ->
     Forall (fun ev => snd (ggrpc.ee_Attributes ev) = None) pre ->
     snd (ggrpc.ee_Attributes ev) = Some x ->
     ggrpc.getGordianResponseFromSDKResult res
       = ggrpc.mkTxResultResponse []
           ("failed to extract result events: " +:+ x) 0 0) /\
  (Forall (fun ev => snd (ggrpc.ee_Attributes ev) = None)
     (ggrpc.res_Events res) ->
   let r := ggrpc.getGordianResponseFromSDKResult res in
   length (ggrpc.Events r) = length (ggrpc.res_Events res) /\
   ggrpc.GasWanted r = ggrpc.res_GasWanted res /\
   ggrpc.GasUsed r = ggrpc.res_GasUsed res /\
   ggrpc.Error r = default ""%string (ggrpc.res_Error res)).
Proof.
  unfold ggrpc.getGordianResponseFromSDKResult. split.
  - intros pre ev post x -> Hpre Hev.
    by rewrite (convertEvent_fails pre post ev x Hpre Hev).
  - intros Hok. rewrite (convertEvent_ok _ Hok). simpl.
    rewrite length_map. by repeat split.
Qed.

Lemma encode_txs_ok g (txs : list Tx) :
  Forall (fun tx => snd (ggrpc.json_Marshal g tx) = None) txs ->
  ggrpc.encode_txs g txs
    = (map (fun tx => fst (ggrpc.json_Marshal g tx)) txs, None).
Proof.
  induction 1 as [|tx txs Htx _ IH]; [done|]. simpl.
  destruct (ggrpc.json_Marshal g tx) as [b err]. simpl in *. subst err.
  by rewrite IH.
Qed.

Lemma encode_txs_fails g (pre post : list Tx) tx x :
  Forall (fun tx => snd (ggrpc.json_Marshal g tx) = None) pre ->
  snd (ggrpc.json_Marshal g tx) = Some x ->
  ggrpc.encode_txs g (pre ++ tx :: post)
    = ([], Some ("failed to encode transaction: " +:+ x)).
Proof.
  intros Hpre Htx. induction Hpre as [|tx' pre Htx' _ IH]; simpl.
  - destruct (ggrpc.json_Marshal g tx) as [b err]. simpl in *.
    by subst err.
  - destruct (ggrpc.json_Marshal g tx') as [b err]. simpl in *.
    subst err. by rewrite IH.
Qed.

(** X26. PendingTransactions answers with the buffered transactions encoded
    one for one, in the order of the buffer, when each can be encoded; when
    one cannot, it answers with no transactions at all and the error of the
    first such one. *)
Theorem X26_PendingTransactions_all_or_nothing g :
  (Forall (fun tx => snd (ggrpc.json_Marshal g tx) = None)
     (ggrpc.txBuf_Buffered g) ->
   ggrpc.PendingTransactions g
     = (Some (map (fun tx => fst (ggrpc.json_Marshal g tx))
                (ggrpc.txBuf_Buffered g)), None, [ggrpc.CallBuffered])) /\
  (forall pre tx post x,
     ggrpc.txBuf_Buffered g = pre ++ tx :: post ->
     Forall (fun tx => snd (ggrpc.json_Marshal g tx) = None) pre ->
     snd (ggrpc.json_Marshal g tx) = Some x ->
     ggrpc.PendingTransactions g
       = (None, Some ("failed to encode transaction: " +:+ x),
          [ggrpc.CallBuffered])).
Proof.
  unfold ggrpc.PendingTransactions. split.
  - intros Hok. by rewrite (encode_txs_ok g _ Hok).
  - intros pre tx post x -> Hpre Htx.
    by rewrite (encode_txs_fails g pre post tx x Hpre Htx).
Qed.

(** X27. QueryTx never returns an error. When the load succeeds it answers
    with the requested hash, the stored bytes, and the stored height if
    that is below 2^63; when the load fails it panics with the load's
    error. *)
Theorem X27_QueryTx_answers_or_panics g (hash : bytes) :
  (forall height txBytes txResult,
     ggrpc.txs_LoadTxByHash g hash = (height, txBytes, txResult, None) ->
     0 <= height < 2 ^ 63 ->
     ggrpc.QueryTx g hash
       = Ret (ggrpc.mkSDKQueryTxResponse hash height
                (ggrpc.getGordianResponseFromSDKResult txResult) txBytes,
              None)) /\
  (forall height txBytes txResult x,
     ggrpc.txs_LoadTxByHash g hash = (height, txBytes, txResult, Some x) ->
     ggrpc.QueryTx g hash = Panic x) /\
  (forall r err, ggrpc.QueryTx g hash = Ret (r, err) -> err = None).
Proof.
  unfold ggrpc.QueryTx. repeat split.
  - intros height txBytes txResult -> Hh.
    by rewrite wrap_int_small by lia.
  - by intros height txBytes txResult x ->.
  - intros r err.
    destruct (ggrpc.txs_LoadTxByHash g hash) as [[[h b] res] [x|]];
      [done|]. by intros [= _ <-].
Qed.
End GrpcProperties.

Lemma X20_SubmitTransaction_adds_only_validated_witness :
  ggrpc.txc_DecodeJSON (GrpcScenario.server []) (list_byte_of_string "25")
    = inl 25 /\
  (exists res, ggrpc.am_ValidateTx (GrpcScenario.server []) 25 = (res, None)
               /\ ggrpc.res_Error res = None) /\
  [ggrpc.CallValidateTx 25; ggrpc.CallAddTx 25]
    = [ggrpc.CallValidateTx 25; ggrpc.CallAddTx 25].
Proof.
  apply (X20_SubmitTransaction_adds_only_validated (GrpcScenario.server [])
           (list_byte_of_string "25")
           (Some (ggrpc.getGordianResponseFromSDKResult
                    (fst (GrpcScenario.run 25)))) None
           [ggrpc.CallValidateTx 25; ggrpc.CallAddTx 25] 25).
  - vm_compute. reflexivity.
  - elem_in.
Defined.

Lemma X21_SubmitTransaction_response_or_error_witness :
  ggrpc.SubmitTransaction (GrpcScenario.server []) (list_byte_of_string "7")
    = (None, Some "failed to add transaction to buffer: buffer full"%string,
       [ggrpc.CallValidateTx 7; ggrpc.CallAddTx 7]) /\
  (@None ggrpc.TxResultResponse = None <->
   Some "failed to add transaction to buffer: buffer full"%string <> None).
Proof.
  assert (Hrun : ggrpc.SubmitTransaction (GrpcScenario.server [])
                   (list_byte_of_string "7")
                 = (None,
                    Some "failed to add transaction to buffer: buffer full"%string,
                    [ggrpc.CallValidateTx 7; ggrpc.CallAddTx 7]))
    by (vm_compute; reflexivity).
  split; [exact Hrun|].
  exact (proj1 (X21_SubmitTransaction_response_or_error _ _ _ _ _ Hrun)).
Defined.

Lemma X22_SimulateTransaction_leaves_buffer_witness :
  ggrpc.SimulateTransaction (GrpcScenario.server [])
    (list_byte_of_string "2000")
    = (Some (ggrpc.errorResponse
               "failed to simulate transaction: insufficient funds"),
       None, [ggrpc.CallSimulate 2000]) /\
  forall tx, (ggrpc.CallAddTx tx ∉ [@ggrpc.CallSimulate Z 2000]) /\
             (ggrpc.CallValidateTx tx ∉ [@ggrpc.CallSimulate Z 2000]).
Proof.
  assert (Hrun : ggrpc.SimulateTransaction (GrpcScenario.server [])
                   (list_byte_of_string "2000")
                 = (Some (ggrpc.errorResponse
                            "failed to simulate transaction: insufficient funds"),
                    None, [ggrpc.CallSimulate 2000]))
    by (vm_compute; reflexivity).
  split; [exact Hrun|].
  exact (proj1 (X22_SimulateTransaction_leaves_buffer _ _ _ _ _ Hrun)).
Defined.

Lemma X23_QueryAccountBalance_address_and_denom_witness :
  ggrpc.QueryAccountBalance (GrpcScenario.server [])
    (ggrpc.mkQueryAccountBalanceRequest "cosmos1val" "")
  = ggrpc.QueryAccountBalance (GrpcScenario.server [])
      (ggrpc.mkQueryAccountBalanceRequest "cosmos1val" "stake").
Proof.
  apply (proj2 (X23_QueryAccountBalance_address_and_denom
                  (GrpcScenario.server []) "cosmos1val")).
  discriminate.
Defined.

Lemma X24_convertEvent_order_and_first_error_witness :
  exists events,
    ggrpc.convertEvent (GrpcScenario.events_of 5) = (events, None) /\
    length events = 1%nat.
Proof.
  destruct (proj1 (X24_convertEvent_order_and_first_error
                     (GrpcScenario.events_of 5)))
    as (events & Hc & Hl & _).
  - repeat constructor.
  - exists events. by split.
Defined.

Lemma X25_response_masks_result_on_event_failure_witness :
  ggrpc.getGordianResponseFromSDKResult
    (ggrpc.mkTxResult
       [ggrpc.mk_event_Event "transfer" ([], Some "attributes lost"%string)]
       50 40 (Some "out of gas"%string))
  = ggrpc.mkTxResultResponse []
      "failed to extract result events: attributes lost" 0 0.
Proof.
  apply (proj1 (X25_response_masks_result_on_event_failure
                  (ggrpc.mkTxResult
                     [ggrpc.mk_event_Event "transfer"
                        ([], Some "attributes lost"%string)]
                     50 40 (Some "out of gas"%string)))
           [] (ggrpc.mk_event_Event "transfer"
                 ([], Some "attributes lost"%string)) []).
  - reflexivity.
  - constructor.
  - reflexivity.
Defined.

Lemma X26_PendingTransactions_all_or_nothing_witness :
  ggrpc.PendingTransactions (GrpcScenario.server [5; 25])
  = (Some [list_byte_of_string "5"; list_byte_of_string "25"], None,
     [ggrpc.CallBuffered]).
Proof.
  apply (proj1 (X26_PendingTransactions_all_or_nothing
                  (GrpcScenario.server [5; 25]))).
  repeat constructor.
Defined.

Lemma X27_QueryTx_answers_or_panics_witness :
  ggrpc.QueryTx (GrpcScenario.server []) (list_byte_of_string "abc")
  = Ret (ggrpc.mkSDKQueryTxResponse (list_byte_of_string "abc") 12
           (ggrpc.getGordianResponseFromSDKResult
              (ggrpc.mkTxResult (GrpcScenario.events_of 5) 50 40 None))
           (list_byte_of_string "abc"), None).
Proof.
  apply (proj1 (X27_QueryTx_answers_or_panics (GrpcScenario.server [])
                  (list_byte_of_string "abc"))).
  - reflexivity.
  - lia.
Defined.

(** ** The seed addresses *)

Lemma string_app_cons (x : ascii) (a b : string) :
  String x a +:+ b = String x (a +:+ b).
Proof. reflexivity. Qed.

Lemma string_app_nil (b : string) : EmptyString +:+ b = b.
Proof. reflexivity. Qed.

Lemma string_app_assoc (a b c : string) : (a +:+ b) +:+ c = a +:+ (b +:+ c).
Proof.
  induction a as [|x a IH]; [done|].
  rewrite !string_app_cons. f_equal. exact IH.
Qed.

Lemma Split_line (s t : string) :
  gserver.no_newline s = true ->
  gserver.Split gserver.nl (s +:+ String gserver.nl t)
    = s :: gserver.Split gserver.nl t.
Proof.
  induction s as [|a s IH].
  - intros _. by rewrite string_app_nil.
  - intros Hs. simpl in Hs. apply andb_true_iff in Hs as [Ha Hs].
    apply negb_true_iff in Ha. rewrite string_app_cons. simpl.
    by rewrite Ha, (IH Hs).
Qed.

Lemma concat_cons2 (sep a b : string) (l : list string) :
  String.concat sep (a :: b :: l) = a +:+ sep +:+ String.concat sep (b :: l).
Proof. reflexivity. Qed.

Lemma Split_joinedAddrs (addrs : list string) :
  Forall (fun a => gserver.no_newline a = true) addrs ->
  gserver.Split gserver.nl (gserver.joinedAddrs addrs)
    = match addrs with
      | [] => [EmptyString; EmptyString]
      | _ => addrs ++ [EmptyString]
      end.
Proof.
  unfold gserver.joinedAddrs, gserver.Join.
  induction 1 as [|a addrs Ha Hrest IH]; [done|].
  destruct addrs as [|b addrs].
  - simpl String.concat. by rewrite (Split_line a EmptyString Ha).
  - rewrite concat_cons2, !string_app_assoc, string_app_cons,
      string_app_nil.
    rewrite (Split_line a _ Ha), IH. done.
Qed.

Section SeedProperties.
Context {AddrInfo : Type}.
Variable AddrInfoFromString : string -> AddrInfo + error.
Variable connect : AddrInfo -> option error.

Lemma connect_seeds_app (l1 l2 : list string) :
  gserver.connect_seeds AddrInfoFromString connect (l1 ++ l2)
    = gserver.connect_seeds AddrInfoFromString connect l1
        ++ gserver.connect_seeds AddrInfoFromString connect l2.
Proof.
  induction l1 as [|a l1 IH]; [done|]. simpl.
  destruct (String.eqb a ""); [done|].
  destruct (AddrInfoFromString a) as [ai|x]; [|by rewrite IH].
  destruct (connect ai); by rewrite IH.
Qed.

(** X28. What the seed command writes is what Start reads back. Given the
    contents the seed command writes for its host's addresses, none of
    which holds a newline, the loop in Start treats exactly those addresses,
    in their order, and the trailing newline adds nothing; with no seed
    addresses at all the loop does nothing, not even a warning. *)
Theorem X28_seed_file_round_trip (addrs : list string) :
  Forall (fun a => gserver.no_newline a = true) addrs ->
  gserver.Start_seed_loop AddrInfoFromString connect
    (gserver.joinedAddrs addrs)
    = gserver.connect_seeds AddrInfoFromString connect addrs /\
  gserver.Start_seed_loop AddrInfoFromString connect ""
    = @nil (@gserver.SeedEvent AddrInfo).
Proof.
  intros Hok. split; [|done].
  unfold gserver.Start_seed_loop. rewrite (Split_joinedAddrs addrs Hok).
  destruct addrs as [|a addrs]; [done|].
  rewrite connect_seeds_app. simpl. by rewrite app_nil_r.
Qed.

(** X29. A seed address that cannot be parsed or reached does not stop the
    loop in Start: every non-empty entry of the seed addresses that parses
    gets its connection attempt, whatever happened with the entries before
    it. *)
Theorem X29_every_parsable_seed_is_tried (seedAddrs addr : string)
    (ai : AddrInfo) :
  addr ∈ gserver.Split gserver.nl seedAddrs ->
  addr <> ""%string ->
  AddrInfoFromString addr = inl ai ->
  gserver.Connect ai
    ∈ gserver.Start_seed_loop AddrInfoFromString connect seedAddrs.
Proof.
  unfold gserver.Start_seed_loop.
  generalize (gserver.Split gserver.nl seedAddrs). intros l Hin Hne Hp.
  induction l as [|a l IH]; [by apply elem_of_nil in Hin|].
  apply elem_of_cons in Hin as [<-|Hin]; simpl.
  - destruct (String.eqb addr "") eqn:E;
      [by apply String.eqb_eq in E|].
    rewrite Hp. destruct (connect ai); apply list_elem_of_here.
  - specialize (IH Hin).
    destruct (String.eqb a ""); [done|].
    destruct (AddrInfoFromString a) as [ai'|x].
    + destruct (connect ai'); repeat apply list_elem_of_further; done.
    + by apply list_elem_of_further.
Qed.
End SeedProperties.

Lemma X28_seed_file_round_trip_witness :
  gserver.Start_seed_loop
    (fun s => if String.prefix "/ip4/" s
              then inl s else inr "bad multiaddr"%string)
    (fun ai => if String.eqb ai "/ip4/10.0.0.2/tcp/9"
               then Some "unreachable"%string else None)
    (gserver.joinedAddrs ["/ip4/10.0.0.1/tcp/9"; "/ip4/10.0.0.2/tcp/9"])
  = [gserver.Connect "/ip4/10.0.0.1/tcp/9";
     gserver.Connect "/ip4/10.0.0.2/tcp/9";
     gserver.WarnConnect "/ip4/10.0.0.2/tcp/9"].
Proof.
  rewrite (proj1 (X28_seed_file_round_trip _ _
                    ["/ip4/10.0.0.1/tcp/9"; "/ip4/10.0.0.2/tcp/9"]
                    ltac:(repeat constructor))).
  reflexivity.
Defined.

Lemma X29_every_parsable_seed_is_tried_witness :
  @gserver.Connect string "/ip4/10.0.0.1/tcp/9"
    ∈ gserver.Start_seed_loop
        (fun s => if String.prefix "/ip4/" s
                  then inl s else inr "bad multiaddr"%string)
        (fun ai => Some "unreachable"%string)
        (gserver.joinedAddrs ["not an address"; "/ip4/10.0.0.1/tcp/9"]).
Proof.
  apply X29_every_parsable_seed_is_tried with "/ip4/10.0.0.1/tcp/9"%string.
  - vm_compute. elem_in.
  - discriminate.
  - reflexivity.
Defined.

Lemma X2_DefaultProposerSelection_member_or_panic_witness :
  valB ∈ Validators vals.
Proof.
  apply (proj1 (X2_DefaultProposerSelection_member_or_panic 10 1 vals) valB).
  reflexivity.
Defined.
